(** * ft8monitor: the telegram codec, the callsign resolver and message
      classifier, and the minute/hour aggregation engine.

    A shallow embedding of [monitor/wsjtx_msg_server.py] and
    [webserver/data_server.py], with the properties of the system
    specification stated and settled against it.

    Conventions of the embedding:
    - a Python [int] is a [Z]; a Python [str] is the list of its code
      points ([list N]); [bytes] is a [list byte];
    - a Python [float] is only ever carried around or packed by the code
      modelled here, never computed on: it is represented by its IEEE-754
      binary64 bit pattern;
    - [None] is [None] of an [option];
    - a raised exception is the [Raise] outcome of [result]. *)

From Stdlib Require Import ZArith NArith List Lia Bool ZifyBool.
From Stdlib Require Import Strings.String Strings.Ascii Strings.Byte.
From stdpp Require Import base option list gmap.

Import ListNotations.
Local Open Scope Z_scope.

(** ** Python values shared by the three components *)

Module Py.

(** The exception classes the modelled code can raise.  [Unmodelled] is
    not one of them: it is the outcome of the few calls whose arguments
    lie outside the embedding (an [int] where a [float] is computed
    with, or the reverse). *)
Inductive exn : Type :=
| AssertionError
| TypeError
| ValueError
| AttributeError
| KeyError
| StructError
| UnicodeDecodeError
| UnicodeEncodeError
| ZeroDivisionError
| Unmodelled.

Inductive result (A : Type) : Type :=
| Ok (a : A)
| Raise (e : exn).
Arguments Ok {A} a.
Arguments Raise {A} e.

#[global] Instance result_ret : MRet result := fun _ a => Ok a.
#[global] Instance result_bind : MBind result :=
  fun _ _ f m => match m with Ok a => f a | Raise e => Raise e end.
#[global] Instance result_fmap : FMap result :=
  fun _ _ f m => match m with Ok a => Ok (f a) | Raise e => Raise e end.

Definition is_ok {A} (r : result A) : bool :=
  match r with Ok _ => true | Raise _ => false end.

(** [assert c] *)
Definition assert (c : bool) : result unit :=
  if c then Ok tt else Raise AssertionError.

Definition pystr : Type := list N.
Definition bytes : Type := list byte.
Definition pyfloat : Type := N.

(** A string literal of the source, as a [str]. *)
Definition lit (s : string) : pystr :=
  map (fun b => Byte.to_N b) (list_byte_of_string s).

(** [s[:n]] for [0 <= n], and [s[n:]]. *)
Definition slice_to {A} (n : nat) (s : list A) : list A := firstn n s.
Definition slice_from {A} (n : nat) (s : list A) : list A := skipn n s.

(** [len(x)] *)
Definition len {A} (s : list A) : Z := Z.of_nat (length s).

End Py.
Export Py.

(** ** The library functions the codec is written with *)

(** [struct.pack] / [struct.unpack] for the network-order format strings
    that occur in the source. *)
Module Struct.

Definition byte_of_N (n : N) : byte :=
  match Byte.of_N (n mod 256)%N with Some b => b | None => x00 end.

(** Big-endian value of a byte string, and the [k]-byte big-endian
    representation of a number. *)
Fixpoint be_decode (bs : bytes) : N :=
  match bs with
  | [] => 0%N
  | b :: r => (Byte.to_N b * 256 ^ N.of_nat (length r) + be_decode r)%N
  end.

Fixpoint be_encode (k : nat) (n : N) : bytes :=
  match k with
  | O => []
  | S k' => byte_of_N (n / 256 ^ N.of_nat k') :: be_encode k' n
  end.

Inductive fmt : Type :=
| fmt_B   (* '!B' *)
| fmt_H   (* '!H' *)
| fmt_L   (* '!L' *)
| fmt_Q   (* '!Q' *)
| fmt_l   (* '!l' *)
| fmt_q   (* '!q' *)
| fmt_d.  (* '!d' *)

Definition calcsize (f : fmt) : nat :=
  match f with
  | fmt_B => 1 | fmt_H => 2 | fmt_L => 4 | fmt_Q => 8
  | fmt_l => 4 | fmt_q => 8 | fmt_d => 8
  end%nat.

Definition is_signed (f : fmt) : bool :=
  match f with fmt_l | fmt_q => true | _ => false end.

Definition modulus (f : fmt) : Z := 2 ^ (8 * Z.of_nat (calcsize f)).

(** The integer a field of format [f] holds in the byte string [bs]
    (two's complement for the signed formats). *)
Definition int_of_bytes (f : fmt) (bs : bytes) : Z :=
  let u := Z.of_N (be_decode bs) in
  if is_signed f && (modulus f <=? 2 * u) then u - modulus f else u.

Definition int_in_range (f : fmt) (z : Z) : bool :=
  if is_signed f
  then (- modulus f <=? 2 * z) && (2 * z <? modulus f)
  else (0 <=? z) && (z <? modulus f).

Definition bytes_of_int (f : fmt) (z : Z) : bytes :=
  be_encode (calcsize f) (Z.to_N (z mod modulus f)).

(** [struct.pack(f, z)] for an integer format; [struct.error] when the
    argument is out of range. *)
Definition pack_int (f : fmt) (z : Z) : result bytes :=
  if int_in_range f z then Ok (bytes_of_int f z) else Raise StructError.

(** [struct.unpack(f, bs)[0]] for an integer format; [struct.error]
    unless the buffer has exactly [calcsize f] bytes. *)
Definition unpack_int (f : fmt) (bs : bytes) : result Z :=
  if Nat.eqb (length bs) (calcsize f) then Ok (int_of_bytes f bs)
  else Raise StructError.

(** [struct.unpack('!d', bs)[0]]: the float with that bit pattern. *)
Definition unpack_double (bs : bytes) : result pyfloat :=
  if Nat.eqb (length bs) 8 then Ok (be_decode bs) else Raise StructError.

Definition pack_double (x : pyfloat) : bytes := be_encode 8 x.

(** [struct.pack('%ds' % n, v)]: [v] cut to [n] bytes, or padded with
    null bytes up to [n]. *)
Definition pack_s (n : nat) (v : bytes) : bytes :=
  firstn n v ++ repeat x00 (n - length v).

(** [struct.unpack('%ds' % n, bs)[0]] *)
Definition unpack_s (n : nat) (bs : bytes) : result bytes :=
  if Nat.eqb (length bs) n then Ok bs else Raise StructError.

End Struct.

(** [str.encode('utf-8')] and [bytes.decode('utf-8')], both strict. *)
Module Utf8.
Local Open Scope N_scope.
Import Struct.

Definition is_surrogate (c : N) : bool := (0xD800 <=? c) && (c <=? 0xDFFF).

Definition encode_cp (c : N) : result bytes :=
  if c <? 0x80 then Ok [byte_of_N c]
  else if c <? 0x800 then
    Ok [byte_of_N (0xC0 + c / 64); byte_of_N (0x80 + c mod 64)]
  else if c <? 0x10000 then
    if is_surrogate c then Raise UnicodeEncodeError
    else Ok [byte_of_N (0xE0 + c / 4096);
             byte_of_N (0x80 + (c / 64) mod 64);
             byte_of_N (0x80 + c mod 64)]
  else if c <? 0x110000 then
    Ok [byte_of_N (0xF0 + c / 262144);
        byte_of_N (0x80 + (c / 4096) mod 64);
        byte_of_N (0x80 + (c / 64) mod 64);
        byte_of_N (0x80 + c mod 64)]
  else Raise UnicodeEncodeError.

Fixpoint encode (s : pystr) : result bytes :=
  match s with
  | [] => Ok []
  | c :: r =>
      match encode_cp c, encode r with
      | Ok b, Ok bs => Ok (b ++ bs)
      | Raise e, _ => Raise e
      | _, Raise e => Raise e
      end
  end.

Definition between (lo hi n : N) : bool := (lo <=? n) && (n <=? hi).

(** Continuation byte. *)
Definition cont (n : N) : bool := between 0x80 0xBF n.

(** Allowed range of the second byte, which excludes over-long forms,
    surrogates and values above U+10FFFF. *)
Definition second_ok (n0 n1 : N) : bool :=
  if n0 =? 0xE0 then between 0xA0 0xBF n1
  else if n0 =? 0xED then between 0x80 0x9F n1
  else if n0 =? 0xF0 then between 0x90 0xBF n1
  else if n0 =? 0xF4 then between 0x80 0x8F n1
  else cont n1.

Definition push (c : N) (r : result pystr) : result pystr :=
  match r with Ok s => Ok (c :: s) | Raise e => Raise e end.

Fixpoint decode (bs : bytes) : result pystr :=
  match bs with
  | [] => Ok []
  | b0 :: r0 =>
    let n0 := Byte.to_N b0 in
    if n0 <? 0x80 then push n0 (decode r0)
    else if between 0xC2 0xDF n0 then
      match r0 with
      | b1 :: r1 =>
        let n1 := Byte.to_N b1 in
        if cont n1
        then push ((n0 - 0xC0) * 64 + (n1 - 0x80)) (decode r1)
        else Raise UnicodeDecodeError
      | _ => Raise UnicodeDecodeError
      end
    else if between 0xE0 0xEF n0 then
      match r0 with
      | b1 :: b2 :: r2 =>
        let n1 := Byte.to_N b1 in
        let n2 := Byte.to_N b2 in
        if second_ok n0 n1 && cont n2
        then push ((n0 - 0xE0) * 4096 + (n1 - 0x80) * 64 + (n2 - 0x80))
                  (decode r2)
        else Raise UnicodeDecodeError
      | _ => Raise UnicodeDecodeError
      end
    else if between 0xF0 0xF4 n0 then
      match r0 with
      | b1 :: b2 :: b3 :: r3 =>
        let n1 := Byte.to_N b1 in
        let n2 := Byte.to_N b2 in
        let n3 := Byte.to_N b3 in
        if second_ok n0 n1 && cont n2 && cont n3
        then push ((n0 - 0xF0) * 262144 + (n1 - 0x80) * 4096
                   + (n2 - 0x80) * 64 + (n3 - 0x80))
                  (decode r3)
        else Raise UnicodeDecodeError
      | _ => Raise UnicodeDecodeError
      end
    else Raise UnicodeDecodeError
  end.

End Utf8.

(** ** The telegram codec ([wsjtx_msg_server.py], classes
       [Protocol_Element] .. [WSJTX_Configure]) *)

Module Codec.
Import Struct.

(** *** Protocol elements *)

Module UTF8_String.

(** [UTF8_String.deserialize(dbytes).value] *)
Definition deserialize (dbytes : bytes) : result (option pystr) :=
  length ← unpack_int fmt_L (slice_to 4 dbytes);
  if length =? 0xFFFFFFFF then Ok None
  else
    value ← unpack_s (Z.to_nat length)
              (slice_to (Z.to_nat length) (slice_from 4 dbytes));
    s ← Utf8.decode value;
    Ok (Some s).

(** [UTF8_String(value).serialize()]; [length] is [len] of the [str]. *)
Definition serialize (value : option pystr) : result bytes :=
  match value with
  | None => pack_int fmt_L 0xFFFFFFFF
  | Some s =>
      let length := len s in
      value ← Utf8.encode s;
      hd ← pack_int fmt_L length;
      Ok (hd ++ pack_s (Z.to_nat length) value)
  end.

Definition serialization_size (value : option pystr) : result nat :=
  match value with
  | None => Ok 4%nat
  | Some s => b ← Utf8.encode s; Ok (4 + length b)%nat
  end.

End UTF8_String.

Module Optional_Quint.

(** The object: [size] is an attribute that only [deserialize] sets;
    [None] stands for the attribute being absent. *)
Record t : Type := { value : option Z; size : option nat }.

(** [Optional_Quint(value)], through [Protocol_Element.__init__]. *)
Definition init (v : option Z) : t := {| value := v; size := None |}.

Definition formats (length : nat) : result fmt :=
  match length with
  | 1%nat => Ok fmt_B
  | 4%nat => Ok fmt_L
  | 8%nat => Ok fmt_Q
  | _ => Raise KeyError
  end.

Definition deserialize (dbytes : bytes) (length : nat) : result t :=
  v ← (if (len dbytes =? 0) then Ok None
       else f ← formats length; z ← unpack_int f dbytes; Ok (Some z));
  Ok {| value := v;
        size := Some (match v with None => 0%nat | Some _ => length end) |}.

Definition serialize (self : t) : result bytes :=
  match value self with
  | None => Ok []
  | Some v =>
      match size self with
      | None => Raise AttributeError
      | Some sz => f ← formats sz; pack_int f v
      end
  end.

Definition serialization_size (self : t) : result nat :=
  match value self with
  | None => Ok 0%nat
  | Some _ =>
      match size self with
      | None => Raise AttributeError
      | Some sz => Ok sz
      end
  end.

End Optional_Quint.

Module QDateTime.

Record t : Type :=
  { date : Z; time : Z; timespec : Z; offset : option Z }.

(** [QDateTime.__init__] *)
Definition init (date dtime timespec : Z) (offset : option Z) : result t :=
  _ ← assert (bool_decide (offset = None) || (timespec =? 2));
  if (timespec =? 2) && negb (bool_decide (offset = None))
  then Raise ValueError
  else Ok {| date := date; time := dtime;
             timespec := timespec; offset := offset |}.

(** [unpack('!qLB', b)] *)
Definition unpack_qLB (b : bytes) : result (Z * Z * Z) :=
  if Nat.eqb (length b) 13
  then Ok (int_of_bytes fmt_q (firstn 8 b),
           int_of_bytes fmt_L (firstn 4 (skipn 8 b)),
           int_of_bytes fmt_B (skipn 12 b))
  else Raise StructError.

Definition deserialize (dbytes : bytes) : result t :=
  '(date, dtime, timespec) ← unpack_qLB (slice_to 13 dbytes);
  offset ← (if timespec =? 2
            then z ← unpack_int fmt_l (slice_to 4 (slice_from 13 dbytes));
                 Ok (Some z)
            else Ok None);
  init date dtime timespec offset.

Definition serialize (self : t) : result bytes :=
  d ← pack_int fmt_q (date self);
  t ← pack_int fmt_L (time self);
  s ← pack_int fmt_B (timespec self);
  match offset self with
  | None => Ok (d ++ t ++ s)
  | Some o => ob ← pack_int fmt_l o; Ok ((d ++ t ++ s) ++ ob)
  end.

Definition serialization_size (self : t) : nat :=
  match offset self with None => 13 | Some _ => 13 + 4 end.

End QDateTime.

Module QColor.

Record t : Type := { spec : Z; red : Z; green : Z; blue : Z; alpha : Z }.

Definition spec_rgb : Z := 1.
Definition spec_invalid : Z := 0.
Definition cmax : Z := 0xFFFF.
Definition serialization_size : nat := 11.

(** [unpack('!BHHHHH', b)] *)
Definition unpack_BHHHHH (b : bytes) : result (Z * Z * Z * Z * Z * Z) :=
  if Nat.eqb (length b) 11
  then Ok (int_of_bytes fmt_B (firstn 1 b),
           int_of_bytes fmt_H (firstn 2 (skipn 1 b)),
           int_of_bytes fmt_H (firstn 2 (skipn 3 b)),
           int_of_bytes fmt_H (firstn 2 (skipn 5 b)),
           int_of_bytes fmt_H (firstn 2 (skipn 7 b)),
           int_of_bytes fmt_H (firstn 2 (skipn 9 b)))
  else Raise StructError.

Definition deserialize (dbytes : bytes) : result t :=
  let b := slice_to serialization_size dbytes in
  '(s, a, r, g, b, dummy) ← unpack_BHHHHH b;
  Ok {| spec := s; alpha := a; red := r; green := g; blue := b |}.

Definition serialize (self : t) : result bytes :=
  s ← pack_int fmt_B (spec self);
  a ← pack_int fmt_H (alpha self);
  r ← pack_int fmt_H (red self);
  g ← pack_int fmt_H (green self);
  b ← pack_int fmt_H (blue self);
  z ← pack_int fmt_H 0;
  Ok (s ++ a ++ r ++ g ++ b ++ z).

Definition color_white : t :=
  {| spec := spec_rgb; red := cmax; green := cmax; blue := cmax;
     alpha := cmax |}.
Definition color_black : t :=
  {| spec := spec_rgb; red := 0; green := 0; blue := 0; alpha := cmax |}.
Definition color_red : t :=
  {| spec := spec_rgb; red := cmax; green := 0; blue := 0; alpha := cmax |}.

End QColor.

(** *** Field values and field layouts *)

(** What an attribute of a telegram holds: an [int] (also for the
    boolean bytes), a [float], a [str], or one of the two element
    objects that are their own [value]. *)
Inductive value : Type :=
| VInt (z : Z)
| VFloat (x : pyfloat)
| VStr (s : pystr)
| VDateTime (d : QDateTime.t)
| VColor (c : QColor.t).

#[global] Instance qdatetime_eq_dec : EqDecision QDateTime.t.
Proof. solve_decision. Defined.
#[global] Instance qcolor_eq_dec : EqDecision QColor.t.
Proof. solve_decision. Defined.
#[global] Instance value_eq_dec : EqDecision value.
Proof. solve_decision. Defined.

(** First component of a format entry: a [struct] format string or a
    [Protocol_Element] class. *)
Inductive dformat : Type :=
| Fmt (f : fmt)
| Cls_UTF8_String
| Cls_Optional_Quint
| Cls_QDateTime
| Cls_QColor.

Definition field : Type := (string * (dformat * nat))%type.

Definition quint8 : dformat * nat := (Fmt fmt_B, 1%nat).
Definition quint32 : dformat * nat := (Fmt fmt_L, 4%nat).
Definition quint64 : dformat * nat := (Fmt fmt_Q, 8%nat).
Definition qint32 : dformat * nat := (Fmt fmt_l, 4%nat).
Definition qbool : dformat * nat := quint8.
Definition qutf8 : dformat * nat := (Cls_UTF8_String, 0%nat).
Definition qdouble : dformat * nat := (Fmt fmt_d, 8%nat).
Definition opt_quint8 : dformat * nat := (Cls_Optional_Quint, 1%nat).
Definition qtime : dformat * nat := quint32.
Definition qdatetime : dformat * nat := (Cls_QDateTime, 0%nat).
Definition qcolor : dformat * nat := (Cls_QColor, 0%nat).

(** [unpack(dformat, b)[0]] for a format string of the table above. *)
Definition unpack (f : fmt) (b : bytes) : result value :=
  match f with
  | fmt_d => x ← unpack_double b; Ok (VFloat x)
  | _ => z ← unpack_int f b; Ok (VInt z)
  end.

(** [pack(fmt, v)].  A [float] is packed by ['!d'] only and an [int]
    by the integer formats only; everything else is a [struct.error],
    except an [int] given to ['!d'], which [struct] would convert to a
    float first: that one call is left outside the embedding. *)
Definition pack (f : fmt) (v : option value) : result bytes :=
  match f, v with
  | fmt_d, Some (VFloat x) => Ok (pack_double x)
  | fmt_d, Some (VInt _) => Raise Unmodelled
  | fmt_d, _ => Raise StructError
  | _, Some (VInt z) => pack_int f z
  | _, _ => Raise StructError
  end.

(** [dformat.deserialize(b, length)], giving [value.value] and
    [value.serialization_size]. *)
Definition element_deserialize (d : dformat) (b : bytes) (length : nat)
  : result (option value * nat) :=
  match d with
  | Fmt _ => Raise TypeError
  | Cls_UTF8_String =>
      v ← UTF8_String.deserialize b;
      n ← UTF8_String.serialization_size v;
      Ok (VStr <$> v, n)
  | Cls_Optional_Quint =>
      o ← Optional_Quint.deserialize b length;
      n ← Optional_Quint.serialization_size o;
      Ok (VInt <$> Optional_Quint.value o, n)
  | Cls_QDateTime =>
      d ← QDateTime.deserialize b;
      Ok (Some (VDateTime d), QDateTime.serialization_size d)
  | Cls_QColor =>
      c ← QColor.deserialize b;
      Ok (Some (VColor c), QColor.serialization_size)
  end.

(** [WSJTX_Telegram.deserialize], over the [format] of the class it is
    called on; [kw] is returned in insertion order. *)
Fixpoint deserialize (format : list field) (b : bytes)
  : result (list (string * option value)) :=
  match format with
  | [] => Ok []
  | (name, (dformat, length)) :: format' =>
      if len b =? 0 then
        kw ← deserialize format' b;
        Ok ((name, None) :: kw)
      else
        match dformat with
        | Fmt f =>
            v ← unpack f (slice_to length b);
            kw ← deserialize format' (slice_from length b);
            Ok ((name, Some v) :: kw)
        | _ =>
            '(v, size) ← element_deserialize dformat b length;
            kw ← deserialize format' (slice_from size b);
            Ok ((name, v) :: kw)
        end
  end.

(** *** Telegram classes *)

Inductive tclass : Type :=
| WSJTX_Telegram
| WSJTX_Heartbeat
| WSJTX_Status
| WSJTX_Decode
| WSJTX_Clear
| WSJTX_Reply
| WSJTX_QSO_Logged
| WSJTX_Close
| WSJTX_Replay
| WSJTX_Halt_TX
| WSJTX_Free_Text
| WSJTX_WSPR_Decode
| WSJTX_Location
| WSJTX_Logged_ADIF
| WSJTX_Highlight_Call
| WSJTX_Switch_Config
| WSJTX_Configure.

#[global] Instance tclass_eq_dec : EqDecision tclass.
Proof. solve_decision. Defined.

Definition schema_version_number : Z := 3.
Definition magic : Z := 0xadbccbda.

(** The class attribute [type]. *)
Definition class_type (c : tclass) : option Z :=
  match c with
  | WSJTX_Telegram => None
  | WSJTX_Heartbeat => Some 0
  | WSJTX_Status => Some 1
  | WSJTX_Decode => Some 2
  | WSJTX_Clear => Some 3
  | WSJTX_Reply => Some 4
  | WSJTX_QSO_Logged => Some 5
  | WSJTX_Close => Some 6
  | WSJTX_Replay => Some 7
  | WSJTX_Halt_TX => Some 8
  | WSJTX_Free_Text => Some 9
  | WSJTX_WSPR_Decode => Some 10
  | WSJTX_Location => Some 11
  | WSJTX_Logged_ADIF => Some 12
  | WSJTX_Highlight_Call => Some 13
  | WSJTX_Switch_Config => Some 14
  | WSJTX_Configure => Some 15
  end.

Definition base_format : list field :=
  [ ("magic", quint32)
  ; ("version_number", quint32)
  ; ("type", quint32)
  ; ("id", qutf8) ]%string.

(** The fields a class appends to [WSJTX_Telegram.format]. *)
Definition own_format (c : tclass) : list field :=
  match c with
  | WSJTX_Telegram | WSJTX_Close | WSJTX_Replay => []
  | WSJTX_Heartbeat =>
      [ ("max_schema", quint32); ("version", qutf8); ("revision", qutf8) ]
  | WSJTX_Status =>
      [ ("dial_frq", quint64); ("mode", qutf8); ("dx_call", qutf8)
      ; ("report", qutf8); ("tx_mode", qutf8); ("tx_enabled", qbool)
      ; ("xmitting", qbool); ("decoding", qbool); ("rx_df", quint32)
      ; ("tx_df", quint32); ("de_call", qutf8); ("de_grid", qutf8)
      ; ("dx_grid", qutf8); ("tx_watchdog", qbool); ("sub_mode", qutf8)
      ; ("fast_mode", qbool); ("special_op", quint8)
      ; ("frq_tolerance", quint32); ("t_r_period", quint32)
      ; ("config_name", qutf8); ("tx_message", qutf8) ]
  | WSJTX_Decode =>
      [ ("is_new", qbool); ("time", qtime); ("snr", qint32)
      ; ("delta_t", qdouble); ("delta_f", quint32); ("mode", qutf8)
      ; ("message", qutf8); ("low_confidence", qbool); ("off_air", qbool) ]
  | WSJTX_Clear => [ ("window", opt_quint8) ]
  | WSJTX_Reply =>
      [ ("time", qtime); ("snr", qint32); ("delta_t", qdouble)
      ; ("delta_f", quint32); ("mode", qutf8); ("message", qutf8)
      ; ("low_confidence", qbool); ("modifiers", quint8) ]
  | WSJTX_QSO_Logged =>
      [ ("time_off", qdatetime); ("dx_call", qutf8); ("dx_grid", qutf8)
      ; ("tx_frq", quint64); ("mode", qutf8); ("report_sent", qutf8)
      ; ("report_recv", qutf8); ("tx_power", qutf8); ("comments", qutf8)
      ; ("name", qutf8); ("time_on", qdatetime); ("operator_call", qutf8)
      ; ("my_call", qutf8); ("my_grid", qutf8); ("exchange_sent", qutf8)
      ; ("exchange_recv", qutf8); ("adif_propmode", qutf8) ]
  | WSJTX_Halt_TX => [ ("auto_tx_only", qbool) ]
  | WSJTX_Free_Text => [ ("text", qutf8); ("send", qbool) ]
  | WSJTX_WSPR_Decode =>
      [ ("is_new", qbool); ("time", qtime); ("snr", qint32)
      ; ("delta_t", qdouble); ("frq", quint64); ("drift", qint32)
      ; ("callsign", qutf8); ("grid", qutf8); ("power", qint32)
      ; ("off_air", qbool) ]
  | WSJTX_Location => [ ("location", qutf8) ]
  | WSJTX_Logged_ADIF => [ ("adif_txt", qutf8) ]
  | WSJTX_Highlight_Call =>
      [ ("callsign", qutf8); ("bg_color", qcolor); ("fg_color", qcolor)
      ; ("highlight_last", qbool) ]
  | WSJTX_Switch_Config => [ ("adif_txt", qutf8) ]
  | WSJTX_Configure =>
      [ ("mode", qutf8); ("frq_tolerance", quint32); ("sub_mode", qutf8)
      ; ("fast_mode", qbool); ("t_r_period", quint32); ("rx_df", quint32)
      ; ("dx_call", qutf8); ("dx_grid", qutf8); ("gen_messages", qbool) ]
  end%string.

(** The class attribute [format]. *)
Definition format (c : tclass) : list field := base_format ++ own_format c.

Definition base_defaults : list (string * option value) :=
  [ ("magic", Some (VInt magic))
  ; ("version_number", Some (VInt 3))
  ; ("id", Some (VStr (lit "wsjt-server"))) ]%string.

(** The class attribute [defaults]; a class that does not define it
    inherits the one of [WSJTX_Telegram]. *)
Definition defaults (c : tclass) : list (string * option value) :=
  match c with
  | WSJTX_Heartbeat =>
      ("max_schema", Some (VInt 3)) :: ("version", Some (VStr []))
      :: ("revision", Some (VStr [])) :: base_defaults
  | WSJTX_Clear => ("window", None) :: base_defaults
  | WSJTX_Free_Text => ("send", Some (VInt 0)) :: base_defaults
  | WSJTX_Highlight_Call =>
      ("fg_color", Some (VColor QColor.color_black))
      :: ("bg_color", Some (VColor QColor.color_white))
      :: ("highlight_last", Some (VInt 0)) :: base_defaults
  | _ => base_defaults
  end%string.

(** [WSJTX_Telegram.type_registry] *)
Definition type_registry (dtype : option value) : option tclass :=
  match dtype with
  | Some (VInt 0) => Some WSJTX_Heartbeat
  | Some (VInt 1) => Some WSJTX_Status
  | Some (VInt 2) => Some WSJTX_Decode
  | Some (VInt 3) => Some WSJTX_Clear
  | Some (VInt 4) => Some WSJTX_Reply
  | Some (VInt 5) => Some WSJTX_QSO_Logged
  | Some (VInt 6) => Some WSJTX_Close
  | Some (VInt 7) => Some WSJTX_Replay
  | Some (VInt 8) => Some WSJTX_Halt_TX
  | Some (VInt 9) => Some WSJTX_Free_Text
  | Some (VInt 10) => Some WSJTX_WSPR_Decode
  | Some (VInt 11) => Some WSJTX_Location
  | Some (VInt 12) => Some WSJTX_Logged_ADIF
  | Some (VInt 13) => Some WSJTX_Highlight_Call
  | Some (VInt 14) => Some WSJTX_Switch_Config
  | Some (VInt 15) => Some WSJTX_Configure
  | _ => None
  end.

(** A telegram object: its class and its attributes, one per entry of
    the class's [format], in that order. *)
Record telegram : Type :=
  { tel_class : tclass; tel_attrs : list (string * option value) }.

(** A dict with [str] keys in insertion order; [kw[name]]. *)
Fixpoint dict_get {V} (kw : list (string * V)) (name : string) : option V :=
  match kw with
  | [] => None
  | (n, v) :: kw' => if String.eqb n name then Some v else dict_get kw' name
  end.

(** [x == z] for an attribute [x] and an [int] [z]. *)
Definition eq_int (x : option value) (z : Z) : result bool :=
  match x with
  | Some (VInt y) => Ok (y =? z)
  | Some (VFloat _) => Raise Unmodelled
  | _ => Ok false
  end.

(** [z >= x] for an [int] [z] and an attribute [x]. *)
Definition int_ge (z : Z) (x : option value) : result bool :=
  match x with
  | Some (VInt y) => Ok (y <=? z)
  | Some (VFloat _) => Raise Unmodelled
  | _ => Raise TypeError
  end.

(** [params[name]] for every [name] of the format. *)
Fixpoint collect (params : list (string * option value)) (fmt : list field)
  : result (list (string * option value)) :=
  match fmt with
  | [] => Ok []
  | (name, _) :: fmt' =>
      match dict_get params name with
      | None => Raise KeyError
      | Some v => r ← collect params fmt'; Ok ((name, v) :: r)
      end
  end.

(** [WSJTX_Telegram.__init__], for the class [c] called with the
    keyword arguments [kw]. *)
Definition init (c : tclass) (kw : list (string * option value))
  : result telegram :=
  let params := kw ++ defaults c in
  let params :=
    match dict_get params "type" with
    | None => params ++ [("type"%string, VInt <$> class_type c)]
    | Some _ => params
    end in
  m ← match dict_get params "magic" with
      | None => Raise KeyError
      | Some x => eq_int x magic
      end;
  _ ← assert m;
  v ← match dict_get params "version_number" with
      | None => Raise KeyError
      | Some x => int_ge schema_version_number x
      end;
  _ ← assert v;
  attrs ← collect params (format c);
  _ ← match class_type c with
      | None => Ok tt
      | Some ty =>
          match dict_get attrs "type" with
          | None => Raise AttributeError
          | Some x => t ← eq_int x ty; assert t
          end
      end;
  Ok {| tel_class := c; tel_attrs := attrs |}.

(** [WSJTX_Telegram.from_bytes] *)
Definition from_bytes (dbytes : bytes) : result telegram :=
  kw ← deserialize (format WSJTX_Telegram) dbytes;
  dtype ← match dict_get kw "type" with
          | None => Raise KeyError
          | Some x => Ok x
          end;
  self ← init WSJTX_Telegram kw;
  match type_registry dtype with
  | Some c =>
      kw' ← deserialize (format c) dbytes;
      init c (kw' ++ kw)
  | None => Ok self
  end.

(** [fmt(v).serialize()] for an attribute [v] that is not itself a
    [Protocol_Element]. *)
Definition construct_and_serialize (d : dformat) (v : option value)
  : result bytes :=
  match d, v with
  | Cls_UTF8_String, None => UTF8_String.serialize None
  | Cls_UTF8_String, Some (VStr s) => UTF8_String.serialize (Some s)
  | Cls_UTF8_String, Some _ => Raise TypeError
  | Cls_Optional_Quint, None =>
      Optional_Quint.serialize (Optional_Quint.init None)
  | Cls_Optional_Quint, Some (VInt z) =>
      Optional_Quint.serialize (Optional_Quint.init (Some z))
  | Cls_Optional_Quint, Some _ => Raise AttributeError
  | Cls_QDateTime, _ => Raise TypeError
  | Cls_QColor, Some (VInt z) =>
      QColor.serialize
        {| QColor.spec := QColor.spec_rgb; QColor.red := z;
           QColor.green := 0; QColor.blue := 0;
           QColor.alpha := QColor.cmax |}
  | Cls_QColor, _ => Raise StructError
  | Fmt _, _ => Raise TypeError
  end.

(** One round of the loop of [as_bytes]. *)
Definition field_bytes (d : dformat) (v : option value) : result bytes :=
  match v with
  | Some (VDateTime x) => QDateTime.serialize x
  | Some (VColor x) => QColor.serialize x
  | _ =>
      match d with
      | Fmt f => pack f v
      | _ => construct_and_serialize d v
      end
  end.

Fixpoint as_bytes_loop (fmt : list field)
    (attrs : list (string * option value)) : result bytes :=
  match fmt with
  | [] => Ok []
  | (name, (d, _)) :: fmt' =>
      match dict_get attrs name with
      | None => Raise AttributeError
      | Some v =>
          b ← field_bytes d v;
          r ← as_bytes_loop fmt' attrs;
          Ok (b ++ r)
      end
  end.

(** [WSJTX_Telegram.as_bytes] *)
Definition as_bytes (self : telegram) : result bytes :=
  as_bytes_loop (format (tel_class self)) (tel_attrs self).

(** The two telegrams of the doctests. *)
Definition bytes_of_N_list (l : list N) : bytes := map byte_of_N l.

Definition clearmsg : bytes :=
  bytes_of_N_list
    [0xad; 0xbc; 0xcb; 0xda; 0; 0; 0; 3; 0; 0; 0; 3; 0; 0; 0; 0x14]%N
  ++ list_byte_of_string "WSJT-X - TS590S-klbg".

(** *** Buffers cut at a field boundary *)

(** The attributes of fields that the buffer does not reach. *)
Definition nulls (format : list field) : list (string * option value) :=
  (fun f => (f.1, None)) <$> format.

(** The number of bytes of [b] that the first [k] fields of the format
    occupy, as the loop of [deserialize] reads them. *)
Fixpoint boundary (format : list field) (b : bytes) (k : nat)
  : result nat :=
  match k, format with
  | S k', (name, (dformat, length)) :: format' =>
      if len b =? 0 then Ok 0%nat
      else
        match dformat with
        | Fmt f =>
            _ ← unpack f (slice_to length b);
            n ← boundary format' (slice_from length b) k';
            Ok (List.length (slice_to length b) + n)%nat
        | _ =>
            '(_, size) ← element_deserialize dformat b length;
            n ← boundary format' (slice_from size b) k';
            Ok (size + n)%nat
        end
  | _, _ => Ok 0%nat
  end.


(** *** Vocabulary for the properties of the codec *)

(** The attributes of a telegram, header first. *)
Definition header (v1 v2 v3 v4 : option value)
    (kw' : list (string * option value)) : list (string * option value) :=
  ("magic"%string, v1) :: ("version_number"%string, v2)
  :: ("type"%string, v3) :: ("id"%string, v4) :: kw'.

(** The checks of [__init__] on the header values, for the class [c]. *)
Definition check_header (c : tclass) (v1 v2 v3 : option value)
  : result unit :=
  m ← eq_int v1 magic;
  _ ← assert m;
  v ← int_ge schema_version_number v2;
  _ ← assert v;
  match class_type c with
  | None => Ok tt
  | Some ty => t ← eq_int v3 ty; assert t
  end.

(** [c] is the class [from_bytes] builds for the type tag [v3]. *)
Definition registered (c : tclass) (v3 : option value) : Prop :=
  type_registry v3 = Some c \/
  (type_registry v3 = None /\ c = WSJTX_Telegram).

(** The attribute values on which the round trip is established: the
    value has the type of its field, a string is ASCII and shorter than
    the null sentinel, an optional integer is null, a date-time has no
    offset and a [timespec] other than 2, and a float is 64 bits wide. *)
Definition ascii (s : pystr) : Prop := Forall (fun c => (c < 128)%N) s.

Definition plain (d : dformat) (v : option value) : Prop :=
  match d, v with
  | Fmt fmt_d, Some (VFloat x) => (x < 2 ^ 64)%N
  | Fmt fmt_d, _ => False
  | Fmt _, Some (VInt _) => True
  | Cls_UTF8_String, None => True
  | Cls_UTF8_String, Some (VStr s) => ascii s /\ len s < 0xFFFFFFFF
  | Cls_Optional_Quint, None => True
  | Cls_QDateTime, Some (VDateTime q) =>
      QDateTime.offset q = None /\ QDateTime.timespec q <> 2
  | Cls_QColor, Some (VColor _) => True
  | _, _ => False
  end.

Definition plain_field (f : field) (a : string * option value) : Prop :=
  plain f.2.1 a.2.

(** In the formats of the source the length given with a format string
    is its [calcsize], and an optional integer is the last field. *)
Fixpoint format_ok (format : list field) : bool :=
  match format with
  | [] => true
  | (_, (d, length)) :: format' =>
      match d with
      | Fmt f => Nat.eqb length (calcsize f)
      | Cls_Optional_Quint => match format' with [] => true | _ => false end
      | _ => true
      end && format_ok format'
  end.

(** The type an attribute has after decoding: [None] where the
    buffer ended or a null was read, else an [int] within the range of
    its format, a [float], a [str], or the element object. *)
Definition has_type (d : dformat) (v : option value) : Prop :=
  match d, v with
  | _, None => True
  | Fmt fmt_d, Some (VFloat x) => (x < 2 ^ 64)%N
  | Fmt fmt_d, Some _ => False
  | Fmt f, Some (VInt z) => int_in_range f z = true
  | Cls_UTF8_String, Some (VStr _) => True
  | Cls_Optional_Quint, Some (VInt z) => 0 <= z
  | Cls_QDateTime, Some (VDateTime _) => True
  | Cls_QColor, Some (VColor _) => True
  | _, _ => False
  end.

Definition typed_field (f : field) (a : string * option value) : Prop :=
  a.1 = f.1 /\ has_type f.2.1 a.2.

(** [statusmsg] of the source. *)
Definition statusmsg : bytes :=
  bytes_of_N_list [0xad; 0xbc; 0xcb; 0xda; 0; 0; 0; 2; 0; 0; 0; 1; 0; 0; 0; 0x14]%N
  ++ list_byte_of_string "WSJT-X - TS590S-klbg"
  ++ bytes_of_N_list [0; 0; 0; 0; 0; 0x6b; 0xf0; 0xd0; 0; 0; 0; 3]%N
  ++ list_byte_of_string "FT8"
  ++ bytes_of_N_list [0; 0; 0; 6]%N
  ++ list_byte_of_string "XAMPLE"
  ++ bytes_of_N_list [0; 0; 0; 2; 0x2d; 0x32; 0; 0; 0; 3]%N
  ++ list_byte_of_string "FT8"
  ++ bytes_of_N_list [0; 0; 1; 0; 0; 2; 0xcb; 0; 0; 4; 0x6e; 0; 0; 0; 6]%N
  ++ list_byte_of_string "OE3RSU"
  ++ bytes_of_N_list [0; 0; 0; 6]%N
  ++ list_byte_of_string "JN88DG"
  ++ bytes_of_N_list [0; 0; 0; 4]%N
  ++ list_byte_of_string "JO21"
  ++ bytes_of_N_list [0; 0xff; 0xff; 0xff; 0xff; 0; 0; 0xff; 0xff; 0xff; 0xff; 0xff; 0xff; 0xff; 0xff; 0; 0; 0; 0xb]%N
  ++ list_byte_of_string "TS590S-klbg"
  ++ bytes_of_N_list [0; 0; 0]%N
  ++ list_byte_of_string "%XAMPLE OE3RSU 73                     ".

(** The keyword arguments of the doctest of [WSJTX_Highlight_Call]. *)
Definition highlight_kw : list (string * option value) :=
  [ ("callsign", Some (VStr (lit "OE3RSU")))
  ; ("bg_color", Some (VColor QColor.color_white))
  ; ("fg_color", Some (VColor QColor.color_red))
  ; ("highlight_last", Some (VInt 1))
  ; ("id", Some (VStr (lit "test")))
  ; ("version_number", Some (VInt 2)) ]%string.

(** A [Clear] telegram with [window = 1]: [clearmsg] and one byte. *)
Definition clear_window_1 : bytes := clearmsg ++ [x01].

(** A date-time with [timespec = 2] and its offset: 17 bytes. *)
Definition datetime_with_offset : bytes :=
  bytes_of_N_list
    [0; 0; 0; 0; 0; 0x25; 0x8a; 0x05; 0; 0; 0; 0; 2; 0; 0; 0x0e; 0x10]%N.

(** The same date-time in UTC ([timespec = 1]): 13 bytes. *)
Definition datetime_utc : bytes :=
  bytes_of_N_list [0; 0; 0; 0; 0; 0x25; 0x8a; 0x05; 0; 0; 0; 0; 1]%N.

(** [WSJTX_Clear(window=1)] and [WSJTX_Heartbeat(version='é')]. *)
Definition clear_kw : list (string * option value) :=
  [("window"%string, Some (VInt 1))].
Definition heartbeat_kw : list (string * option value) :=
  [("version"%string, Some (VStr [233%N]))].

End Codec.

(** ** Regular expressions of the [re] module, as far as the source
       uses them *)

Module Re.
Local Open Scope N_scope.

(** The Unicode database of the interpreter: [\d] matches the
    characters of category Nd, a table that comes with the Python
    build and is a parameter here. *)
Class UnicodeDB : Type := { unicode_digit : N -> bool }.

Definition ascii_digit (c : N) : bool := (48 <=? c) && (c <=? 57).

(** On the ASCII range, [\d] is [[0-9]]. *)
Definition digits_extend_ascii `{UnicodeDB} : Prop :=
  forall c, c < 128 -> unicode_digit c = ascii_digit c.

(** A set of characters: [[a-b]], [\d], a union. *)
Inductive cset : Type :=
| Range (lo hi : N)
| Digit
| Union (a b : cset).

Fixpoint mem `{UnicodeDB} (cs : cset) (c : N) : bool :=
  match cs with
  | Range lo hi => (lo <=? c) && (c <=? hi)
  | Digit => unicode_digit c
  | Union a b => mem a c || mem b c
  end.

Inductive re : Type :=
| Empty
| Eps
| Chr (cs : cset)
| Seq (r1 r2 : re)
| Alt (r1 r2 : re)
| Star (r : re).

(** [r+], [r?], [r{n}], [r{lo,hi}] with [hi = lo + extra] *)
Definition plus (r : re) : re := Seq r (Star r).
Definition opt (r : re) : re := Alt r Eps.
Fixpoint rep (n : nat) (r : re) : re :=
  match n with O => Eps | S n' => Seq r (rep n' r) end.
Fixpoint upto (n : nat) (r : re) : re :=
  match n with O => Eps | S n' => opt (Seq r (upto n' r)) end.
Definition rep_range (lo extra : nat) (r : re) : re :=
  Seq (rep lo r) (upto extra r).

Fixpoint nullable (r : re) : bool :=
  match r with
  | Empty => false
  | Eps => true
  | Chr _ => false
  | Seq r1 r2 => nullable r1 && nullable r2
  | Alt r1 r2 => nullable r1 || nullable r2
  | Star _ => true
  end.

Definition seq (r1 r2 : re) : re :=
  match r1, r2 with
  | Empty, _ => Empty
  | _, Empty => Empty
  | Eps, _ => r2
  | _, _ => Seq r1 r2
  end.

Definition alt (r1 r2 : re) : re :=
  match r1, r2 with
  | Empty, _ => r2
  | _, Empty => r1
  | _, _ => Alt r1 r2
  end.

(** The words of [r] that start with [c], with [c] removed. *)
Fixpoint deriv `{UnicodeDB} (c : N) (r : re) : re :=
  match r with
  | Empty => Empty
  | Eps => Empty
  | Chr cs => if mem cs c then Eps else Empty
  | Seq r1 r2 =>
      alt (seq (deriv c r1) r2) (if nullable r1 then deriv c r2 else Empty)
  | Alt r1 r2 => alt (deriv c r1) (deriv c r2)
  | Star r1 => seq (deriv c r1) (Star r1)
  end.

(** [s] is a word of [r]. *)
Fixpoint matches `{UnicodeDB} (r : re) (s : pystr) : bool :=
  match s with
  | [] => nullable r
  | c :: s' => matches (deriv c r) s'
  end.

(** [s] without its final newline, when it ends with one. *)
Fixpoint strip_newline (s : pystr) : option pystr :=
  match s with
  | [] => None
  | [c] => if c =? 10 then Some [] else None
  | c :: s' => cons c <$> strip_newline s'
  end.

(** [re.compile('^r$').match(s)] as a truth value: [$] matches at the
    end of the string and also just before a newline that ends it. *)
Definition match_anchored `{UnicodeDB} (r : re) (s : pystr) : bool :=
  matches r s ||
  match strip_newline s with
  | Some s' => matches r s'
  | None => false
  end.

(** [re.compile(r).match(s)] as a truth value, for a pattern without
    anchors: some prefix of [s] is a word of [r]. *)
Fixpoint match_prefix `{UnicodeDB} (r : re) (s : pystr) : bool :=
  nullable r ||
  match s with
  | [] => false
  | c :: s' => match_prefix (deriv c r) s'
  end.

(** The words of a pattern. *)
Inductive lang `{UnicodeDB} : re -> pystr -> Prop :=
| lang_Eps : lang Eps []
| lang_Chr cs c : mem cs c = true -> lang (Chr cs) [c]
| lang_Seq r1 r2 s1 s2 : lang r1 s1 -> lang r2 s2 -> lang (Seq r1 r2) (s1 ++ s2)
| lang_Alt_l r1 r2 s : lang r1 s -> lang (Alt r1 r2) s
| lang_Alt_r r1 r2 s : lang r2 s -> lang (Alt r1 r2) s
| lang_Star_nil r : lang (Star r) []
| lang_Star_cons r s1 s2 :
    lang r s1 -> lang (Star r) s2 -> lang (Star r) (s1 ++ s2).


(** The database in which [\d] is [[0-9]] and nothing else. *)
Definition ascii_db : UnicodeDB := {| unicode_digit := ascii_digit |}.

End Re.

(** ** The callsign resolver and the message classifier (class [CTY]) *)

Module CTY.
Import Re.

Module Info.
(** An entry of [exact_callsign] or [prefix]. *)
Record t : Type :=
  { country : pystr; cq : pystr; itu : pystr; continent : pystr;
    lat : pyfloat; lon : pyfloat; gmtoff : pyfloat }.
End Info.

Module Country.
(** An entry of [countries]: the ['data'] of [parse_country_line]. *)
Record t : Type :=
  { cq : pystr; itu : pystr; continent : pystr;
    lat : pyfloat; lon : pyfloat; gmtoff : pyfloat; pfx : pystr }.
End Country.

(** The attributes of a [CTY] object. *)
Record t : Type :=
  { exact_callsign : gmap pystr Info.t;
    prefix : gmap pystr Info.t;
    prf_max : nat;
    countries : gmap pystr Country.t }.

(** The object as [__init__] has it before the first line is read. *)
Definition empty : t :=
  {| exact_callsign := ∅; prefix := ∅; prf_max := 0; countries := ∅ |}.

Section WithUnicode.
Context `{UnicodeDB}.

Let upper : cset := Range 65 90.                      (* [A-Z] *)
Let alnum : cset := Union (Range 65 90) (Range 48 57). (* [A-Z0-9] *)
Let slash : cset := Range 47 47.                      (* \/ *)
Let d_or_upper : re := Alt (Chr Digit) (Chr upper).   (* (\d|[A-Z]) *)

(** [^((\d|[A-Z])+\/)?([A-Z0-9]{1,3}[0-9][A-Z0-9]{0,3}[A-Z])
     (\/(\d|[A-Z])+)?(\/(\d|[A-Z])+)?$] *)
Definition re_full_callsign : re :=
  Seq (opt (Seq (plus d_or_upper) (Chr slash)))
    (Seq (Seq (rep_range 1 2 (Chr alnum))
            (Seq (Chr (Range 48 57))
               (Seq (rep_range 0 3 (Chr alnum)) (Chr upper))))
       (Seq (opt (Seq (Chr slash) (plus d_or_upper)))
          (opt (Seq (Chr slash) (plus d_or_upper))))).

(** [^(\d{3})$|^([A-Z]{1,4})$] *)
Definition re_indicator : re :=
  Alt (rep 3 (Chr Digit)) (rep_range 1 3 (Chr upper)).

(** [^[A-R][A-R]\d{2}$] *)
Definition re_grid : re :=
  Seq (Chr (Range 65 82)) (Seq (Chr (Range 65 82)) (rep 2 (Chr Digit))).

(** *** Building the tables *)

(** The longest prefix of [s] whose characters satisfy [p], and the
    rest. *)
Fixpoint span (p : N -> bool) (s : pystr) : pystr * pystr :=
  match s with
  | [] => ([], [])
  | c :: s' =>
      if p c then let '(a, b) := span p s' in (c :: a, b) else ([], s)
  end.

(** [(\(\d+\))?] and [(\[\d+\])?] at the head of [s]: the group and
    the rest.  A closing bracket is not a digit, so the greedy scan
    of [\d+] is the only way the group can match. *)
Definition bracketed (op cl : N) (s : pystr) : option pystr * pystr :=
  match s with
  | o :: s1 =>
      if (o =? op)%N then
        match span unicode_digit s1 with
        | (d :: ds, c :: s2) =>
            if (c =? cl)%N then (Some (o :: (d :: ds) ++ [c]), s2)
            else (None, s)
        | _ => (None, s)
        end
      else (None, s)
  | [] => (None, s)
  end.

Definition call_char (c : N) : bool :=
  mem (Union alnum slash) c.

(** [re_callsign.match(pfx)], for
    [(\=)?([A-Z0-9/]+)(\(\d+\))?(\[\d+\])?]: the four groups. *)
Definition re_callsign_match (pfx : pystr)
  : option (option pystr * pystr * option pystr * option pystr) :=
  let '(full_callsign, s1) :=
    match pfx with
    | 61%N :: s' => (Some [61%N], s')
    | _ => (None, pfx)
    end in
  match span call_char s1 with
  | ([], _) => None
  | (callsign, s2) =>
      let '(g_cq, s3) := bracketed 40 41 s2 in
      let '(g_itu, _) := bracketed 91 93 s3 in
      Some (full_callsign, callsign, g_cq, g_itu)
  end.

(** [g[1:-1]] *)
Definition inner (g : pystr) : pystr := removelast (tail g).

Definition entry (country : pystr) (c_data : Country.t)
    (g_cq g_itu : option pystr) : Info.t :=
  {| Info.country := country;
     Info.cq := match g_cq with
                | Some g => inner g
                | None => Country.cq c_data
                end;
     Info.itu := match g_itu with
                 | Some g => inner g
                 | None => Country.itu c_data
                 end;
     Info.continent := Country.continent c_data;
     Info.lat := Country.lat c_data;
     Info.lon := Country.lon c_data;
     Info.gmtoff := Country.gmtoff c_data |}.

(** The body of the loop of [parse_alias_line]. *)
Definition add_alias (country : pystr) (c_data : Country.t)
    (self : t) (pfx : pystr) : result t :=
  match re_callsign_match pfx with
  | None => Raise AssertionError
  | Some (full_callsign, callsign, g_cq, g_itu) =>
      let l := length callsign in
      let prf_max' := if (prf_max self <? l)%nat then l else prf_max self in
      let e := entry country c_data g_cq g_itu in
      match full_callsign with
      | Some _ =>
          Ok {| exact_callsign :=
                  match exact_callsign self !! callsign with
                  | None => <[callsign := e]> (exact_callsign self)
                  | Some _ => exact_callsign self
                  end;
                prefix := prefix self;
                prf_max := prf_max';
                countries := countries self |}
      | None =>
          Ok {| exact_callsign := exact_callsign self;
                prefix :=
                  match prefix self !! callsign with
                  | None => <[callsign := e]> (prefix self)
                  | Some _ => prefix self
                  end;
                prf_max := prf_max';
                countries := countries self |}
      end
  end.

(** [s.split(sep)] for a one-character separator. *)
Fixpoint split_on (sep : N) (s : pystr) : list pystr :=
  match s with
  | [] => [[]]
  | c :: s' =>
      if (c =? sep)%N then [] :: split_on sep s'
      else match split_on sep s' with
           | tok :: toks => (c :: tok) :: toks
           | [] => [[c]]
           end
  end.

Fixpoint add_aliases (country : pystr) (c_data : Country.t)
    (self : t) (pfxs : list pystr) : result t :=
  match pfxs with
  | [] => Ok self
  | pfx :: pfxs' =>
      self' ← add_alias country c_data self pfx;
      add_aliases country c_data self' pfxs'
  end.

Definition parse_alias_line (self : t) (country line_text : pystr)
  : result t :=
  match countries self !! country with
  | None => Raise KeyError
  | Some c_data => add_aliases country c_data self (split_on 44 line_text)
  end.

(** [self.countries[current_country] = cdata['data']] of [__init__],
    for an already parsed country line. *)
Definition add_country (self : t) (country : pystr) (c_data : Country.t)
  : t :=
  {| exact_callsign := exact_callsign self;
     prefix := prefix self;
     prf_max := prf_max self;
     countries := <[country := c_data]> (countries self) |}.

(** The loop of [__init__] over the file, one round for each country:
    its name, the data of its country line, and its alias lines
    joined, without the closing semicolon. *)
Fixpoint load (self : t) (blocks : list (pystr * Country.t * pystr))
  : result t :=
  match blocks with
  | [] => Ok self
  | (country, c_data, alias_lines) :: blocks' =>
      self' ← parse_alias_line (add_country self country c_data)
                country alias_lines;
      load self' blocks'
  end.

(** A small database: three nested prefixes, and a full callsign
    listed under another country than the prefix it starts with. *)
Definition sample_country (cq itu continent pfx : string) : Country.t :=
  {| Country.cq := lit cq; Country.itu := lit itu;
     Country.continent := lit continent;
     Country.lat := 0%N; Country.lon := 0%N; Country.gmtoff := 0%N;
     Country.pfx := lit pfx |}.

Definition sample_blocks : list (pystr * Country.t * pystr) :=
  [ (lit "United States", sample_country "05" "08" "NA" "K", lit "K")
  ; (lit "Hawaii", sample_country "31" "61" "OC" "KH6", lit "KH6")
  ; (lit "Kure Island", sample_country "31" "61" "OC" "KH7K", lit "KH6Z")
  ; (lit "Austria", sample_country "15" "28" "EU" "OE", lit "OE")
  ; (lit "Vienna Intl Ctr", sample_country "15" "28" "EU" "*4U1V",
     lit "4U1V,=OE3RSU") ].

Definition sample_entry (country cq itu continent : string) : Info.t :=
  {| Info.country := lit country; Info.cq := lit cq; Info.itu := lit itu;
     Info.continent := lit continent;
     Info.lat := 0%N; Info.lon := 0%N; Info.gmtoff := 0%N |}.

(** *** Lookup *)

(** The loop of [callsign_lookup]; [n] runs over
    [reversed(range(prf_max))], starting from [n = prf_max]. *)
Fixpoint scan_prefixes (self : t) (callsign : pystr) (n : nat)
  : option Info.t :=
  match n with
  | O => None
  | S n' =>
      let pfx := slice_to (n' + 1) callsign in
      match prefix self !! pfx with
      | Some e => Some e
      | None => scan_prefixes self callsign n'
      end
  end.

Definition callsign_lookup (self : t) (callsign : pystr)
  : option Info.t :=
  match exact_callsign self !! callsign with
  | Some e => Some e
  | None => scan_prefixes self callsign (prf_max self)
  end.

(** *** The classifier *)

(** The dict [pm] that [parse_wsjtx_decode_msg] returns. *)
Record parsed : Type :=
  { ERROR : option pystr;
    raw_message : option pystr;
    mtype : pystr;
    caller : option pystr;
    country : option pystr;
    zone_cq : option pystr;
    zone_itu : option pystr;
    continent : option pystr;
    lat : option pyfloat;
    lon : option pyfloat;
    gmtoff : option pyfloat;
    grid : option pystr;
    peer : option pystr }.

Definition set_ERROR (e : pystr) (pm : parsed) : parsed :=
  {| ERROR := Some e; raw_message := raw_message pm; mtype := mtype pm;
     caller := caller pm; country := country pm; zone_cq := zone_cq pm;
     zone_itu := zone_itu pm; continent := continent pm; lat := lat pm;
     lon := lon pm; gmtoff := gmtoff pm; grid := grid pm;
     peer := peer pm |}.

Definition set_mtype (m : pystr) (pm : parsed) : parsed :=
  {| ERROR := ERROR pm; raw_message := raw_message pm; mtype := m;
     caller := caller pm; country := country pm; zone_cq := zone_cq pm;
     zone_itu := zone_itu pm; continent := continent pm; lat := lat pm;
     lon := lon pm; gmtoff := gmtoff pm; grid := grid pm;
     peer := peer pm |}.

Definition set_caller (c : pystr) (pm : parsed) : parsed :=
  {| ERROR := ERROR pm; raw_message := raw_message pm; mtype := mtype pm;
     caller := Some c; country := country pm; zone_cq := zone_cq pm;
     zone_itu := zone_itu pm; continent := continent pm; lat := lat pm;
     lon := lon pm; gmtoff := gmtoff pm; grid := grid pm;
     peer := peer pm |}.

Definition set_grid (g : pystr) (pm : parsed) : parsed :=
  {| ERROR := ERROR pm; raw_message := raw_message pm; mtype := mtype pm;
     caller := caller pm; country := country pm; zone_cq := zone_cq pm;
     zone_itu := zone_itu pm; continent := continent pm; lat := lat pm;
     lon := lon pm; gmtoff := gmtoff pm; grid := Some g;
     peer := peer pm |}.

Definition set_peer (p : pystr) (pm : parsed) : parsed :=
  {| ERROR := ERROR pm; raw_message := raw_message pm; mtype := mtype pm;
     caller := caller pm; country := country pm; zone_cq := zone_cq pm;
     zone_itu := zone_itu pm; continent := continent pm; lat := lat pm;
     lon := lon pm; gmtoff := gmtoff pm; grid := grid pm;
     peer := Some p |}.

(** The block [if info_data is not None: pm['country'] = ...]. *)
Definition set_info (info_data : option Info.t) (pm : parsed) : parsed :=
  match info_data with
  | None => pm
  | Some i =>
      {| ERROR := ERROR pm; raw_message := raw_message pm;
         mtype := mtype pm; caller := caller pm;
         country := Some (Info.country i);
         zone_cq := Some (Info.cq i);
         zone_itu := Some (Info.itu i);
         continent := Some (Info.continent i);
         lat := Some (Info.lat i);
         lon := Some (Info.lon i);
         gmtoff := Some (Info.gmtoff i);
         grid := grid pm; peer := peer pm |}
  end.

(** [str.isspace] of a character. *)
Definition is_space (c : N) : bool :=
  ((9 <=? c) && (c <=? 13) || (28 <=? c) && (c <=? 32)
   || (c =? 0x85) || (c =? 0xA0) || (c =? 0x1680)
   || (0x2000 <=? c) && (c <=? 0x200A)
   || (c =? 0x2028) || (c =? 0x2029) || (c =? 0x202F)
   || (c =? 0x205F) || (c =? 0x3000))%N.

(** [msg.split()]; [tok] is the token being read, reversed. *)
Fixpoint split_go (tok : pystr) (s : pystr) : list pystr :=
  match s with
  | [] => match tok with [] => [] | _ => [rev tok] end
  | c :: s' =>
      if is_space c then
        match tok with
        | [] => split_go [] s'
        | _ => rev tok :: split_go [] s'
        end
      else split_go (c :: tok) s'
  end.

Definition split (s : pystr) : list pystr := split_go [] s.

(** [s.startswith('a')] *)
Definition startswith_a (s : pystr) : bool :=
  match s with c :: _ => (c =? 97)%N | [] => false end.

Definition str_eqb (a b : pystr) : bool := bool_decide (a = b).

(** [l[-1].startswith('a') or l[-1] == '?'], then [l = l[:-1]] *)
Definition strip_marginal (l : list pystr) : list pystr :=
  match last l with
  | Some t =>
      if startswith_a t || str_eqb t (lit "?") then removelast l else l
  | None => l
  end.

(** ["Unknown message: %s" % msg] *)
Definition unknown_message (msg : pystr) : pystr :=
  lit "Unknown message: " ++ msg.

(** The tail of both branches, once the caller [l[0]] is accepted:
    rows 262-283 with [reply = false], rows 292-312 with
    [reply = true]. *)
Definition after_caller (self : t) (reply : bool) (l : list pystr)
    (pm : parsed) : parsed :=
  match l with
  | [] => pm
  | l0 :: l =>
      let pm := set_caller l0 pm in
      let pm := set_info (callsign_lookup self l0) pm in
      match l with
      | [] => pm
      | l0 :: l' =>
          if match_anchored re_full_callsign l0 then
            let pm := set_peer l0 pm in
            let pm := if reply then set_mtype (lit "REPLAY") pm else pm in
            match l' with
            | l1 :: _ =>
                if match_anchored re_grid l1
                   && (negb reply || negb (str_eqb l1 (lit "RR73")))
                then set_grid l1 pm else pm
            | [] => pm
            end
          else if match_anchored re_grid l0 then set_grid l0 pm
          else pm
      end
  end.

Definition parse_wsjtx_decode_msg (self : t) (msg : option pystr)
  : parsed :=
  let pm :=
    {| ERROR := None; raw_message := msg; mtype := lit "UNKNOWN";
       caller := None; country := None; zone_cq := None;
       zone_itu := None; continent := None; lat := None; lon := None;
       gmtoff := None; grid := None; peer := None |} in
  match msg with
  | None => set_ERROR (lit "empty message") pm
  | Some [] => set_ERROR (lit "empty message") pm
  | Some msg =>
    if existsb (N.eqb 59) msg then set_ERROR (unknown_message msg) pm
    else
      let l := split msg in
      if (length l <? 1)%nat then set_ERROR (unknown_message msg) pm
      else
        let l := strip_marginal l in
        match l with
        | [] => set_ERROR (unknown_message msg) pm
        | l0 :: l1 =>
          if str_eqb l0 (lit "CQ") || str_eqb l0 (lit "QRZ")
             || str_eqb l0 (lit "DE")
          then
            let pm := set_mtype l0 pm in
            match l1 with
            | [] => set_ERROR (unknown_message msg) pm
            | i :: l2 =>
                let skip := match_anchored re_indicator i in
                match (if skip then l2 else l1) with
                | [] => set_ERROR (unknown_message msg) pm
                | (c :: _) as l =>
                    if match_anchored re_full_callsign c
                    then after_caller self false l pm
                    else set_ERROR (unknown_message msg) pm
                end
            end
          else
            if (2 <=? length l)%nat
               && match_anchored re_full_callsign l0
            then after_caller self true l pm
            else pm
        end
  end.


(** The table [__init__] builds from [sample_blocks]. *)
Definition sample_table : t :=
  match load empty sample_blocks with
  | Ok self => self
  | Raise _ => empty
  end.

(** *** Vocabulary for the properties of the resolver and classifier *)

(** Every key of the prefix table is non-empty and no longer than
    [prf_max]. *)
Definition keys_bounded (self : t) : Prop :=
  forall key e, prefix self !! key = Some e ->
    (1 <= length key <= prf_max self)%nat.

(** No identity data in a result. *)
Definition no_identity (pm : parsed) : Prop :=
  caller pm = None /\ country pm = None /\ zone_cq pm = None /\
  zone_itu pm = None /\ continent pm = None /\ lat pm = None /\
  lon pm = None /\ gmtoff pm = None /\ grid pm = None /\ peer pm = None.

(** The grid a reply carries: the third token, if it looks like a
    locator and is not [RR73]. *)
Definition reply_grid (l : list pystr) : option pystr :=
  match l with
  | _ :: _ :: g :: _ =>
      if match_anchored re_grid g && negb (str_eqb g (lit "RR73"))
      then Some g else None
  | _ => None
  end.

(** The table entry a result was filled from. *)
Definition info_of (pm : parsed) : option Info.t :=
  match country pm, zone_cq pm, zone_itu pm, continent pm,
        lat pm, lon pm, gmtoff pm with
  | Some a, Some b, Some c, Some d, Some e, Some f, Some g =>
      Some {| Info.country := a; Info.cq := b; Info.itu := c;
              Info.continent := d; Info.lat := e; Info.lon := f;
              Info.gmtoff := g |}
  | _, _, _, _, _, _, _ => None
  end.

(** The result as [parse_wsjtx_decode_msg] sets it up, before the
    message is looked at. *)
Definition blank (msg : option pystr) : parsed :=
  {| ERROR := None; raw_message := msg; mtype := lit "UNKNOWN";
     caller := None; country := None; zone_cq := None;
     zone_itu := None; continent := None; lat := None; lon := None;
     gmtoff := None; grid := None; peer := None |}.

(** The three words that open a call. *)
Definition keywords : list pystr := [lit "CQ"; lit "QRZ"; lit "DE"].

(** The five message types. *)
Definition labels : list pystr :=
  [lit "CQ"; lit "QRZ"; lit "DE"; lit "REPLAY"; lit "UNKNOWN"].

End WithUnicode.
End CTY.

(** ** The UDP server (class [UDP_Connector]) *)

Module UDP_Connector.
Import Codec Re CTY.

(** An address as [recvfrom] gives it: host and port. *)
Definition address : Type := (pystr * Z)%type.

(** The attributes of a [UDP_Connector] that its methods read or
    write; [peer] is a dict in insertion order, with [None] or a [str]
    as key. *)
Record t : Type :=
  { cty_parser : CTY.t;
    peer : list (option pystr * address);
    adr : option address;
    heartbeat_seen : bool }.

(** The connector as [__init__] leaves it. *)
Definition init (cty_parser : CTY.t) : t :=
  {| cty_parser := cty_parser; peer := []; adr := None;
     heartbeat_seen := false |}.

(** The dict that [handle_decode] puts on the queue: the result of the
    classifier with five more keys. *)
Record message : Type :=
  { msg_parsed : parsed;
    msg_time : Z;
    msg_snr : option value;
    msg_delta_t : option value;
    msg_delta_f : option value;
    msg_lf : option value }.

(** What the methods do to the outside, in order. *)
Inductive event : Type :=
| Sendto (b : bytes) (a : address)   (* [self.socket.sendto(b, a)] *)
| Put (m : message)                  (* [self.msg_pipe.put(m)] *)
| Log (s : pystr).                   (* [log(s)] *)

(** How a method ends, apart from returning: an exception, or
    [sys.exit(code)]. *)
Inductive stop : Type :=
| Raised (e : exn)
| SystemExit (code : Z).

(** A method's effects and its end. *)
Definition H (A : Type) : Type := (list event * (stop + A))%type.

#[global] Instance H_ret : MRet H := fun _ a => ([], inr a).
#[global] Instance H_bind : MBind H :=
  fun _ _ f m =>
    match m with
    | (es, inl s) => (es, inl s)
    | (es, inr a) => let '(es', r) := f a in (es ++ es', r)
    end.

Definition lift {A} (r : result A) : H A :=
  match r with Ok a => ([], inr a) | Raise e => ([], inl (Raised e)) end.
Definition emit (e : event) : H unit := ([e], inr tt).
Definition exit {A} (code : Z) : H A := ([], inl (SystemExit code)).

(** [tel.name] *)
Definition getattr (tel : telegram) (name : string) : result (option value) :=
  match dict_get (tel_attrs tel) name with
  | Some v => Ok v
  | None => Raise AttributeError
  end.

(** The truth value of an attribute: [None], [0], [0.0], [-0.0] and
    [''] are false; a [QDateTime] or [QColor] object is true. *)
Definition truthy (v : option value) : bool :=
  match v with
  | None => false
  | Some (VInt z) => negb (z =? 0)
  | Some (VFloat x) => negb ((x =? 0)%N || (x =? 2 ^ 63)%N)
  | Some (VStr s) => negb (bool_decide (s = []))
  | Some (VDateTime _) => true
  | Some (VColor _) => true
  end.

(** [tel.id] as a key of [self.peer].  What [from_bytes] returns has
    [None] or a [str] there; other keys are left outside the
    embedding. *)
Definition key_of (v : option value) : result (option pystr) :=
  match v with
  | None => Ok None
  | Some (VStr s) => Ok (Some s)
  | Some _ => Raise Unmodelled
  end.

Fixpoint peer_get (d : list (option pystr * address)) (k : option pystr)
  : option address :=
  match d with
  | [] => None
  | (k', a) :: d' => if bool_decide (k' = k) then Some a else peer_get d' k
  end.

(** [WSJTX_Heartbeat(version = '4711')] *)
Definition heartbeat_kw : list (string * option value) :=
  [("version"%string, Some (VStr (lit "4711")))].

(** The telegram [heartbeat] builds, and its bytes. *)
Definition heartbeat_telegram : telegram :=
  {| tel_class := WSJTX_Heartbeat;
     tel_attrs :=
       header (Some (VInt magic)) (Some (VInt 3)) (Some (VInt 0))
         (Some (VStr (lit "wsjt-server")))
         [ ("max_schema"%string, Some (VInt 3))
         ; ("version"%string, Some (VStr (lit "4711")))
         ; ("revision"%string, Some (VStr [])) ] |}.

Definition heartbeat_bytes : bytes :=
  bytes_of_N_list
    [0xad; 0xbc; 0xcb; 0xda; 0; 0; 0; 3; 0; 0; 0; 0; 0; 0; 0; 11]%N
  ++ list_byte_of_string "wsjt-server"
  ++ bytes_of_N_list [0; 0; 0; 3; 0; 0; 0; 4]%N
  ++ list_byte_of_string "4711"
  ++ bytes_of_N_list [0; 0; 0; 0]%N.

(** [heartbeat]; [sendto] wants an address. *)
Definition heartbeat (self : t) : H unit :=
  tel ← lift (Codec.init WSJTX_Heartbeat heartbeat_kw);
  b ← lift (as_bytes tel);
  match adr self with
  | Some a => emit (Sendto b a)
  | None => lift (Raise TypeError)
  end.

(** [handle_close] *)
Definition handle_close (self : t) (tel : telegram) : H unit :=
  id ← lift (getattr tel "id");
  k ← lift (key_of id);
  a ← lift (match peer_get (peer self) k with
            | Some a => Ok a
            | None => Raise KeyError
            end);
  _ ← lift (assert (bool_decide (Some a = adr self)));
  _ ← emit (Log (lit "wsjt_srv udp server exit."));
  exit 0.

Section WithUnicode.
Context `{UnicodeDB}.

(** [handle_decode]; [now] is [int(time.time())]. *)
Definition handle_decode (self : t) (now : Z) (tel : telegram) : H unit :=
  off_air ← lift (getattr tel "off_air");
  skip ← (if truthy off_air then mret true
          else is_new ← lift (getattr tel "is_new");
               mret (negb (truthy is_new)));
  if skip : bool then mret tt
  else
    message ← lift (getattr tel "message");
    text ← lift (match (if truthy message then message
                        else Some (VStr [])) with
                 | Some (VStr s) => Ok s
                 | _ => Raise TypeError
                 end);
    let msg := parse_wsjtx_decode_msg (cty_parser self) (Some text) in
    match ERROR msg with
    | Some e =>
        emit (Log (lit "wsjt_srv error when decode message: " ++ e))
    | None =>
        snr ← lift (getattr tel "snr");
        delta_t ← lift (getattr tel "delta_t");
        delta_f ← lift (getattr tel "delta_f");
        lf ← lift (getattr tel "low_confidence");
        emit (Put {| msg_parsed := msg; msg_time := now; msg_snr := snr;
                     msg_delta_t := delta_t; msg_delta_f := delta_f;
                     msg_lf := lf |})
    end.

(** [handle] *)
Definition handle (self : t) (now : Z) (tel : telegram) : H unit :=
  _ ← (if negb (heartbeat_seen self)
          || bool_decide (tel_class tel = WSJTX_Heartbeat)
       then heartbeat self else mret tt);
  _ ← (if bool_decide (tel_class tel = WSJTX_Decode)
       then handle_decode self now tel else mret tt);
  if bool_decide (tel_class tel = WSJTX_Close)
  then handle_close self tel else mret tt.

(** [receive], for the datagram [dbytes] that [recvfrom] gives from
    [address]: the connector afterwards, and what the call did. *)
Definition receive (self : t) (now : Z) (dbytes : bytes)
    (address : address) : t * H telegram :=
  match (tel ← from_bytes dbytes;
         id ← getattr tel "id";
         k ← key_of id;
         Ok (tel, k)) with
  | Raise e => (self, ([], inl (Raised e)))
  | Ok (tel, k) =>
      let self :=
        {| cty_parser := cty_parser self;
           peer := match peer_get (peer self) k with
                   | None => peer self ++ [(k, address)]
                   | Some _ => peer self
                   end;
           adr := match adr self with
                  | None => Some address
                  | Some a => Some a
                  end;
           heartbeat_seen := heartbeat_seen self |} in
      (self,
       _ ← (if bool_decide (adr self = Some address)
            then handle self now tel else mret tt);
       mret tel)
  end.

(** The loop [while True: udp_srv.receive()] of [main] over the
    datagrams that arrive, until one call does not return. *)
Fixpoint serve (self : t) (datagrams : list (Z * bytes * address))
  : t * list event * option stop :=
  match datagrams with
  | [] => (self, [], None)
  | (now, dbytes, address) :: datagrams' =>
      match receive self now dbytes address with
      | (self', (es, inl s)) => (self', es, Some s)
      | (self', (es, inr _)) =>
          let '(self'', es', s) := serve self' datagrams' in
          (self'', es ++ es', s)
      end
  end.

(** [re_report], [re_loc], [re_call] *)
Definition re_report : re :=
  Seq (opt (Chr (Range 82 82)))
    (Seq (Chr (Union (Range 45 45) (Range 43 43)))
       (rep 2 (Chr (Range 48 57)))).

Definition re_loc : re :=
  Seq (rep 2 (Chr (Range 65 90))) (rep 2 (Chr (Range 48 57))).

Definition re_call : re :=
  Seq (Alt (Chr (Range 65 90))
         (Alt (Seq (Chr (Range 65 90))
                 (Chr (Union (Range 65 90) (Range 48 57))))
            (Seq (Chr (Range 48 57)) (Chr (Range 65 90)))))
    (Seq (Chr (Range 48 57)) (rep_range 1 2 (Chr (Range 65 90)))).

(** [is_locator], [is_report], [is_stdcall] *)
Definition is_locator (s : pystr) : bool := match_prefix re_loc s.
Definition is_report (s : pystr) : bool := match_prefix re_report s.
Definition is_stdcall (s : pystr) : bool := match_prefix re_call s.

End WithUnicode.

(** [set_peer] *)
Definition set_peer (self : t) (peername : option pystr) : t :=
  match peer_get (peer self) peername with
  | Some a =>
      {| cty_parser := cty_parser self; peer := peer self;
         adr := Some a; heartbeat_seen := heartbeat_seen self |}
  | None => self
  end.

End UDP_Connector.

(** ** The aggregation engine ([data_server.py]) *)

Module Data_Server.

Module Monitor_Message.
Record t : Type :=
  { gtime : Z; raw : pystr; snr : Z; dt : pyfloat; df : Z; lf : bool;
    mtype : pystr; caller : option pystr; country : option pystr;
    cq : option pystr; itu : option pystr; continent : option pystr;
    lat : option pyfloat; lon : option pyfloat; gmtoff : option pyfloat;
    grid : option pystr; peer : option pystr }.
End Monitor_Message.

Module Minutes_Record.
(** [messages] is the JSON text of a list of messages in the source;
    it is kept as the list that [json.loads] gives back. *)
Record t : Type :=
  { ctime : Z; monitor : pystr; band : pystr;
    messages : list Monitor_Message.t; total : Z; snr : Z;
    countries : gmap pystr Z; cqs : gmap pystr Z;
    callers : gmap pystr Z }.
End Minutes_Record.

Module Hours_Record.
Record t : Type :=
  { ctime : Z; monitor : pystr; band : pystr; total : Z; snr : Z;
    countries : gmap pystr Z; cqs : gmap pystr Z }.
End Hours_Record.

(** *** The persistence port

    [db_upsert_minute], [db_read_minutes], [db_upsert_hour] and
    [db_read_hours] are abstract in [Data_Server]; they are modelled by
    their contract ("write a record to db, if already exist, update
    it", "fetch records in db between [begin, end]") over two tables,
    with a log of the writes. *)

Inductive write : Type :=
| Upsert_minute (r : Minutes_Record.t)
| Upsert_hour (r : Hours_Record.t).

Record db : Type :=
  { tb_minutes : list Minutes_Record.t;
    tb_hours : list Hours_Record.t;
    writes : list write }.

Definition empty_db : db :=
  {| tb_minutes := []; tb_hours := []; writes := [] |}.

Definition same_minute (a b : Minutes_Record.t) : bool :=
  (Minutes_Record.ctime a =? Minutes_Record.ctime b)
  && bool_decide (Minutes_Record.monitor a = Minutes_Record.monitor b)
  && bool_decide (Minutes_Record.band a = Minutes_Record.band b).

Definition same_hour (a b : Hours_Record.t) : bool :=
  (Hours_Record.ctime a =? Hours_Record.ctime b)
  && bool_decide (Hours_Record.monitor a = Hours_Record.monitor b)
  && bool_decide (Hours_Record.band a = Hours_Record.band b).

(** Update the rows with the key of [data], or insert [data]. *)
Definition upsert {A} (same : A -> A -> bool) (data : A) (tb : list A)
  : list A :=
  if existsb (same data) tb
  then map (fun r => if same data r then data else r) tb
  else tb ++ [data].

Definition db_upsert_minute (data : Minutes_Record.t) (d : db) : db :=
  {| tb_minutes := upsert same_minute data (tb_minutes d);
     tb_hours := tb_hours d;
     writes := writes d ++ [Upsert_minute data] |}.

Definition db_upsert_hour (data : Hours_Record.t) (d : db) : db :=
  {| tb_minutes := tb_minutes d;
     tb_hours := upsert same_hour data (tb_hours d);
     writes := writes d ++ [Upsert_hour data] |}.

Definition db_read_minutes (d : db) (monitor band : pystr) (begin end_ : Z)
  : list Minutes_Record.t :=
  filter (fun r => (begin <= Minutes_Record.ctime r <= end_)
                   /\ Minutes_Record.monitor r = monitor
                   /\ Minutes_Record.band r = band)
         (tb_minutes d).

Definition db_read_hours (d : db) (monitor band : pystr) (begin end_ : Z)
  : list Hours_Record.t :=
  filter (fun r => (begin <= Hours_Record.ctime r <= end_)
                   /\ Hours_Record.monitor r = monitor
                   /\ Hours_Record.band r = band)
         (tb_hours d).

(** [fetch_in_minutes], [fetch_in_hours] *)
Definition fetch_in_minutes (d : db) (monitor band : pystr) (begin end_ : Z)
  : list Minutes_Record.t :=
  let begin := if begin mod 60 =? 0 then begin else begin - begin mod 60 in
  let end_ := if end_ mod 60 =? 0 then end_ else end_ - end_ mod 60 in
  db_read_minutes d monitor band begin end_.

Definition fetch_in_hours (d : db) (monitor band : pystr) (begin end_ : Z)
  : list Hours_Record.t :=
  let begin :=
    if begin mod 3600 =? 0 then begin else begin - begin mod 3600 in
  let end_ :=
    if end_ mod 3600 =? 0 then end_ else end_ - end_ mod 3600 in
  db_read_hours d monitor band begin end_.

(** *** Arithmetic *)

(** [round(a / b)]: the quotient rounded to the nearest integer, a tie
    going to the even one.  Python divides in floating point; the two
    agree as long as [|a| < 2^52], far above what signal reports and
    message counts reach. *)
Definition round_div (a b : Z) : result Z :=
  if b =? 0 then Raise ZeroDivisionError
  else
    let '(a, b) := if b <? 0 then (- a, - b) else (a, b) in
    let q := a / b in
    let r := a mod b in
    Ok (if 2 * r <? b then q
        else if b <? 2 * r then q + 1
        else if Z.even q then q else q + 1).

(** [d[k] = 1 if d.get(k) is None else d[k] + 1] *)
Definition count_one (k : pystr) (d : gmap pystr Z) : gmap pystr Z :=
  <[k := match d !! k with None => 1 | Some n => n + 1 end]> d.

(** [for k, n in src.items():
       dst[k] = n if dst.get(k) is None else dst[k] + n] *)
Definition add_counts (src dst : gmap pystr Z) : gmap pystr Z :=
  map_fold
    (fun k n acc =>
       <[k := match acc !! k with None => n | Some x => x + n end]> acc)
    dst src.

(** *** [save_monitor_data] *)

Module Group.
(** The dict kept in [minutes[mt]]; [snr] is the sum of the reports
    until the minute loop replaces it by their mean. *)
Record t : Type :=
  { messages : list Monitor_Message.t; total : Z; snr : Z;
    countries : gmap pystr Z; cqs : gmap pystr Z;
    callers : gmap pystr Z }.
End Group.

(** A dict with [int] keys, in insertion order: [d.get(k)] and
    [d[k] = v]. *)
Fixpoint dict_get {V} (d : list (Z * V)) (k : Z) : option V :=
  match d with
  | [] => None
  | (k', v) :: d' => if k' =? k then Some v else dict_get d' k
  end.

Fixpoint dict_set {V} (d : list (Z * V)) (k : Z) (v : V) : list (Z * V) :=
  match d with
  | [] => [(k, v)]
  | (k', v') :: d' =>
      if k' =? k then (k, v) :: d' else (k', v') :: dict_set d' k v
  end.

Definition count_opt (k : option pystr) (d : gmap pystr Z) : gmap pystr Z :=
  match k with Some k => count_one k d | None => d end.

(** The body of the first loop: [minutes], [m_begin], [m_end]. *)
Definition add_message (st : list (Z * Group.t) * Z * Z)
    (msg : Monitor_Message.t) : list (Z * Group.t) * Z * Z :=
  let '(minutes, m_begin, m_end) := st in
  match Monitor_Message.caller msg with
  | None => st
  | Some caller =>
      let mt := Monitor_Message.gtime msg - Monitor_Message.gtime msg mod 60 in
      let m_begin := if m_begin =? 0 then mt else Z.min m_begin mt in
      let m_end := if m_end =? 0 then mt else Z.max m_end mt in
      let d :=
        match dict_get minutes mt with
        | None =>
            {| Group.messages := [msg]; Group.total := 1;
               Group.snr := Monitor_Message.snr msg;
               Group.countries :=
                 count_opt (Monitor_Message.country msg) ∅;
               Group.cqs := count_opt (Monitor_Message.cq msg) ∅;
               Group.callers := count_one caller ∅ |}
        | Some d =>
            {| Group.messages := Group.messages d ++ [msg];
               Group.total := Group.total d + 1;
               Group.snr := Group.snr d + Monitor_Message.snr msg;
               Group.countries :=
                 count_opt (Monitor_Message.country msg) (Group.countries d);
               Group.cqs := count_opt (Monitor_Message.cq msg) (Group.cqs d);
               Group.callers := count_one caller (Group.callers d) |}
        end in
      (dict_set minutes mt d, m_begin, m_end)
  end.

Definition group_messages (data : list Monitor_Message.t)
  : list (Z * Group.t) * Z * Z :=
  fold_left add_message data ([], 0, 0).

(** Computations that use the port and may raise: a raised exception
    leaves the writes already made in place. *)
Definition M (A : Type) : Type := db -> db * result A.

#[global] Instance M_ret : MRet M := fun _ a d => (d, Ok a).
#[global] Instance M_bind : MBind M :=
  fun _ _ f m d =>
    match m d with
    | (d', Ok a) => f a d'
    | (d', Raise e) => (d', Raise e)
    end.

Definition lift {A} (r : result A) : M A := fun d => (d, r).
Definition upsert_minute (r : Minutes_Record.t) : M unit :=
  fun d => (db_upsert_minute r d, Ok tt).
Definition upsert_hour (r : Hours_Record.t) : M unit :=
  fun d => (db_upsert_hour r d, Ok tt).
Definition read_minutes (monitor band : pystr) (b e : Z)
  : M (list Minutes_Record.t) :=
  fun d => (d, Ok (fetch_in_minutes d monitor band b e)).
Definition read_hours (monitor band : pystr) (b e : Z)
  : M (list Hours_Record.t) :=
  fun d => (d, Ok (fetch_in_hours d monitor band b e)).

Definition idle_minute (monitor band : pystr) (ctime : Z)
  : Minutes_Record.t :=
  {| Minutes_Record.ctime := ctime; Minutes_Record.monitor := monitor;
     Minutes_Record.band := band; Minutes_Record.messages := [];
     Minutes_Record.total := 0; Minutes_Record.snr := 0;
     Minutes_Record.countries := ∅; Minutes_Record.cqs := ∅;
     Minutes_Record.callers := ∅ |}.

Definition idle_hour (monitor band : pystr) (ctime : Z) : Hours_Record.t :=
  {| Hours_Record.ctime := ctime; Hours_Record.monitor := monitor;
     Hours_Record.band := band; Hours_Record.total := 0;
     Hours_Record.snr := 0; Hours_Record.countries := ∅;
     Hours_Record.cqs := ∅ |}.

(** [Minutes_Record(ctime=mt, ..., total=r['total'], ...)] *)
Definition new_minute (monitor band : pystr) (mt : Z) (r : Group.t)
  : Minutes_Record.t :=
  {| Minutes_Record.ctime := mt; Minutes_Record.monitor := monitor;
     Minutes_Record.band := band;
     Minutes_Record.messages := Group.messages r;
     Minutes_Record.total := Group.total r;
     Minutes_Record.snr := Group.snr r;
     Minutes_Record.countries := Group.countries r;
     Minutes_Record.cqs := Group.cqs r;
     Minutes_Record.callers := Group.callers r |}.

(** The update of [dbrec] from the group [r] of the same minute. *)
Definition merge_minute (dbrec : Minutes_Record.t) (r : Group.t)
  : result Minutes_Record.t :=
  snr ← round_div
          (Minutes_Record.snr dbrec * Minutes_Record.total dbrec
           + Group.snr r * Group.total r)
          (Minutes_Record.total dbrec + Group.total r);
  Ok {| Minutes_Record.ctime := Minutes_Record.ctime dbrec;
        Minutes_Record.monitor := Minutes_Record.monitor dbrec;
        Minutes_Record.band := Minutes_Record.band dbrec;
        Minutes_Record.messages :=
          Minutes_Record.messages dbrec ++ Group.messages r;
        Minutes_Record.total := Minutes_Record.total dbrec + Group.total r;
        Minutes_Record.snr := snr;
        Minutes_Record.countries :=
          add_counts (Group.countries r) (Minutes_Record.countries dbrec);
        Minutes_Record.cqs :=
          add_counts (Group.cqs r) (Minutes_Record.cqs dbrec);
        Minutes_Record.callers :=
          add_counts (Group.callers r) (Minutes_Record.callers dbrec) |}.

(** [r['snr'] = round(r['snr'] / r['total'])] *)
Definition set_mean (r : Group.t) : result Group.t :=
  snr ← round_div (Group.snr r) (Group.total r);
  Ok {| Group.messages := Group.messages r; Group.total := Group.total r;
        Group.snr := snr; Group.countries := Group.countries r;
        Group.cqs := Group.cqs r; Group.callers := Group.callers r |}.

(** [for mt, r in minutes.items(): ...] of the minutes part; gives
    [minutes] back with the means in place. *)
Fixpoint minutes_loop (monitor band : pystr) (items : list (Z * Group.t))
  : M (list (Z * Group.t)) :=
  match items with
  | [] => mret []
  | (mt, r) :: items' =>
      r ← lift (set_mean r);
      recs ← read_minutes monitor band mt mt;
      _ ← match recs with
          | [] => upsert_minute (new_minute monitor band mt r)
          | dbrec :: _ =>
              dbrec ← lift (merge_minute dbrec r);
              upsert_minute dbrec
          end;
      rest ← minutes_loop monitor band items';
      mret ((mt, r) :: rest)
  end.

(** The minutes part: the new [minutes] and [m_begin]. *)
Definition save_minutes (now : Z) (monitor band : pystr)
    (data : list Monitor_Message.t) : M (list (Z * Group.t) * Z) :=
  let '(minutes, m_begin, m_end) := group_messages data in
  if len minutes =? 0 then
    let current_time := now in
    let m_begin := current_time - current_time mod 60 in
    let m_end := m_begin in
    recs ← read_minutes monitor band m_begin m_end;
    _ ← (if len recs =? 0
         then upsert_minute (idle_minute monitor band m_begin)
         else mret tt);
    mret (minutes, m_begin)
  else
    minutes ← minutes_loop monitor band minutes;
    mret (minutes, m_begin).

(** The body of the loop that fills [hr_nm]. *)
Definition add_to_hour (monitor band : pystr)
    (hr_nm : list (Z * Hours_Record.t)) (item : Z * Group.t)
  : result (list (Z * Hours_Record.t)) :=
  let '(mt, r) := item in
  let r_hour := mt - mt mod 3600 in
  let h :=
    match dict_get hr_nm r_hour with
    | None => idle_hour monitor band r_hour
    | Some h => h
    end in
  let total := Hours_Record.total h + Group.total r in
  snr ← round_div (Hours_Record.snr h * total + Group.snr r * Group.total r)
                  (total + Group.total r);
  Ok (dict_set hr_nm r_hour
        {| Hours_Record.ctime := Hours_Record.ctime h;
           Hours_Record.monitor := Hours_Record.monitor h;
           Hours_Record.band := Hours_Record.band h;
           Hours_Record.total := total;
           Hours_Record.snr := snr;
           Hours_Record.countries :=
             add_counts (Group.countries r) (Hours_Record.countries h);
           Hours_Record.cqs :=
             add_counts (Group.cqs r) (Hours_Record.cqs h) |}).

Fixpoint fill_hours (monitor band : pystr)
    (hr_nm : list (Z * Hours_Record.t)) (items : list (Z * Group.t))
  : result (list (Z * Hours_Record.t)) :=
  match items with
  | [] => Ok hr_nm
  | item :: items' =>
      hr_nm ← add_to_hour monitor band hr_nm item;
      fill_hours monitor band hr_nm items'
  end.

(** The update of the stored hour [rec] from the new one [c]. *)
Definition merge_hour (rec c : Hours_Record.t) : result Hours_Record.t :=
  snr ← round_div
          (Hours_Record.snr rec * Hours_Record.total rec
           + Hours_Record.snr c * Hours_Record.total c)
          (Hours_Record.total rec + Hours_Record.total c);
  Ok {| Hours_Record.ctime := Hours_Record.ctime rec;
        Hours_Record.monitor := Hours_Record.monitor rec;
        Hours_Record.band := Hours_Record.band rec;
        Hours_Record.total := Hours_Record.total rec + Hours_Record.total c;
        Hours_Record.snr := snr;
        Hours_Record.countries :=
          add_counts (Hours_Record.countries c) (Hours_Record.countries rec);
        Hours_Record.cqs :=
          add_counts (Hours_Record.cqs c) (Hours_Record.cqs rec) |}.

(** [for r_hour, c in hr_nm.items(): ...] *)
Fixpoint hours_loop (hr_db : list (Z * Hours_Record.t))
    (items : list (Z * Hours_Record.t)) : M unit :=
  match items with
  | [] => mret tt
  | (r_hour, c) :: items' =>
      _ ← match dict_get hr_db r_hour with
          | None => upsert_hour c
          | Some rec => rec ← lift (merge_hour rec c); upsert_hour rec
          end;
      hours_loop hr_db items'
  end.

(** The hours part, from the [minutes] and [m_begin] the minutes part
    leaves. *)
Definition save_hours (monitor band : pystr)
    (minutes : list (Z * Group.t)) (m_begin : Z) : M unit :=
  let m_begin := m_begin - m_begin mod 3600 in
  let m_end := m_begin in
  recs ← read_hours monitor band m_begin m_end;
  let hr_db :=
    fold_left (fun hr_db r => dict_set hr_db (Hours_Record.ctime r) r)
              recs [] in
  hr_nm ← lift (fill_hours monitor band [] minutes);
  if len hr_nm =? 0 then
    if len hr_db =? 0
    then upsert_hour (idle_hour monitor band m_begin)
    else mret tt
  else hours_loop hr_db hr_nm.

(** [save_monitor_data]; [now] is [int(time.time())].  The result is
    the store afterwards and the exception whose text is returned, if
    one was caught. *)
Definition save_monitor_data (now : Z) (monitor band : pystr)
    (data : list Monitor_Message.t) (d : db) : db * option exn :=
  match (p ← save_minutes now monitor band data;
         save_hours monitor band p.1 p.2) d with
  | (d', Ok _) => (d', None)
  | (d', Raise e) => (d', Some e)
  end.


(** *** Vocabulary for the properties of the engine *)

(** [m] is [a / b] rounded to the nearest integer, a tie going to the
    even neighbour. *)
Definition nearest (m a b : Z) : Prop :=
  2 * Z.abs (m * b - a) <= Z.abs b /\
  (2 * Z.abs (m * b - a) = Z.abs b -> Z.even m = true).

(** Key-wise sum of two counters at one key. *)
Definition counts_sum (x y : option Z) : option Z :=
  match x, y with
  | Some a, Some b => Some (a + b)
  | Some a, None => Some a
  | None, y => y
  end.

(** The minute buckets among a sequence of writes. *)
Definition minute_writes (ws : list write) : list Minutes_Record.t :=
  omap (fun w => match w with Upsert_minute r => Some r | _ => None end) ws.

(** Sum of the totals of the stored minute buckets of one hour, and
    the total of the stored hour bucket. *)
Definition minutes_total_in_hour (d : db) (monitor band : pystr) (hour : Z)
  : Z :=
  foldr Z.add 0
    (Minutes_Record.total
       <$> db_read_minutes d monitor band hour (hour + 3599)).

Definition hour_total (d : db) (monitor band : pystr) (hour : Z)
  : option Z :=
  Hours_Record.total <$> head (db_read_hours d monitor band hour hour).

Definition minute_of (d : db) (monitor band : pystr) (minute : Z)
  : option (Z * Z) :=
  (fun r => (Minutes_Record.total r, Minutes_Record.snr r))
    <$> head (db_read_minutes d monitor band minute minute).

(** A message heard from [caller] at [gtime] with report [snr]. *)
Definition heard (gtime snr : Z) (caller : string) : Monitor_Message.t :=
  {| Monitor_Message.gtime := gtime; Monitor_Message.raw := [];
     Monitor_Message.snr := snr; Monitor_Message.dt := 0%N;
     Monitor_Message.df := 0; Monitor_Message.lf := false;
     Monitor_Message.mtype := lit "CQ";
     Monitor_Message.caller := Some (lit caller);
     Monitor_Message.country := None; Monitor_Message.cq := None;
     Monitor_Message.itu := None; Monitor_Message.continent := None;
     Monitor_Message.lat := None; Monitor_Message.lon := None;
     Monitor_Message.gmtoff := None; Monitor_Message.grid := None;
     Monitor_Message.peer := None |}.

(** One call of [save_monitor_data] for the default monitor and band. *)
Definition ingest (now : Z) (data : list Monitor_Message.t) (d : db) : db :=
  (save_monitor_data now (lit "ft8mon") (lit "50.313") data d).1.

Definition stored_minute (total snr : Z) : Minutes_Record.t :=
  {| Minutes_Record.ctime := 7200; Minutes_Record.monitor := lit "ft8mon";
     Minutes_Record.band := lit "50.313"; Minutes_Record.messages := [];
     Minutes_Record.total := total; Minutes_Record.snr := snr;
     Minutes_Record.countries := ∅; Minutes_Record.cqs := ∅;
     Minutes_Record.callers := ∅ |}.

Definition new_group (total snr : Z) : Group.t :=
  {| Group.messages := []; Group.total := total; Group.snr := snr;
     Group.countries := ∅; Group.cqs := ∅; Group.callers := ∅ |}.

(** The hour buckets among a sequence of writes. *)
Definition hour_writes (ws : list write) : list Hours_Record.t :=
  omap (fun w => match w with Upsert_hour r => Some r | _ => None end) ws.

(** The messages that the first loop does not skip. *)
Definition has_caller (msg : Monitor_Message.t) : bool :=
  match Monitor_Message.caller msg with Some _ => true | None => false end.

(** No stored bucket has a negative total. *)
Definition totals_nonneg (d : db) : Prop :=
  Forall (fun r => 0 <= Minutes_Record.total r) (tb_minutes d) /\
  Forall (fun r => 0 <= Hours_Record.total r) (tb_hours d).

(** The start of the minute, and of the hour, of an epoch time. *)
Definition minute_start (t : Z) : Z := t - t mod 60.
Definition hour_start (t : Z) : Z := t - t mod 3600.

End Data_Server.

(** * Properties *)

Module Utf8Facts.
Import Struct Utf8.
Local Open Scope N_scope.

Lemma byte_of_to_N b : byte_of_N (Byte.to_N b) = b.
Proof.
  unfold byte_of_N. pose proof (Byte.to_N_bounded b).
  rewrite N.mod_small by lia. now rewrite Byte.of_to_N.
Qed.

Ltac arith := zify; Z.to_euclidean_division_equations; lia.

Lemma push_ok c r s : push c r = Ok s -> exists s', r = Ok s' /\ s = c :: s'.
Proof. destruct r; simpl; intros; simplify_eq; eauto. Qed.

Lemma encode_cons c s b bs :
  encode_cp c = Ok b -> encode s = Ok bs -> encode (c :: s) = Ok (b ++ bs).
Proof. simpl. now intros -> ->. Qed.

(** Name the value of a byte, keeping its bound and the way back. *)
Ltac name_byte b n :=
  let B := fresh "Hbound" in let E := fresh "Hback" in
  pose proof (Byte.to_N_bounded b) as B;
  pose proof (byte_of_to_N b) as E;
  generalize dependent (Byte.to_N b); intros n B E.

Ltac ltb_true := symmetry; apply N.ltb_lt; arith.
Ltac ltb_false := symmetry; apply N.ltb_ge; arith.

Lemma decode_encode_aux n : forall bs s,
  (length bs <= n)%nat -> decode bs = Ok s -> encode s = Ok bs.
Proof.
  induction n as [|n IH]; intros bs s Hn.
  { destruct bs; simpl in *; [|lia]. intros; simplify_eq. reflexivity. }
  destruct bs as [|b0 r0]; [simpl; intros; simplify_eq; reflexivity|].
  cbn [decode]. cbv zeta.
  name_byte b0 n0.
  destruct (n0 <? 128) eqn:E1.
  { intros (s' & Hd & ->)%push_ok.
    apply (encode_cons _ _ [_]).
    - unfold encode_cp. rewrite E1. now subst.
    - apply IH; [simpl in Hn; lia|done]. }
  unfold second_ok, cont, between.
  destruct ((194 <=? n0) && (n0 <=? 223)) eqn:E2.
  { destruct r0 as [|b1 r1]; [done|].
    name_byte b1 n1.
    destruct ((128 <=? n1) && (n1 <=? 191)) eqn:E3; [|done].
    intros (s' & Hd & ->)%push_ok.
    apply (encode_cons _ _ [_;_]).
    - unfold encode_cp.
      replace (_ <? 128) with false by ltb_false.
      replace (_ <? 2048) with true by ltb_true.
      subst b0 b1. repeat f_equal; arith.
    - apply IH; [simpl in Hn; lia|done]. }
  destruct ((224 <=? n0) && (n0 <=? 239)) eqn:E3.
  { destruct r0 as [|b1 [|b2 r2]]; [done..|].
    name_byte b1 n1. name_byte b2 n2.
    destruct (_ && ((128 <=? n2) && (n2 <=? 191))) eqn:E4; [|done].
    intros (s' & Hd & ->)%push_ok.
    apply (encode_cons _ _ [_;_;_]).
    - unfold encode_cp, is_surrogate.
      repeat match type of E4 with context [ if ?c then _ else _ ] =>
        destruct c eqn:? end;
      (replace (_ <? 128) with false by ltb_false);
      (replace (_ <? 2048) with false by ltb_false);
      (replace (_ <? 65536) with true by ltb_true);
      (replace ((55296 <=? _) && _) with false
         by (symmetry; apply andb_false_iff; rewrite N.leb_gt, N.leb_gt; arith));
      subst b0 b1 b2; repeat f_equal; arith.
    - apply IH; [simpl in Hn; lia|done]. }
  destruct ((240 <=? n0) && (n0 <=? 244)) eqn:E4; [|done].
  destruct r0 as [|b1 [|b2 [|b3 r3]]]; [done..|].
  name_byte b1 n1. name_byte b2 n2. name_byte b3 n3.
  destruct (_ && ((128 <=? n3) && (n3 <=? 191))) eqn:E5; [|done].
  intros (s' & Hd & ->)%push_ok.
  apply (encode_cons _ _ [_;_;_;_]).
  - unfold encode_cp.
    repeat match type of E5 with context [ if ?c then _ else _ ] =>
      destruct c eqn:? end;
    (replace (_ <? 128) with false by ltb_false);
    (replace (_ <? 2048) with false by ltb_false);
    (replace (_ <? 65536) with false by ltb_false);
    (replace (_ <? 1114112) with true by ltb_true);
    subst b0 b1 b2 b3; repeat f_equal; arith.
  - apply IH; [simpl in Hn; lia|done].
Qed.

(** Strict decoding accepts only what the encoder produces: encoding
    the decoded string gives the bytes back. *)
Lemma decode_encode bs s : decode bs = Ok s -> encode s = Ok bs.
Proof. apply (decode_encode_aux (length bs)). lia. Qed.
End Utf8Facts.

Module CodecFacts.
Import Struct Codec.

Lemma bind_ok {A B} (m : result A) (f : A -> result B) b :
  m ≫= f = Ok b -> exists a, m = Ok a /\ f a = Ok b.
Proof. destruct m; simpl; [eauto|done]. Qed.

Lemma unpack_int_length f b z :
  unpack_int f b = Ok z -> length b = calcsize f.
Proof.
  unfold unpack_int. destruct (Nat.eqb_spec (length b) (calcsize f)); [done|done].
Qed.

Lemma unpack_int_ok f b z :
  unpack_int f b = Ok z -> length b = calcsize f /\ z = int_of_bytes f b.
Proof.
  unfold unpack_int. destruct (Nat.eqb_spec (length b) (calcsize f)); [|done].
  intros; simplify_eq; done.
Qed.

Lemma unpack_s_ok n b v : unpack_s n b = Ok v -> length b = n /\ v = b.
Proof.
  unfold unpack_s. destruct (Nat.eqb_spec (length b) n); [|done].
  intros; simplify_eq; done.
Qed.

Lemma unpack_length f b v : unpack f b = Ok v -> length b = calcsize f.
Proof.
  destruct f; unfold unpack, unpack_double;
    try (intros (z & Hz%unpack_int_length & _)%bind_ok; exact Hz).
  destruct (Nat.eqb_spec (length b) 8); [done|done].
Qed.

Lemma calcsize_pos f : (1 <= calcsize f)%nat.
Proof. destruct f; simpl; lia. Qed.

Lemma len_nil_iff {A} (b : list A) : (len b =? 0) = true <-> b = [].
Proof. unfold len. rewrite Z.eqb_eq. destruct b; simpl; split; (done || lia). Qed.

Lemma len_cons_false {A} (b : list A) : b <> [] -> (len b =? 0) = false.
Proof. intros. apply not_true_is_false. now rewrite len_nil_iff. Qed.

Lemma deserialize_nil format : deserialize format [] = Ok (nulls format).
Proof.
  induction format as [|[name [d l]] F IH]; [done|].
  simpl. now rewrite IH.
Qed.

Lemma take_nonempty {A} (b : list A) m : b <> [] -> (1 <= m)%nat -> take m b <> [].
Proof. destruct b, m; simpl; (done || lia). Qed.

Lemma utf8_size v n b :
  UTF8_String.deserialize b = Ok v ->
  UTF8_String.serialization_size v = Ok n ->
  (4 <= n <= length b)%nat /\
  forall m, (n <= m)%nat -> UTF8_String.deserialize (take m b) = Ok v.
Proof.
  unfold UTF8_String.deserialize, slice_to, slice_from.
  intros (z & Hz & Hs)%bind_ok Hn.
  pose proof (unpack_int_length _ _ _ Hz) as L4. cbn [calcsize] in L4.
  rewrite length_take in L4.
  assert (Hhd : forall m, (4 <= m)%nat -> take 4 (take m b) = take 4 b).
  { intros. rewrite take_take. f_equal. lia. }
  destruct (z =? 4294967295) eqn:Ez.
  { simplify_eq. simpl in Hn. simplify_eq. split; [lia|].
    intros m Hm. rewrite Hhd, Hz by done. simpl. now rewrite Ez. }
  apply bind_ok in Hs as (body & [Hl ->]%unpack_s_ok & Hs).
  apply bind_ok in Hs as (s & Hdec & ?). simplify_eq.
  cbn [UTF8_String.serialization_size] in Hn.
  rewrite (Utf8Facts.decode_encode _ _ Hdec) in Hn. simpl in Hn. simplify_eq.
  rewrite Hl. rewrite length_take, length_drop in Hl.
  split; [lia|]. intros m Hm.
  rewrite Hhd, Hz by lia. simpl. rewrite Ez.
  replace (take (Z.to_nat z) (drop 4 (take m b)))
    with (take (Z.to_nat z) (drop 4 b)).
  2:{ rewrite (take_drop_commute b), (take_drop_commute (take m b)), take_take.
      do 2 f_equal. lia. }
  unfold unpack_s. rewrite length_take, length_drop.
  replace (_ =? _)%nat with true by (symmetry; apply Nat.eqb_eq; lia).
  simpl. now rewrite Hdec.
Qed.

(** A successful element read is settled by the bytes it consumes. *)
Lemma element_stable d b l v size m :
  element_deserialize d b l = Ok (v, size) -> b <> [] -> (size <= m)%nat ->
  (1 <= size <= length b)%nat /\
  element_deserialize d (take m b) l = Ok (v, size).
Proof.
  intros Hd Hb Hm. destruct d; cbn [element_deserialize] in *; [done|..].
  - (* UTF8_String *)
    apply bind_ok in Hd as (s & Hs & Hd).
    apply bind_ok in Hd as (n & Hn & Hd). simplify_eq.
    destruct (utf8_size _ _ _ Hs Hn) as [? Hst].
    split; [lia|]. rewrite Hst by done. simpl. now rewrite Hn.
  - (* Optional_Quint *)
    apply bind_ok in Hd as (o & Ho & Hd).
    apply bind_ok in Hd as (n & Hn & Hd). simplify_eq.
    unfold Optional_Quint.deserialize in Ho.
    rewrite len_cons_false in Ho by done.
    apply bind_ok in Ho as (oz & Hoz & Ho).
    apply bind_ok in Hoz as (f & Hf & Hoz).
    apply bind_ok in Hoz as (z & [Hz ->]%unpack_int_ok & Hoz).
    simplify_eq. cbn in Hn. simplify_eq.
    assert (calcsize f = size) as <-.
    { unfold Optional_Quint.formats in Hf.
      repeat (destruct size as [|size]; simplify_eq; try done). }
    split; [pose proof (calcsize_pos f); lia|].
    rewrite take_ge by lia. 
    unfold Optional_Quint.deserialize. rewrite len_cons_false by done.
    rewrite Hf. simpl. unfold unpack_int. rewrite Hz, Nat.eqb_refl. done.
  - (* QDateTime *)
    apply bind_ok in Hd as (q & Hq & Hd). simplify_eq.
    unfold QDateTime.deserialize, slice_to, slice_from in *.
    apply bind_ok in Hq as ([[dt tm] ts] & Hu & Hq).
    assert (length (take 13 b) = 13%nat) as L13.
    { unfold QDateTime.unpack_qLB in Hu.
      destruct (Nat.eqb_spec (length (take 13 b)) 13); [done|done]. }
    rewrite length_take in L13.
    assert (13 <= length b)%nat as L13' by lia. clear L13.
    destruct (ts =? 2) eqn:Ets.
    { apply bind_ok in Hq as (o & Ho & Hq).
      apply bind_ok in Ho as (z & _ & ?). simplify_eq.
      unfold QDateTime.init in Hq. rewrite Ets in Hq. simpl in Hq.
      done. }
    simpl in Hq. unfold QDateTime.init in Hq. rewrite Ets in Hq.
    simpl in Hq. simplify_eq.
    unfold QDateTime.serialization_size in *. simpl in *.
    split; [lia|].
    rewrite take_take. replace (13 `min` m)%nat with 13%nat by lia.
    rewrite Hu. simpl. rewrite Ets. simpl.
    unfold QDateTime.init. rewrite Ets. simpl. done.
  - (* QColor *)
    apply bind_ok in Hd as (q & Hq & Hd). simplify_eq.
    unfold QColor.deserialize, slice_to in *.
    apply bind_ok in Hq as ([[[[[s a] r] g] bl] dm] & Hu & Hq).
    assert (length (take QColor.serialization_size b) = 11%nat) as L11.
    { unfold QColor.unpack_BHHHHH in Hu.
      destruct (Nat.eqb_spec (length (take QColor.serialization_size b)) 11); [done|done]. }
    rewrite length_take in L11. unfold QColor.serialization_size in *.
    assert (11 <= length b)%nat as L11' by lia. clear L11.
    split; [lia|].
    rewrite take_take. replace (11 `min` m)%nat with 11%nat by lia.
    rewrite Hu. simpl. now simplify_eq.
Qed.

Lemma nulls_take_drop k F : take k (nulls F) ++ nulls (drop k F) = nulls F.
Proof.
  unfold nulls. rewrite <- fmap_take, <- fmap_app. now rewrite take_drop.
Qed.

Lemma deserialize_fmt name f l F b :
  b <> [] ->
  deserialize ((name, (Fmt f, l)) :: F) b =
    v ← unpack f (take l b);
    kw ← deserialize F (drop l b);
    Ok ((name, Some v) :: kw).
Proof. intros. cbn [deserialize]. now rewrite len_cons_false. Qed.

Lemma deserialize_elem name d l F b :
  b <> [] -> (forall f, d <> Fmt f) ->
  deserialize ((name, (d, l)) :: F) b =
    '(v, size) ← element_deserialize d b l;
    kw ← deserialize F (drop size b);
    Ok ((name, v) :: kw).
Proof.
  intros. cbn [deserialize]. rewrite len_cons_false by done.
  destruct d; [by edestruct H0|done..].
Qed.

(** Truncation at the loop of [deserialize]: a buffer cut where the
    [k]-th field ends gives the same first [k] attributes and [None]
    for the others. *)
Lemma deserialize_truncated F : forall b kw k,
  deserialize F b = Ok kw ->
  exists n, boundary F b k = Ok n /\ (n <= length b)%nat /\
    deserialize F (take n b) = Ok (take k kw ++ nulls (drop k F)).
Proof.
  induction F as [|[name [d l]] F IH]; intros b kw k Hd.
  { exists 0%nat. simpl in Hd. simplify_eq. destruct k; simpl; (split; [done|split; [lia|done]]). }
  destruct k as [|k].
  { exists 0%nat. cbn [boundary take]. split; [done|split; [lia|]].
    apply deserialize_nil. }
  destruct (decide (b = [])) as [->|Hb].
  { exists 0%nat. rewrite deserialize_nil in Hd. simplify_eq.
    cbn [boundary]. split; [done|split; [simpl; lia|]].
    cbn [take]. rewrite deserialize_nil. f_equal. symmetry.
    exact (nulls_take_drop (S k) ((name, (d, l)) :: F)). }
  cbn [boundary]. rewrite len_cons_false by done.
  assert ((exists f, d = Fmt f) \/ (forall f, d <> Fmt f)) as [[f ->]|Hne']
    by (destruct d; eauto).
  - rewrite deserialize_fmt in Hd by done.
    apply bind_ok in Hd as (v & Hv & Hd).
    apply bind_ok in Hd as (kw' & Hkw & Hd). simplify_eq.
    destruct (IH _ _ k Hkw) as (n & Hn & Hle & Hcut).
    pose proof (unpack_length _ _ _ Hv) as Hl.
    pose proof (calcsize_pos f).
    rewrite length_drop in Hle.
    exists (length (take l b) + n)%nat.
    split; [unfold slice_to, slice_from; rewrite Hv, Hn; done|].
    rewrite length_take in Hl |- *.
    split; [lia|].
    rewrite deserialize_fmt by (apply take_nonempty; [done|lia]).
    assert (take l (take (l `min` length b + n) b) = take l b) as ->.
    { rewrite take_take.
      destruct (decide (l <= length b)%nat).
      - f_equal. lia.
      - rewrite !take_ge by lia. done. }
    assert (drop l (take (l `min` length b + n) b) = take n (drop l b)) as ->.
    { destruct (decide (l <= length b)%nat).
      - rewrite take_drop_commute. do 2 f_equal. lia.
      - rewrite (drop_ge b) by lia. rewrite drop_ge; [by destruct n|].
        rewrite length_take. lia. }
    rewrite Hv. cbn. rewrite Hcut. done.
  - rewrite deserialize_elem in Hd by done.
    apply bind_ok in Hd as ([v size] & Hv & Hd).
    apply bind_ok in Hd as (kw' & Hkw & Hd). simplify_eq.
    destruct (IH _ _ k Hkw) as (n & Hn & Hle & Hcut).
    rewrite length_drop in Hle.
    destruct (element_stable _ _ _ _ _ (size + n) Hv Hb) as [Hsz Hst]; [lia|].
    exists (size + n)%nat. split; [|split; [lia|]].
    { unfold slice_from. destruct d; [by edestruct Hne'|..];
        rewrite Hv; cbn; rewrite Hn; done. }
    rewrite deserialize_elem by (try apply take_nonempty; (done || lia)).
    rewrite Hst. cbn.
    rewrite <- take_drop_commute, Hcut. done.
Qed.

Lemma nulls_names F : (nulls F).*1 = F.*1.
Proof. induction F as [|[? ?] F IH]; [done|]. cbn. f_equal. exact IH. Qed.

Lemma nulls_app_take F1 F2 : take (length F1) (nulls (F1 ++ F2)) = nulls F1.
Proof. induction F1 as [|? F1 IH]; [done|]. cbn. f_equal. exact IH. Qed.

Lemma deserialize_names F : forall b kw,
  deserialize F b = Ok kw -> kw.*1 = F.*1.
Proof.
  induction F as [|[name [d l]] F IH]; intros b kw Hd.
  { simpl in Hd. by simplify_eq. }
  destruct (decide (b = [])) as [->|Hb].
  { rewrite deserialize_nil in Hd. injection Hd as <-.
    exact (nulls_names ((name, (d, l)) :: F)). }
  assert ((exists f, d = Fmt f) \/ (forall f, d <> Fmt f)) as [[f ->]|Hne']
    by (destruct d; eauto).
  - rewrite deserialize_fmt in Hd by done.
    apply bind_ok in Hd as (v & Hv & Hd).
    apply bind_ok in Hd as (kw' & Hkw & Hd). simplify_eq.
    cbn. f_equal. eauto.
  - rewrite deserialize_elem in Hd by done.
    apply bind_ok in Hd as ([v size] & Hv & Hd).
    apply bind_ok in Hd as (kw' & Hkw & Hd). simplify_eq.
    cbn. f_equal. eauto.
Qed.

(** The loop reads a format front to back: on a longer format it gives
    the same first attributes. *)
Lemma deserialize_app F1 F2 : forall b kw,
  deserialize (F1 ++ F2) b = Ok kw ->
  deserialize F1 b = Ok (take (length F1) kw).
Proof.
  induction F1 as [|[name [d l]] F IH]; intros b kw Hd; [done|].
  destruct (decide (b = [])) as [->|Hb].
  { rewrite deserialize_nil in *. injection Hd as <-. f_equal.
    symmetry. exact (nulls_app_take (_ :: _) F2). }
  rewrite <- app_comm_cons in Hd.
  assert ((exists f, d = Fmt f) \/ (forall f, d <> Fmt f)) as [[f ->]|Hne']
    by (destruct d; eauto).
  - rewrite deserialize_fmt in Hd |- * by done.
    apply bind_ok in Hd as (v & Hv & Hd).
    apply bind_ok in Hd as (kw' & Hkw & Hd). simplify_eq.
    rewrite Hv. cbn. rewrite (IH _ _ Hkw). done.
  - rewrite deserialize_elem in Hd |- * by done.
    apply bind_ok in Hd as ([v size] & Hv & Hd).
    apply bind_ok in Hd as (kw' & Hkw & Hd). simplify_eq.
    rewrite Hv. cbn. rewrite (IH _ _ Hkw). done.
Qed.

Lemma dict_get_app_in {V} (kw rest : list (string * V)) n v :
  NoDup kw.*1 -> (n, v) ∈ kw -> dict_get (kw ++ rest) n = Some v.
Proof.
  induction kw as [|[n' v'] kw IH]; intros Hnd Hin; [by apply elem_of_nil in Hin|].
  apply NoDup_cons in Hnd as [Hn' Hnd]. cbn.
  apply elem_of_cons in Hin as [?|Hin]; simplify_eq.
  - now rewrite String.eqb_refl.
  - destruct (String.eqb_spec n' n) as [->|]; [|eauto].
    destruct Hn'. apply list_elem_of_fmap. exists (n, v). done.
Qed.

Lemma collect_sub (params kw : list (string * option value)) F :
  (forall n v, (n, v) ∈ kw -> dict_get params n = Some v) ->
  kw.*1 = F.*1 -> collect params F = Ok kw.
Proof.
  revert kw. induction F as [|[n s] F IH]; intros [|[n' v] kw] Hget Hn;
    simplify_eq/=; [done|].
  rewrite (Hget n v) by apply list_elem_of_here.
  rewrite (IH kw); [done| |done].
  intros. apply Hget. by apply list_elem_of_further.
Qed.

Lemma collect_self kw rest F :
  NoDup F.*1 -> kw.*1 = F.*1 -> collect (kw ++ rest) F = Ok kw.
Proof.
  intros Hnd Hn. apply collect_sub; [|done].
  intros. apply dict_get_app_in; [congruence|done].
Qed.

Lemma format_NoDup c : NoDup (format c).*1.
Proof. destruct c; apply (bool_decide_unpack _); vm_compute; exact I. Qed.

Lemma kw_shape c (kw : list (string * option value)) :
  kw.*1 = (format c).*1 ->
  exists v1 v2 v3 v4 kw',
    kw = ("magic"%string, v1) :: ("version_number"%string, v2)
         :: ("type"%string, v3) :: ("id"%string, v4) :: kw'.
Proof.
  unfold format, base_format. intros Hn.
  destruct kw as [|[n1 v1] [|[n2 v2] [|[n3 v3] [|[n4 v4] kw]]]];
    simplify_eq/=. eauto 10.
Qed.

Lemma init_deserialized c kw rest v1 v2 v3 kw' :
  kw.*1 = (format c).*1 ->
  kw = ("magic"%string, v1) :: ("version_number"%string, v2)
       :: ("type"%string, v3) :: kw' ->
  init c (kw ++ rest) =
    _ ← check_header c v1 v2 v3; Ok {| tel_class := c; tel_attrs := kw |}.
Proof.
  intros Hn ->. unfold init, check_header. cbv zeta.
  rewrite <- app_assoc. generalize (rest ++ defaults c). intros tl.
  set (kw := _ :: _ :: _ :: kw') in *.
  assert (dict_get (kw ++ tl) "type" = Some v3) as -> by reflexivity.
  assert (dict_get (kw ++ tl) "magic" = Some v1) as -> by reflexivity.
  assert (dict_get (kw ++ tl) "version_number" = Some v2) as ->
    by reflexivity.
  rewrite (collect_self kw tl) by (done || apply format_NoDup).
  destruct (eq_int v1 magic) as [[]|]; [|done..].
  destruct (int_ge schema_version_number v2) as [[]|]; done.
Qed.

Lemma deserialize_base c b kw :
  deserialize (format c) b = Ok kw ->
  deserialize (format WSJTX_Telegram) b = Ok (take 4 kw).
Proof.
  intros Hd. unfold format in *. cbn [own_format]. rewrite app_nil_r.
  exact (deserialize_app base_format _ _ _ Hd).
Qed.

(** What a successful [from_bytes] amounts to. *)
Lemma from_bytes_ok B tel :
  from_bytes B = Ok tel <->
  exists v1 v2 v3 v4 kw',
    tel_attrs tel = header v1 v2 v3 v4 kw' /\
    deserialize (format (tel_class tel)) B = Ok (tel_attrs tel) /\
    check_header WSJTX_Telegram v1 v2 v3 = Ok tt /\
    check_header (tel_class tel) v1 v2 v3 = Ok tt /\
    registered (tel_class tel) v3.
Proof.
  unfold from_bytes. split.
  - intros (kw0 & Hkw0 & H)%bind_ok.
    pose proof (deserialize_names _ _ _ Hkw0) as Hn0.
    destruct (kw_shape _ _ Hn0) as (v1 & v2 & v3 & v4 & kw' & ->).
    assert (kw' = []) as ->.
    { destruct kw'; [done|]. cbn in Hn0. simplify_eq. }
    cbn [dict_get String.eqb] in H.
    apply bind_ok in H as (dtype & Hdt & H).
    assert (dtype = v3) as -> by (cbv in Hdt; congruence). clear Hdt.
    apply bind_ok in H as (self & Hself & H).
    rewrite <- (app_nil_r (_ :: _)) in Hself.
    rewrite (init_deserialized _ _ _ _ _ _ _ Hn0 eq_refl) in Hself.
    apply bind_ok in Hself as ([] & Hchk & Hself). simplify_eq.
    destruct (type_registry v3) as [c|] eqn:Hreg.
    + apply bind_ok in H as (kw & Hkw & H).
      pose proof (deserialize_names _ _ _ Hkw) as Hn.
      destruct (kw_shape _ _ Hn) as (w1 & w2 & w3 & w4 & kw' & ->).
      apply deserialize_base in Hkw as Hb. rewrite Hkw0 in Hb.
      cbn in Hb. simplify_eq.
      rewrite (init_deserialized _ _ _ _ _ _ _ (deserialize_names _ _ _ Hkw) eq_refl) in H.
      apply bind_ok in H as ([] & Hchk' & H). simplify_eq.
      exists w1, w2, w3, w4, kw'. cbn. unfold registered. eauto 10.
    + simplify_eq. exists v1, v2, v3, v4, []. cbn. unfold registered. eauto 10.
  - intros (v1 & v2 & v3 & v4 & kw' & Hat & Hd & Hc0 & Hc & Hreg).
    destruct tel as [c kw]. cbn [tel_attrs tel_class] in *. subst kw.
    rewrite (deserialize_base _ _ _ Hd).
    change (take 4 (header v1 v2 v3 v4 kw'))
      with [("magic"%string, v1); ("version_number"%string, v2);
            ("type"%string, v3); ("id"%string, v4)].
    cbn [mbind result_bind].
    assert (dict_get [("magic"%string, v1); ("version_number"%string, v2);
              ("type"%string, v3); ("id"%string, v4)] "type" = Some v3) as ->
      by reflexivity.
    cbn [mbind result_bind].
    rewrite <- (app_nil_r [_; _; _; _]).
    rewrite (init_deserialized WSJTX_Telegram
               [("magic"%string, v1); ("version_number"%string, v2);
                ("type"%string, v3); ("id"%string, v4)] [] v1 v2 v3
               [("id"%string, v4)] eq_refl eq_refl).
    rewrite Hc0. cbn [mbind result_bind].
    destruct Hreg as [->|[-> ->]].
    + rewrite Hd. cbn [mbind result_bind].
      rewrite (init_deserialized _ _ _ _ _ _ _ (deserialize_names _ _ _ Hd) eq_refl).
      rewrite Hc. done.
    + pose proof (deserialize_names _ _ _ Hd) as Hn.
      destruct kw'; [done|]. cbn in Hn. simplify_eq.
Qed.

(** C5 (amended).  For every buffer that decodes, the buffer cut where
    field [k] ends decodes too when [k >= 3], that is when magic,
    schema version and type tag are complete: the result is a telegram
    of the same class whose first [k] attributes are those of the full
    decode and whose other attributes are all [None].  Cut after the
    schema version ([k = 2]) it decodes to the base record, with
    [type] and [id] null. *)
Theorem truncation_tolerance (B : bytes) (tel : telegram) (k : nat) :
  from_bytes B = Ok tel ->
  exists n,
    boundary (format (tel_class tel)) B k = Ok n /\
    (n <= length B)%nat /\
    ((3 <= k)%nat ->
     from_bytes (take n B) =
       Ok {| tel_class := tel_class tel;
             tel_attrs := take k (tel_attrs tel)
                          ++ nulls (drop k (format (tel_class tel))) |}) /\
    (k = 2%nat ->
     from_bytes (take n B) =
       Ok {| tel_class := WSJTX_Telegram;
             tel_attrs := take 2 (tel_attrs tel)
                          ++ nulls (drop 2 base_format) |}).
Proof.
  intros (v1 & v2 & v3 & v4 & kw' & Hat & Hd & Hc0 & Hc & Hreg)%from_bytes_ok.
  destruct (deserialize_truncated _ _ _ k Hd) as (n & Hn & Hle & Hcut).
  exists n. split; [done|split; [done|]].
  set (c := tel_class tel) in *. rewrite Hat in *. split.
  - intros Hk. destruct k as [|[|[|k]]]; [lia..|].
    apply from_bytes_ok. cbn [tel_attrs tel_class].
    destruct k as [|k].
    + exists v1, v2, v3, None, (nulls (own_format c)).
      split; [done|]. split; [exact Hcut|done].
    + exists v1, v2, v3, v4, (take k kw' ++ nulls (drop k (own_format c))).
      split; [done|]. split; [exact Hcut|done].
  - intros ->. apply from_bytes_ok. exists v1, v2, None, None, [].
    cbn [tel_attrs tel_class]. split; [done|].
    split; [|split; [done|split; [done|by right]]].
    apply deserialize_base in Hcut. exact Hcut.
Qed.

Lemma truncation_tolerance_witness :
  from_bytes clear_window_1
    = Ok {| tel_class := WSJTX_Clear;
            tel_attrs :=
              header (Some (VInt magic)) (Some (VInt 3)) (Some (VInt 3))
                (Some (VStr (lit "WSJT-X - TS590S-klbg")))
                [("window"%string, Some (VInt 1))] |} /\
  exists n,
    boundary (format WSJTX_Clear) clear_window_1 4 = Ok n /\
    (n <= length clear_window_1)%nat /\
    ((3 <= 4)%nat ->
     from_bytes (take n clear_window_1) =
       Ok {| tel_class := WSJTX_Clear;
             tel_attrs :=
               header (Some (VInt magic)) (Some (VInt 3)) (Some (VInt 3))
                 (Some (VStr (lit "WSJT-X - TS590S-klbg")))
                 [("window"%string, None)] |}) /\
    (4%nat = 2%nat ->
     from_bytes (take n clear_window_1) =
       Ok {| tel_class := WSJTX_Telegram;
             tel_attrs :=
               [("magic"%string, Some (VInt magic));
                ("version_number"%string, Some (VInt 3));
                ("type"%string, None); ("id"%string, None)] |}).
Proof.
  split; [vm_compute; reflexivity|].
  apply (truncation_tolerance clear_window_1
           {| tel_class := WSJTX_Clear;
              tel_attrs :=
                header (Some (VInt magic)) (Some (VInt 3)) (Some (VInt 3))
                  (Some (VStr (lit "WSJT-X - TS590S-klbg")))
                  [("window"%string, Some (VInt 1))] |} 4).
  vm_compute. reflexivity.
Defined.

(** C5, as stated, fails: [clearmsg] decodes, its first field (the
    magic) ends at byte 4, and the buffer cut there raises an error
    instead of giving nulls. *)
Lemma truncation_after_magic_raises :
  is_ok (from_bytes clearmsg) = true /\
  boundary (format WSJTX_Clear) clearmsg 1 = Ok 4%nat /\
  from_bytes (take 4 clearmsg) = Raise TypeError /\
  from_bytes [] = Raise AssertionError.
Proof. vm_compute. repeat split; reflexivity. Qed.

(** The doctests of the source: [from_bytes (statusmsg)] prints as
    "Status dial_frq=7074000 mode=FT8 ... sub_mode=None ...
    frq_tolerance=4294967295 ... tx_message=XAMPLE OE3RSU 73",
    [from_bytes (clearmsg)] as "Clear window=None", and the
    [Highlight_Call] telegram comes back from its bytes. *)
Lemma doctest_statusmsg :
  from_bytes statusmsg =
    Ok {| tel_class := WSJTX_Status;
          tel_attrs :=
            header (Some (VInt magic)) (Some (VInt 2)) (Some (VInt 1))
              (Some (VStr (lit "WSJT-X - TS590S-klbg")))
              [ ("dial_frq", Some (VInt 7074000))
              ; ("mode", Some (VStr (lit "FT8")))
              ; ("dx_call", Some (VStr (lit "XAMPLE")))
              ; ("report", Some (VStr (lit "-2")))
              ; ("tx_mode", Some (VStr (lit "FT8")))
              ; ("tx_enabled", Some (VInt 0))
              ; ("xmitting", Some (VInt 0))
              ; ("decoding", Some (VInt 1))
              ; ("rx_df", Some (VInt 715))
              ; ("tx_df", Some (VInt 1134))
              ; ("de_call", Some (VStr (lit "OE3RSU")))
              ; ("de_grid", Some (VStr (lit "JN88DG")))
              ; ("dx_grid", Some (VStr (lit "JO21")))
              ; ("tx_watchdog", Some (VInt 0))
              ; ("sub_mode", None)
              ; ("fast_mode", Some (VInt 0))
              ; ("special_op", Some (VInt 0))
              ; ("frq_tolerance", Some (VInt 4294967295))
              ; ("t_r_period", Some (VInt 4294967295))
              ; ("config_name", Some (VStr (lit "TS590S-klbg")))
              ; ("tx_message",
                 Some (VStr (lit "XAMPLE OE3RSU 73                     ")))
              ]%string |}.
Proof. vm_compute. reflexivity. Qed.

Lemma doctest_clearmsg :
  from_bytes clearmsg =
    Ok {| tel_class := WSJTX_Clear;
          tel_attrs :=
            header (Some (VInt magic)) (Some (VInt 3)) (Some (VInt 3))
              (Some (VStr (lit "WSJT-X - TS590S-klbg")))
              [("window"%string, None)] |}.
Proof. vm_compute. reflexivity. Qed.

Lemma doctest_highlight_call :
  is_ok (init WSJTX_Highlight_Call highlight_kw) = true /\
  (t ← init WSJTX_Highlight_Call highlight_kw; b ← as_bytes t; from_bytes b)
    = init WSJTX_Highlight_Call highlight_kw.
Proof. vm_compute. split; reflexivity. Qed.

(** C1.  The round trip breaks on a telegram with a non-null optional
    integer: [WSJTX_Clear(window=1)] is built without error and
    [as_bytes] raises on it, as [Optional_Quint(1)] has no [size]; and
    on a string outside ASCII: [WSJTX_Heartbeat(version='é')] encodes,
    and the bytes do not decode. *)
Theorem roundtrip_breaks :
  is_ok (init WSJTX_Clear clear_kw) = true /\
  (t ← init WSJTX_Clear clear_kw; as_bytes t) = Raise AttributeError /\
  is_ok (t ← init WSJTX_Heartbeat heartbeat_kw; as_bytes t) = true /\
  (t ← init WSJTX_Heartbeat heartbeat_kw; b ← as_bytes t; from_bytes b)
    = Raise UnicodeDecodeError.
Proof. vm_compute. repeat split; reflexivity. Qed.

(** C8.  For the one-character string 'é' (U+00E9, two bytes in
    UTF-8) [serialize] writes the length 1, the number of characters,
    and cuts the two bytes to one; the result does not decode.  The
    two characters of 'éA' are cut to the two bytes of 'é', which is
    what comes back.  The null string is the sentinel, distinct from
    the empty string. *)
Theorem utf8_length_counts_characters :
  Utf8.encode [233%N] = Ok (bytes_of_N_list [0xC3; 0xA9]%N) /\
  UTF8_String.serialize (Some [233%N])
    = Ok (bytes_of_N_list [0; 0; 0; 1; 0xC3]%N) /\
  UTF8_String.deserialize (bytes_of_N_list [0; 0; 0; 1; 0xC3]%N)
    = Raise UnicodeDecodeError /\
  (b ← UTF8_String.serialize (Some [233; 65]%N); UTF8_String.deserialize b)
    = Ok (Some [233%N]) /\
  UTF8_String.serialize None
    = Ok (bytes_of_N_list [0xFF; 0xFF; 0xFF; 0xFF]%N) /\
  UTF8_String.serialize (Some []) = Ok (bytes_of_N_list [0; 0; 0; 0]%N).
Proof. vm_compute. repeat split; reflexivity. Qed.

(** No date-time with [timespec = 2] is ever decoded: [__init__]
    raises on the offset that [deserialize] has just read. *)
Lemma qdatetime_never_timezone dbytes q :
  QDateTime.deserialize dbytes = Ok q ->
  QDateTime.timespec q <> 2 /\ QDateTime.offset q = None.
Proof.
  unfold QDateTime.deserialize.
  intros ([[dt tm] ts] & Hu & Hq)%bind_ok.
  destruct (ts =? 2) eqn:Ets.
  - apply bind_ok in Hq as (o & Ho & Hq).
    apply bind_ok in Ho as (z & _ & ?). simplify_eq.
    unfold QDateTime.init in Hq. rewrite Ets in Hq. done.
  - cbn in Hq. unfold QDateTime.init in Hq. rewrite Ets in Hq.
    cbn in Hq. simplify_eq. cbn. split; [|done].
    intros ->. done.
Qed.

(** C6.  A date-time field with [timespec = 2] followed by its
    four-byte offset does not decode: the constructor raises
    [ValueError].  The same date-time with [timespec = 1] decodes, and
    the constructor's assertion rejects an offset given with a
    [timespec] other than 2. *)
Theorem qdatetime_with_offset_raises :
  length datetime_with_offset = 17%nat /\
  QDateTime.deserialize datetime_with_offset = Raise ValueError /\
  is_ok (QDateTime.deserialize datetime_utc) = true /\
  QDateTime.init 2460165 0 1 (Some 3600) = Raise AssertionError.
Proof. vm_compute. repeat split; reflexivity. Qed.
End CodecFacts.

(** ** Where the round trip of the codec holds *)

Module RoundTrip.
Import Struct Codec CodecFacts.

Lemma to_N_byte_of_N n : Byte.to_N (byte_of_N n) = (n mod 256)%N.
Proof.
  unfold byte_of_N.
  destruct (Byte.of_N (n mod 256)) as [b|] eqn:E.
  - by apply Byte.to_of_N.
  - apply Byte.of_N_None_iff in E.
    pose proof (N.mod_upper_bound n 256). lia.
Qed.

Lemma length_be_encode k n : length (be_encode k n) = k.
Proof. induction k as [|k IH]; [done|]. cbn. by rewrite IH. Qed.

Lemma be_decode_encode k n :
  be_decode (be_encode k n) = (n mod 256 ^ N.of_nat k)%N.
Proof.
  induction k as [|k IH]; [by rewrite N.mod_1_r|].
  cbn [be_encode be_decode]. rewrite length_be_encode, IH, to_N_byte_of_N.
  rewrite Nat2N.inj_succ, N.pow_succ_r'.
  rewrite (N.mul_comm 256), N.Div0.mod_mul_r. ring.
Qed.

Lemma signed_wrap M z :
  0 < M -> - M <= 2 * z < M ->
  (if M <=? 2 * (z mod M) then z mod M - M else z mod M) = z.
Proof.
  intros HM Hz. destruct (Z.lt_ge_cases z 0).
  - assert (z mod M = z + M) as ->.
    { rewrite <- (Z.mod_add z 1 M) by lia. rewrite Z.mul_1_l.
      apply Z.mod_small. lia. }
    destruct (Z.leb_spec M (2 * (z + M))); lia.
  - rewrite Z.mod_small by lia. destruct (Z.leb_spec M (2 * z)); lia.
Qed.

Lemma int_of_bytes_of_int f z :
  int_in_range f z = true -> int_of_bytes f (bytes_of_int f z) = z.
Proof.
  unfold int_in_range, int_of_bytes, bytes_of_int. intros Hr.
  rewrite be_decode_encode.
  assert (256 ^ N.of_nat (calcsize f) = Z.to_N (modulus f))%N as ->
    by (destruct f; reflexivity).
  assert (0 < modulus f) as Hm by (destruct f; reflexivity).
  rewrite <- Z2N.inj_mod by (try apply Z.mod_pos_bound; lia).
  rewrite Z2N.id by (apply Z.mod_pos_bound; lia).
  rewrite Z.mod_mod by lia.
  destruct (is_signed f); cbn [andb];
    apply andb_prop in Hr as [H1 H2].
  - apply Z.leb_le in H1. apply Z.ltb_lt in H2. by apply signed_wrap.
  - apply Z.leb_le in H1. apply Z.ltb_lt in H2. apply Z.mod_small. lia.
Qed.

Lemma unpack_pack_int f z b :
  pack_int f z = Ok b -> length b = calcsize f /\ unpack_int f b = Ok z.
Proof.
  unfold pack_int, unpack_int. destruct (int_in_range f z) eqn:Hr; [|done].
  intros [= <-]. unfold bytes_of_int at 1 2. rewrite length_be_encode.
  rewrite Nat.eqb_refl. by rewrite int_of_bytes_of_int.
Qed.

Lemma encode_ascii s : ascii s -> Utf8.encode s = Ok (byte_of_N <$> s).
Proof.
  induction 1 as [|c s Hc _ IH]; [done|].
  cbn. rewrite IH. unfold Utf8.encode_cp.
  replace (c <? 128)%N with true by (symmetry; by apply N.ltb_lt). done.
Qed.

Lemma decode_ascii s : ascii s -> Utf8.decode (byte_of_N <$> s) = Ok s.
Proof.
  induction 1 as [|c s Hc _ IH]; [done|].
  cbn. rewrite to_N_byte_of_N, N.mod_small by lia.
  replace (c <? 128)%N with true by (symmetry; by apply N.ltb_lt).
  by rewrite IH.
Qed.

(** An ASCII string comes back from its bytes, whatever follows them. *)
Lemma utf8_string_roundtrip s b rest :
  ascii s -> len s < 0xFFFFFFFF ->
  UTF8_String.serialize (Some s) = Ok b ->
  b <> [] /\
  UTF8_String.deserialize (b ++ rest) = Ok (Some s) /\
  UTF8_String.serialization_size (Some s) = Ok (length b).
Proof.
  intros Ha Hl. unfold UTF8_String.serialize, UTF8_String.serialization_size.
  rewrite (encode_ascii s Ha). cbn [mbind result_bind].
  destruct (pack_int fmt_L (len s)) as [hd|] eqn:Hhd; [|done].
  cbn [mbind result_bind]. intros [= <-].
  apply unpack_pack_int in Hhd as [Hlen Hun]. cbn [calcsize] in Hlen.
  unfold pack_s, len. rewrite Nat2Z.id, length_fmap, Nat.sub_diag.
  rewrite take_ge by (rewrite length_fmap; lia). cbn [repeat].
  rewrite app_nil_r. split; [by destruct hd|]. split.
  - unfold UTF8_String.deserialize, slice_to, slice_from.
    rewrite <- app_assoc, take_app_length' by done. rewrite Hun.
    cbn [mbind result_bind].
    replace (len s =? 4294967295) with false by (symmetry; apply Z.eqb_neq; lia).
    rewrite drop_app_length' by done.
    unfold len. rewrite Nat2Z.id.
    rewrite take_app_length' by (by rewrite length_fmap).
    unfold unpack_s. rewrite length_fmap, Nat.eqb_refl.
    cbn [mbind result_bind]. rewrite (decode_ascii s Ha). done.
  - rewrite length_app, length_fmap, Hlen. done.
Qed.

Ltac explode :=
  repeat match goal with
  | H : length ?l = O |- _ => apply nil_length_inv in H; subst l
  | H : length ?l = S _ |- _ =>
      destruct l; [discriminate H|]; cbn [length] in H;
      apply Nat.succ_inj in H
  end.

Lemma int_of_pack_int f z b :
  pack_int f z = Ok b -> length b = calcsize f /\ int_of_bytes f b = z.
Proof.
  unfold pack_int. destruct (int_in_range f z) eqn:Hr; [|done].
  intros [= <-]. unfold bytes_of_int at 1. rewrite length_be_encode.
  by rewrite int_of_bytes_of_int.
Qed.

Lemma utf8_null_roundtrip b rest :
  UTF8_String.serialize None = Ok b ->
  b <> [] /\ length b = 4%nat /\
  UTF8_String.deserialize (b ++ rest) = Ok None.
Proof.
  cbn [UTF8_String.serialize]. intros Hb.
  apply unpack_pack_int in Hb as [Hlen Hun]. cbn [calcsize] in Hlen.
  split; [by destruct b|]. split; [done|].
  unfold UTF8_String.deserialize, slice_to.
  rewrite take_app_length' by done. by rewrite Hun.
Qed.

(** A date-time without offset comes back from its 13 bytes. *)
Lemma qdatetime_roundtrip q b rest :
  QDateTime.offset q = None -> QDateTime.timespec q <> 2 ->
  QDateTime.serialize q = Ok b ->
  length b = 13%nat /\ QDateTime.deserialize (b ++ rest) = Ok q.
Proof.
  destruct q as [date time ts off]. cbn. intros -> Hts.
  unfold QDateTime.serialize. cbn.
  intros (d & Hd & H)%bind_ok. apply bind_ok in H as (t & Ht & H).
  apply bind_ok in H as (s & Hs & [= <-]).
  apply int_of_pack_int in Hd as [Ld Hd], Ht as [Lt Ht], Hs as [Ls Hs].
  cbn [calcsize] in *.
  assert (length (d ++ t ++ s) = 13%nat) as L
    by (rewrite !length_app; lia).
  split; [done|].
  unfold QDateTime.deserialize, slice_to, slice_from.
  rewrite take_app_length' by done.
  unfold QDateTime.unpack_qLB. rewrite L. cbn [Nat.eqb mbind result_bind].
  change firstn with (@take byte). change skipn with (@drop byte).
  rewrite take_app_length' by done.
  rewrite drop_app_length' by done.
  rewrite take_app_length' by done.
  rewrite app_assoc, drop_app_length' by (rewrite length_app; lia).
  rewrite Hd, Ht, Hs.
  replace (ts =? 2) with false by (symmetry; by apply Z.eqb_neq).
  cbn [mbind result_bind]. unfold QDateTime.init. cbn.
  replace (ts =? 2) with false by (symmetry; by apply Z.eqb_neq).
  done.
Qed.

(** A colour whose components fit their fields comes back from its 11
    bytes. *)
Lemma qcolor_roundtrip c b rest :
  QColor.serialize c = Ok b ->
  length b = 11%nat /\ QColor.deserialize (b ++ rest) = Ok c.
Proof.
  destruct c as [sp r g bl a]. unfold QColor.serialize. cbn.
  intros (s & Hs & H)%bind_ok.
  apply bind_ok in H as (ab & Ha & H). apply bind_ok in H as (rb & Hr & H).
  apply bind_ok in H as (gb & Hg & H). apply bind_ok in H as (bb & Hb & H).
  apply bind_ok in H as (zb & Hz & [= <-]).
  apply int_of_pack_int in Hs as [Ls Hs], Ha as [La Ha], Hr as [Lr Hr],
    Hg as [Lg Hg], Hb as [Lb Hb], Hz as [Lz Hz].
  cbn [calcsize] in *.
  assert (length (s ++ ab ++ rb ++ gb ++ bb ++ zb) = 11%nat) as L
    by (rewrite !length_app; lia).
  split; [done|].
  unfold QColor.deserialize, slice_to, QColor.serialization_size.
  rewrite take_app_length' by done.
  unfold QColor.unpack_BHHHHH. rewrite L. cbn [Nat.eqb mbind result_bind].
  clear L. explode. cbn [app firstn skipn].
  by rewrite Hs, Ha, Hr, Hg, Hb.
Qed.

Lemma len_app_nonempty {A} (b rest : list A) :
  b <> [] -> (len (b ++ rest) =? 0) = false.
Proof.
  destruct b; [done|]. intros _. unfold len. cbn [app length].
  apply Z.eqb_neq. lia.
Qed.

Lemma nonempty_length {A} (b : list A) n :
  length b = S n -> b <> [].
Proof. by destruct b. Qed.

(** One field: the bytes [as_bytes] writes for a plain value are read
    back as that value by the round of [deserialize] for the field,
    which leaves what follows them to the next fields.  The only field
    that writes nothing is a null optional integer, the last one. *)
Lemma field_roundtrip name d n v fb F rest :
  plain d v ->
  format_ok ((name, (d, n)) :: F) = true ->
  field_bytes d v = Ok fb ->
  (fb = [] /\ d = Cls_Optional_Quint /\ v = None /\ F = []) \/
  (fb <> [] /\
   deserialize ((name, (d, n)) :: F) (fb ++ rest) =
     kw ← deserialize F rest; Ok ((name, v) :: kw)).
Proof.
  intros Hp Hf Hb. cbn [format_ok] in Hf.
  apply andb_prop in Hf as [Hn _].
  destruct d as [f| | | |].
  - apply Nat.eqb_eq in Hn as ->. right.
    assert (exists w, v = Some w /\ length fb = calcsize f /\
                     unpack f fb = Ok w) as (w & -> & L & Hun).
    { destruct f, v as [[]|]; try done; cbn [field_bytes pack] in Hb;
        try (apply unpack_pack_int in Hb as [L Hun];
             eexists; split; [done|]; split; [done|]; cbn; by rewrite Hun).
      injection Hb as <-. eexists. split; [done|].
      unfold pack_double. rewrite length_be_encode. split; [done|].
      cbn [unpack]. unfold unpack_double. rewrite length_be_encode.
      cbn [Nat.eqb mbind result_bind]. rewrite be_decode_encode.
      cbn in Hp. rewrite N.mod_small; [done|]. exact Hp. }
    assert (fb <> []) as Hne by (destruct f, fb; done).
    split; [done|]. cbn [deserialize].
    rewrite len_app_nonempty by done. unfold slice_to, slice_from.
    rewrite take_app_length', drop_app_length' by done.
    by rewrite Hun.
  - right. destruct v as [[]|]; try done.
    + destruct Hp as [Ha Hl]. cbn in Hb.
      destruct (utf8_string_roundtrip _ _ rest Ha Hl Hb) as (Hne & Hd & Hs).
      split; [done|]. cbn [deserialize].
      rewrite len_app_nonempty by done.
      cbn [element_deserialize]. rewrite Hd. cbn [mbind result_bind].
      rewrite Hs. cbn [mbind result_bind fmap option_fmap option_map].
      unfold slice_from. by rewrite drop_app_length' by done.
    + cbn in Hb.
      destruct (utf8_null_roundtrip _ rest Hb) as (Hne & L & Hd).
      split; [done|]. cbn [deserialize].
      rewrite len_app_nonempty by done.
      cbn [element_deserialize]. rewrite Hd.
      cbn [mbind result_bind UTF8_String.serialization_size
           fmap option_fmap option_map].
      unfold slice_from. by rewrite drop_app_length' by done.
  - left. destruct v as [[]|]; try done. cbn in Hb. injection Hb as <-.
    by destruct F.
  - right. destruct v as [[]|]; try done. destruct Hp as [Ho Ht].
    cbn in Hb. destruct (qdatetime_roundtrip _ _ rest Ho Ht Hb) as [L Hd].
    split; [by eapply nonempty_length|]. cbn [deserialize].
    rewrite len_app_nonempty by (by eapply nonempty_length).
    cbn [element_deserialize]. rewrite Hd. cbn [mbind result_bind].
    unfold QDateTime.serialization_size. rewrite Ho.
    unfold slice_from. by rewrite drop_app_length' by done.
  - right. destruct v as [[]|]; try done.
    cbn in Hb. destruct (qcolor_roundtrip _ _ rest Hb) as [L Hd].
    split; [by eapply nonempty_length|]. cbn [deserialize].
    rewrite len_app_nonempty by (by eapply nonempty_length).
    cbn [element_deserialize]. rewrite Hd. cbn [mbind result_bind].
    unfold slice_from, QColor.serialization_size.
    by rewrite drop_app_length' by done.
Qed.

(** The loop of [as_bytes] followed by the loop of [deserialize]. *)
Lemma loop_roundtrip attrs F :
  forall kw b,
    format_ok F = true ->
    kw.*1 = F.*1 ->
    (forall n v, (n, v) ∈ kw -> dict_get attrs n = Some v) ->
    Forall2 plain_field F kw ->
    as_bytes_loop F attrs = Ok b ->
    deserialize F b = Ok kw.
Proof.
  induction F as [|[name [d n]] F IH]; intros [|[name' v] kw] b Hf Hn Hget Hp Hb;
    simplify_eq/=; [done|].
  apply Forall2_cons in Hp as [Hv Hp]. cbn in Hv.
  rewrite (Hget name v) in Hb by apply list_elem_of_here.
  apply bind_ok in Hb as (fb & Hfb & Hb).
  apply bind_ok in Hb as (rb & Hrb & [= <-]).
  assert (deserialize F rb = Ok kw) as Hrest.
  { apply IH; try done.
    - by apply andb_prop in Hf as [_ ?].
    - intros. apply Hget. by apply list_elem_of_further. }
  destruct (field_roundtrip name d n v fb F rb Hv Hf Hfb)
    as [(-> & -> & -> & ->)|[Hne Hd]].
  - destruct kw; [|done]. cbn in Hrb. by injection Hrb as <-.
  - cbn [deserialize] in Hd. rewrite Hd, Hrest. done.
Qed.

Lemma format_format_ok c : format_ok (format c) = true.
Proof. by destruct c. Qed.

(** Round trip.  A telegram of the class its type tag is registered
    for, whose header passes the checks of the constructor and whose
    attributes are plain values of their fields, is what [from_bytes]
    builds from its [as_bytes]. *)
Theorem from_bytes_as_bytes t b v1 v2 v3 v4 kw' :
  tel_attrs t = header v1 v2 v3 v4 kw' ->
  (tel_attrs t).*1 = (format (tel_class t)).*1 ->
  Forall2 plain_field (format (tel_class t)) (tel_attrs t) ->
  check_header WSJTX_Telegram v1 v2 v3 = Ok tt ->
  check_header (tel_class t) v1 v2 v3 = Ok tt ->
  registered (tel_class t) v3 ->
  as_bytes t = Ok b ->
  from_bytes b = Ok t.
Proof.
  intros Hh Hn Hp Hc0 Hc Hr Hb. apply from_bytes_ok.
  exists v1, v2, v3, v4, kw'. repeat split; try done.
  apply (loop_roundtrip (tel_attrs t)); try done.
  - apply format_format_ok.
  - intros n v Hin. rewrite <- (app_nil_r (tel_attrs t)).
    apply dict_get_app_in; [|done]. rewrite Hn. apply format_NoDup.
Qed.

Lemma collect_ok params F attrs :
  collect params F = Ok attrs ->
  attrs.*1 = F.*1 /\
  forall n v, (n, v) ∈ attrs -> dict_get params n = Some v.
Proof.
  revert attrs. induction F as [|[n s] F IH]; intros attrs H; cbn in H.
  - injection H as <-. split; [done|]. by intros ?? ?%elem_of_nil.
  - destruct (dict_get params n) eqn:E; [|done].
    apply bind_ok in H as (r & Hr & [= <-]).
    destruct (IH _ Hr) as [Hn Hg]. split; [cbn; by rewrite Hn|].
    intros n' v' [?|?]%elem_of_cons; simplify_eq; eauto.
Qed.

(** What the constructor has checked on the telegram it returns. *)
Lemma init_ok c kw t :
  init c kw = Ok t ->
  tel_class t = c /\
  (tel_attrs t).*1 = (format c).*1 /\
  exists v1 v2 v3 v4 kw',
    tel_attrs t = header v1 v2 v3 v4 kw' /\
    check_header c v1 v2 v3 = Ok tt.
Proof.
  unfold init. cbv zeta.
  match goal with |- context [collect ?p _] => generalize p end.
  intros params H.
  apply bind_ok in H as (m & Hm & H). apply bind_ok in H as ([] & Ham & H).
  apply bind_ok in H as (v & Hv & H). apply bind_ok in H as ([] & Hav & H).
  apply bind_ok in H as (attrs & Hc & H).
  apply bind_ok in H as ([] & Hty & [= <-]). cbn [tel_class tel_attrs].
  destruct (collect_ok _ _ _ Hc) as [Hn Hg].
  split; [done|]. split; [done|].
  destruct (kw_shape _ _ Hn) as (v1 & v2 & v3 & v4 & kw' & ->).
  exists v1, v2, v3, v4, kw'. split; [done|].
  rewrite (Hg "magic"%string v1) in Hm by (repeat constructor).
  rewrite (Hg "version_number"%string v2) in Hv by (repeat constructor).
  unfold check_header. rewrite Hm. cbn [mbind result_bind]. rewrite Ham.
  cbn [mbind result_bind]. rewrite Hv. cbn [mbind result_bind]. rewrite Hav.
  cbn [mbind result_bind]. destruct (class_type c); [|done]. exact Hty.
Qed.

Lemma check_header_base c v1 v2 v3 :
  check_header c v1 v2 v3 = Ok tt ->
  check_header WSJTX_Telegram v1 v2 v3 = Ok tt.
Proof.
  unfold check_header. intros (m & Hm & H)%bind_ok.
  apply bind_ok in H as ([] & Ham & H). apply bind_ok in H as (v & Hv & H).
  apply bind_ok in H as ([] & Hav & H).
  rewrite Hm. cbn [mbind result_bind]. rewrite Ham.
  cbn [mbind result_bind]. rewrite Hv. cbn [mbind result_bind].
  by rewrite Hav.
Qed.

Lemma check_header_registered c v1 v2 v3 :
  c <> WSJTX_Telegram ->
  check_header c v1 v2 v3 = Ok tt -> registered c v3.
Proof.
  unfold check_header. intros Hc (m & _ & H)%bind_ok.
  apply bind_ok in H as ([] & _ & H). apply bind_ok in H as (v & _ & H).
  apply bind_ok in H as ([] & _ & H). left.
  destruct c; [done|..]; cbn [class_type] in H;
    apply bind_ok in H as ([] & He & Ha); try done;
    destruct v3 as [[]|]; try done; cbn in He;
    injection He as ->%Z.eqb_eq; reflexivity.
Qed.

(** X1.  Round trip for what the constructors build.  For a telegram [t]
    that the constructor of one of the sixteen message classes
    returns, with plain attribute values: if [as_bytes] gives [b], then
    [from_bytes] gives [t] back from [b]. *)
Theorem constructed_roundtrip c kw t b :
  c <> WSJTX_Telegram ->
  init c kw = Ok t ->
  Forall2 plain_field (format c) (tel_attrs t) ->
  as_bytes t = Ok b ->
  from_bytes b = Ok t.
Proof.
  intros Hc (Ht & Hn & v1 & v2 & v3 & v4 & kw' & Hh & Hchk)%init_ok Hp Hb.
  subst c.
  eapply from_bytes_as_bytes; eauto using check_header_base,
    check_header_registered.
Qed.
End RoundTrip.
Module ReFacts.
Import Re.

Lemma ascii_db_extends : @digits_extend_ascii ascii_db.
Proof. intros c _. reflexivity. Qed.

Section WithUnicode.
Context `{UnicodeDB}.
Hypothesis Hascii : digits_extend_ascii.

Lemma mem_ascii cs c : (c < 128)%N -> mem cs c = @mem ascii_db cs c.
Proof.
  intros Hc. induction cs as [lo hi| |a IHa b IHb]; cbn.
  - done.
  - by apply Hascii.
  - by rewrite IHa, IHb.
Qed.

Lemma deriv_ascii r c : (c < 128)%N -> deriv c r = @deriv ascii_db c r.
Proof.
  intros Hc. induction r as [| |cs|r1 IH1 r2 IH2|r1 IH1 r2 IH2|r IH]; cbn.
  - done.
  - done.
  - by rewrite mem_ascii.
  - by rewrite IH1, IH2.
  - by rewrite IH1, IH2.
  - by rewrite IH.
Qed.

(** On ASCII text the result does not depend on the database. *)
Lemma matches_ascii s : forall r,
  Forall (fun c => (c < 128)%N) s -> matches r s = @matches ascii_db r s.
Proof.
  induction s as [|c s IH]; intros r Hs; [done|].
  apply Forall_cons in Hs as [Hc Hs]. cbn.
  rewrite deriv_ascii by done. by apply IH.
Qed.

Lemma strip_newline_ascii s s' :
  strip_newline s = Some s' -> Forall (fun c => (c < 128)%N) s ->
  Forall (fun c => (c < 128)%N) s'.
Proof.
  revert s'. induction s as [|c s IH]; intros s'; [done|].
  cbn. destruct s as [|c' s].
  - destruct (c =? 10)%N; [|done]. intros [= <-] _. constructor.
  - destruct (strip_newline (c' :: s)) as [t|] eqn:E; [|done].
    cbn. intros [= <-] [Hc Hs]%Forall_cons. constructor; [done|].
    by apply IH.
Qed.

Lemma match_anchored_ascii r s :
  Forall (fun c => (c < 128)%N) s ->
  match_anchored r s = @match_anchored ascii_db r s.
Proof.
  intros Hs. unfold match_anchored. rewrite matches_ascii by done.
  destruct (strip_newline s) as [s'|] eqn:E; [|done].
  rewrite (matches_ascii s') by (eapply strip_newline_ascii; eauto). done.
Qed.

Lemma matches_Empty s : matches Empty s = false.
Proof. induction s; [done|]. cbn. done. Qed.

(** A word of [r] cannot start with [c] when no word of [r] does. *)
Lemma match_anchored_head r c s :
  (c < 128)%N -> nullable r = false -> @deriv ascii_db c r = Empty ->
  match_anchored r (c :: s) = false.
Proof.
  intros Hc Hnull Hd. unfold match_anchored.
  cbn [matches]. rewrite deriv_ascii, Hd, matches_Empty by done.
  cbn -[matches]. destruct s as [|c' s].
  - destruct (c =? 10)%N; [|done]. cbn. done.
  - destruct (strip_newline (c' :: s)); [|done].
    cbn. by rewrite deriv_ascii, Hd, matches_Empty.
Qed.
End WithUnicode.
End ReFacts.


Module CTYFacts.
Import Re CTY.
Section WithUnicode.
Context `{UnicodeDB}.

Lemma keys_bounded_empty : keys_bounded empty.
Proof. intros key e. cbn. by rewrite lookup_empty. Qed.

Lemma add_alias_bounded country c_data self pfx self' :
  keys_bounded self -> add_alias country c_data self pfx = Ok self' ->
  keys_bounded self'.
Proof.
  unfold add_alias, re_callsign_match. intros Hinv.
  destruct (match pfx with 61%N :: s' => (Some [61%N], s') | _ => (None, pfx) end)
    as [full s1].
  destruct (span call_char s1) as [[|c cs] s2]; [done|].
  destruct (bracketed 40 41 s2) as [g_cq s3].
  destruct (bracketed 91 93 s3) as [g_itu s4].
  set (l := length (c :: cs)).
  destruct full; intros ?; simplify_eq; intros key e;
    cbn [prf_max prefix exact_callsign].
  - intros Hk%Hinv. destruct (Nat.ltb_spec (prf_max self) l); lia.
  - match goal with
    | |- context [match ?x with Some _ => _ | None => _ end] =>
        destruct x eqn:Hc
    end.
    + intros Hk%Hinv. destruct (Nat.ltb_spec (prf_max self) l); lia.
    + intros Hk. apply lookup_insert_Some in Hk as [[<- _]|[_ Hk%Hinv]].
      * change (length (c :: cs)) with l.
        destruct (Nat.ltb_spec (prf_max self) l); unfold l in *;
          cbn [length] in *; lia.
      * destruct (Nat.ltb_spec (prf_max self) l); lia.
Qed.

Lemma add_aliases_bounded country c_data pfxs : forall self self',
  keys_bounded self -> add_aliases country c_data self pfxs = Ok self' ->
  keys_bounded self'.
Proof.
  induction pfxs as [|pfx pfxs IH]; intros self self' Hinv; cbn.
  - by intros [= <-].
  - destruct (add_alias country c_data self pfx) as [s1|] eqn:E; [|done].
    cbn. apply IH. eapply add_alias_bounded; eauto.
Qed.

Lemma load_bounded blocks : forall self self',
  keys_bounded self -> load self blocks = Ok self' -> keys_bounded self'.
Proof.
  induction blocks as [|[[country c_data] lines] blocks IH];
    intros self self' Hinv; cbn.
  - by intros [= <-].
  - unfold parse_alias_line. cbn.
    rewrite lookup_insert_eq.
    destruct (add_aliases _ _ _ _) as [s1|] eqn:E; [|done].
    cbn. apply IH. eapply add_aliases_bounded; [|exact E]. exact Hinv.
Qed.

(** The scan finds the entry of the longest listed prefix. *)
Lemma scan_longest self callsign k e :
  (1 <= k <= length callsign)%nat ->
  prefix self !! take k callsign = Some e ->
  (forall j, (k < j <= length callsign)%nat ->
             prefix self !! take j callsign = None) ->
  forall n, (k <= n)%nat -> scan_prefixes self callsign n = Some e.
Proof.
  intros Hk He Hlong. induction n as [|n IH]; intros Hn; [lia|].
  cbn [scan_prefixes]. unfold slice_to.
  destruct (decide (n + 1 = k)%nat) as [->|Hne]; [by rewrite He|].
  destruct (decide (n + 1 <= length callsign)%nat).
  - rewrite Hlong by lia. apply IH. lia.
  - rewrite take_ge by lia.
    destruct (decide (k = length callsign)) as [->|].
    + rewrite take_ge in He by lia. by rewrite He.
    + assert (prefix self !! callsign = None) as ->.
      { rewrite <- (take_ge callsign (length callsign)) by lia.
        apply Hlong. lia. }
      apply IH. lia.
Qed.

Lemma scan_none self callsign :
  prefix self !! [] = None ->
  (forall k, (1 <= k <= length callsign)%nat ->
             prefix self !! take k callsign = None) ->
  forall n, scan_prefixes self callsign n = None.
Proof.
  intros Hnil Hnone. induction n as [|n IH]; [done|].
  cbn [scan_prefixes]. unfold slice_to.
  destruct (decide (n + 1 <= length callsign)%nat).
  - rewrite Hnone by lia. exact IH.
  - rewrite take_ge by lia. destruct callsign as [|c cs]; [by rewrite Hnil|].
    assert (prefix self !! (c :: cs) = None) as ->; [|exact IH].
    rewrite <- (take_ge (c :: cs) (length (c :: cs))) by lia.
    apply Hnone. simpl. lia.
Qed.

(** C3.  For a table built by [__init__] and every callsign: the
    entry of the exact table is returned when the callsign is listed
    there; otherwise the entry of the longest prefix of the callsign
    (of length [k >= 1]) listed in the prefix table; and [None] when
    no prefix is listed.  So among the prefixes K, KH6 and KH6Z the
    callsign KH6ZZZ gets the entry of KH6Z, and OE3RSU gets its
    exact entry although the prefix OE is listed too. *)
Theorem callsign_lookup_longest_prefix
    (blocks : list (pystr * Country.t * pystr)) (self : t)
    (callsign : pystr) :
  load empty blocks = Ok self ->
  (forall e, exact_callsign self !! callsign = Some e ->
             callsign_lookup self callsign = Some e) /\
  (exact_callsign self !! callsign = None ->
   (forall k e, (1 <= k <= length callsign)%nat ->
      prefix self !! take k callsign = Some e ->
      (forall j, (k < j <= length callsign)%nat ->
                 prefix self !! take j callsign = None) ->
      callsign_lookup self callsign = Some e) /\
   ((forall k, (1 <= k <= length callsign)%nat ->
               prefix self !! take k callsign = None) ->
    callsign_lookup self callsign = None)) /\
  (prefix sample_table !! lit "K"
     = Some (sample_entry "United States" "05" "08" "NA") /\
   prefix sample_table !! lit "KH6"
     = Some (sample_entry "Hawaii" "31" "61" "OC") /\
   prefix sample_table !! lit "KH6Z"
     = Some (sample_entry "Kure Island" "31" "61" "OC") /\
   callsign_lookup sample_table (lit "KH6ZZZ")
     = Some (sample_entry "Kure Island" "31" "61" "OC") /\
   prefix sample_table !! lit "OE"
     = Some (sample_entry "Austria" "15" "28" "EU") /\
   callsign_lookup sample_table (lit "OE3RSU")
     = Some (sample_entry "Vienna Intl Ctr" "15" "28" "EU")).
Proof.
  intros Hload.
  pose proof (load_bounded _ _ _ keys_bounded_empty Hload) as Hinv.
  split; [|split]; [| |vm_compute; repeat split; reflexivity];
    unfold callsign_lookup.
  { by intros e ->. }
  intros ->. split.
  - intros k e Hk He Hlong. apply (scan_longest _ _ k); [done..|].
    apply Hinv in He. rewrite length_take in He. lia.
  - intros Hnone. apply scan_none; [|done].
    destruct (prefix self !! []) eqn:E; [|done].
    apply Hinv in E. simpl in E. lia.
Qed.
End WithUnicode.

Lemma callsign_lookup_longest_prefix_witness :
  @load ascii_db empty sample_blocks = Ok (@sample_table ascii_db) /\
  (forall e, exact_callsign (@sample_table ascii_db) !! lit "OE3RSU" = Some e ->
             callsign_lookup (@sample_table ascii_db) (lit "OE3RSU") = Some e).
Proof.
  split; [vm_compute; reflexivity|].
  apply (@callsign_lookup_longest_prefix ascii_db sample_blocks
           (@sample_table ascii_db) (lit "OE3RSU")).
  vm_compute. reflexivity.
Defined.
End CTYFacts.

Module ClassifierFacts.
Import Re CTY ReFacts.
Section WithUnicode.
Context `{UnicodeDB}.

Lemma after_caller_ERROR self reply l pm :
  ERROR (after_caller self reply l pm) = ERROR pm.
Proof.
  unfold after_caller.
  repeat case_match; cbn; try done;
    destruct (callsign_lookup self _); done.
Qed.

(** C10.  A result with an error reason carries no caller, country,
    CQ zone, ITU zone, continent, latitude, longitude, UTC offset,
    grid or peer. *)
Theorem error_has_no_identity (self : t) (msg : option pystr) :
  ERROR (parse_wsjtx_decode_msg self msg) <> None ->
  no_identity (parse_wsjtx_decode_msg self msg).
Proof.
  unfold parse_wsjtx_decode_msg, no_identity.
  repeat case_match; rewrite ?after_caller_ERROR; cbn; intros Herr;
    try done; repeat split; reflexivity.
Qed.

Hypothesis Hascii : digits_extend_ascii.

(** A full callsign does not look like a marginal-decode marker. *)
Lemma callsign_not_marginal t :
  match_anchored re_full_callsign t = true ->
  startswith_a t || str_eqb t (lit "?") = false.
Proof.
  intros Hm. destruct t as [|c t]; [done|].
  destruct (decide (c = 97%N)) as [->|Hc].
  { rewrite match_anchored_head in Hm; done. }
  destruct (decide (c = 63%N)) as [->|Hc'].
  { rewrite match_anchored_head in Hm; done. }
  cbn. apply orb_false_iff. split.
  - by apply N.eqb_neq.
  - apply bool_decide_eq_false. intros [= ->]. done.
Qed.

Lemma strip_marginal_keeps_two t1 t2 rest :
  match_anchored re_full_callsign t2 = true ->
  exists rest', strip_marginal (t1 :: t2 :: rest) = t1 :: t2 :: rest'.
Proof.
  intros Hm. unfold strip_marginal.
  destruct rest as [|t3 rest].
  - cbn [last]. rewrite callsign_not_marginal by done. eauto.
  - destruct (last _); [|eauto]. destruct (_ || _); [|eauto].
    exists (removelast (t3 :: rest)). done.
Qed.

Lemma reply_general (self : t) (msg t1 t2 : pystr) (rest : list pystr) :
  split msg = t1 :: t2 :: rest ->
  existsb (N.eqb 59) msg = false ->
  match_anchored re_full_callsign t1 = true ->
  match_anchored re_full_callsign t2 = true ->
  t1 ∉ [lit "CQ"; lit "QRZ"; lit "DE"] ->
  let pm := parse_wsjtx_decode_msg self (Some msg) in
  ERROR pm = None /\ mtype pm = lit "REPLAY" /\
  caller pm = Some t1 /\ peer pm = Some t2 /\
  grid pm = reply_grid (strip_marginal (t1 :: t2 :: rest)) /\
  info_of pm = callsign_lookup self t1.
Proof.
  intros Hsplit Hsemi Hm1 Hm2 Hkw.
  unfold parse_wsjtx_decode_msg.
  destruct msg as [|c0 msg0]; [done|]. rewrite Hsemi, Hsplit.
  destruct (strip_marginal_keeps_two t1 t2 rest Hm2) as [rest' ->].
  cbn [length Nat.ltb Nat.leb].
  assert (str_eqb t1 (lit "CQ") || str_eqb t1 (lit "QRZ")
          || str_eqb t1 (lit "DE") = false) as ->.
  { unfold str_eqb. rewrite !orb_false_iff, !bool_decide_eq_false.
    set_solver. }
  rewrite Hm1. cbn [andb after_caller]. rewrite Hm2.
  unfold reply_grid. cbn [negb orb].
  destruct (callsign_lookup self t1) as [[]|]; destruct rest' as [|g ?];
    cbn; try destruct (_ && _); cbn; done.
Qed.

(** C4 (amended).  For every text without a semicolon whose first two
    tokens match the full-callsign grammar (the first not being CQ,
    QRZ or DE), the classifier returns no error and the reply type,
    spelled ['REPLAY'] in the code, with the first token as caller,
    the second as peer, the grid taken from the third token when it
    is a locator other than RR73, and the caller's table entry.  So
    "KA1ABC WB9XYZ RR73" is a reply from KA1ABC to WB9XYZ without a
    grid. *)
Theorem reply_classification (self : t) (msg t1 t2 : pystr)
    (rest : list pystr) :
  split msg = t1 :: t2 :: rest ->
  existsb (N.eqb 59) msg = false ->
  match_anchored re_full_callsign t1 = true ->
  match_anchored re_full_callsign t2 = true ->
  t1 ∉ [lit "CQ"; lit "QRZ"; lit "DE"] ->
  (let pm := parse_wsjtx_decode_msg self (Some msg) in
   ERROR pm = None /\ mtype pm = lit "REPLAY" /\
   caller pm = Some t1 /\ peer pm = Some t2 /\
   grid pm = reply_grid (strip_marginal (t1 :: t2 :: rest)) /\
   info_of pm = callsign_lookup self t1) /\
  (let pm := parse_wsjtx_decode_msg self (Some (lit "KA1ABC WB9XYZ RR73")) in
   ERROR pm = None /\ mtype pm = lit "REPLAY" /\
   caller pm = Some (lit "KA1ABC") /\ peer pm = Some (lit "WB9XYZ") /\
   grid pm = None).
Proof.
  intros Hsplit Hsemi Hm1 Hm2 Hkw. split; [by apply reply_general|].
  destruct (reply_general self (lit "KA1ABC WB9XYZ RR73")
              (lit "KA1ABC") (lit "WB9XYZ") [lit "RR73"])
    as (He & Hty & Hc & Hp & Hg & _).
  - reflexivity.
  - reflexivity.
  - rewrite match_anchored_ascii; [reflexivity|done|].
    apply (bool_decide_unpack _). vm_compute. exact I.
  - rewrite match_anchored_ascii; [reflexivity|done|].
    apply (bool_decide_unpack _). vm_compute. exact I.
  - apply (bool_decide_unpack _). vm_compute. exact I.
  - cbv zeta. repeat split; try done. rewrite Hg.
    change (strip_marginal [lit "KA1ABC"; lit "WB9XYZ"; lit "RR73"])
      with [lit "KA1ABC"; lit "WB9XYZ"; lit "RR73"].
    unfold reply_grid.
    change (str_eqb (lit "RR73") (lit "RR73")) with true.
    by rewrite andb_false_r.
Qed.
End WithUnicode.

Lemma error_has_no_identity_witness :
  ERROR (@parse_wsjtx_decode_msg ascii_db empty (Some (lit "CQ"))) <> None /\
  no_identity (@parse_wsjtx_decode_msg ascii_db empty (Some (lit "CQ"))).
Proof.
  split; [vm_compute; discriminate|].
  apply (@error_has_no_identity ascii_db empty (Some (lit "CQ"))).
  vm_compute. discriminate.
Defined.

Lemma reply_classification_witness :
  split (lit "KA1ABC WB9XYZ EN34")
    = [lit "KA1ABC"; lit "WB9XYZ"; lit "EN34"] /\
  (let pm := @parse_wsjtx_decode_msg ascii_db (@sample_table ascii_db)
               (Some (lit "KA1ABC WB9XYZ EN34")) in
   ERROR pm = None /\ mtype pm = lit "REPLAY" /\
   caller pm = Some (lit "KA1ABC") /\ peer pm = Some (lit "WB9XYZ") /\
   grid pm = @reply_grid ascii_db
               (strip_marginal [lit "KA1ABC"; lit "WB9XYZ"; lit "EN34"]) /\
   info_of pm = callsign_lookup (@sample_table ascii_db) (lit "KA1ABC")).
Proof.
  split; [vm_compute; reflexivity|].
  apply (@reply_classification ascii_db ascii_db_extends
           (@sample_table ascii_db) (lit "KA1ABC WB9XYZ EN34")
           (lit "KA1ABC") (lit "WB9XYZ") [lit "EN34"]).
  - vm_compute. reflexivity.
  - vm_compute. reflexivity.
  - vm_compute. reflexivity.
  - vm_compute. reflexivity.
  - apply (bool_decide_unpack _). vm_compute. exact I.
Defined.

(** C4, as stated, fails: the first two tokens of "KA1ABC WB9XYZ ;"
    are full callsigns, yet the text has a semicolon and the
    classifier rejects it: the type stays ['UNKNOWN'] and no caller
    is extracted.  (The text is ASCII, so the database does not
    matter.) *)
Lemma semicolon_text_is_rejected :
  let msg := lit "KA1ABC WB9XYZ ;" in
  let pm := @parse_wsjtx_decode_msg ascii_db empty (Some msg) in
  split msg = [lit "KA1ABC"; lit "WB9XYZ"; lit ";"] /\
  @match_anchored ascii_db (@re_full_callsign) (lit "KA1ABC") = true /\
  @match_anchored ascii_db (@re_full_callsign) (lit "WB9XYZ") = true /\
  ERROR pm = Some (lit "Unknown message: KA1ABC WB9XYZ ;") /\
  mtype pm = lit "UNKNOWN" /\ caller pm = None /\ peer pm = None.
Proof. vm_compute. repeat split; reflexivity. Qed.
End ClassifierFacts.
Module AggregationFacts.
Import Data_Server.

Lemma round_div_nearest a b :
  b <> 0 -> exists m, round_div a b = Ok m /\ nearest m a b.
Proof.
  intros Hb. unfold round_div.
  destruct (Z.eqb_spec b 0) as [|_]; [done|].
  assert (forall a b, 0 < b ->
    exists m, (let q := a / b in let r := a mod b in
       if 2 * r <? b then q else if b <? 2 * r then q + 1
       else if Z.even q then q else q + 1) = m /\ nearest m a b) as Hpos.
  { clear. intros a b Hb. eexists. split; [reflexivity|]. cbv zeta.
    pose proof (Z.div_mod a b ltac:(lia)) as Hdm.
    pose proof (Z.mod_pos_bound a b Hb) as Hr.
    set (q := a / b) in *. set (r := a mod b) in *. clearbody q r.
    unfold nearest.
    destruct (Z.ltb_spec (2 * r) b); [split; [nia|nia]|].
    destruct (Z.ltb_spec b (2 * r)); [split; [nia|nia]|].
    destruct (Z.even q) eqn:Ev; [split; [nia|done]|].
    split; [nia|]. intros _. rewrite Z.even_add, Ev. done. }
  destruct (Z.ltb_spec b 0).
  - destruct (Hpos (- a) (- b) ltac:(lia)) as (m & Hm & [Hn1 Hn2]).
    exists m. split; [by rewrite <- Hm|].
    unfold nearest. replace (m * b - a) with (- (m * - b - - a)) by ring.
    rewrite Z.abs_opp. rewrite Z.abs_opp in Hn1, Hn2. done.
  - destruct (Hpos a b ltac:(lia)) as (m & Hm & Hn).
    exists m. split; [by rewrite <- Hm|done].
Qed.

Lemma add_counts_lookup (src dst : gmap pystr Z) (k : pystr) :
  add_counts src dst !! k = counts_sum (dst !! k) (src !! k).
Proof.
  unfold add_counts. revert k.
  apply (map_fold_weak_ind
           (fun r m => forall k, r !! k = counts_sum (dst !! k) (m !! k))).
  - intros k. rewrite lookup_empty. by destruct (dst !! k).
  - intros i x m r Hi IH k.
    destruct (decide (i = k)) as [->|Hne].
    + rewrite !lookup_insert_eq, IH, Hi. by destruct (dst !! k).
    + rewrite !lookup_insert_ne by done. apply IH.
Qed.

(** When the minute already has a bucket, the minute loop writes the
    merged bucket. *)
Lemma minutes_loop_merges monitor band mt r r' dbrec recs m d :
  set_mean r = Ok r' ->
  fetch_in_minutes d monitor band mt mt = dbrec :: recs ->
  merge_minute dbrec r' = Ok m ->
  minutes_loop monitor band [(mt, r)] d
    = (db_upsert_minute m d, Ok [(mt, r')]).
Proof.
  intros Hr Hf Hm. cbn [minutes_loop].
  unfold mbind, M_bind, lift, read_minutes, upsert_minute, mret, M_ret.
  rewrite Hr, Hf, Hm. done.
Qed.



Lemma group_no_caller data : forall st,
  Forall (fun m => Monitor_Message.caller m = None) data ->
  fold_left add_message data st = st.
Proof.
  induction data as [|m data IH]; intros st Hall; [done|].
  apply Forall_cons in Hall as [Hm Hall]. cbn [fold_left].
  unfold add_message at 2. destruct st as [[minutes b] e]. rewrite Hm.
  by apply IH.
Qed.

Lemma upsert_fresh {A} (same : A -> A -> bool) data tb :
  existsb (same data) tb = false -> upsert same data tb = tb ++ [data].
Proof. unfold upsert. by intros ->. Qed.

Lemma len_zero {A} (l : list A) : (len l =? 0) = bool_decide (l = []).
Proof. destruct l; cbn; [done|]. unfold len. cbn. done. Qed.

Lemma idle_minute_fresh d monitor band m0 :
  fetch_in_minutes d monitor band m0 m0 = [] -> m0 mod 60 = 0 ->
  existsb (same_minute (idle_minute monitor band m0)) (tb_minutes d) = false.
Proof.
  unfold fetch_in_minutes, db_read_minutes. intros Hf Hm. rewrite Hm in Hf.
  cbn in Hf. induction (tb_minutes d) as [|r tb IH]; [done|].
  cbn. rewrite filter_cons in Hf. case_decide as Hr; [done|].
  rewrite IH by done. rewrite orb_false_r.
  unfold same_minute. cbn.
  destruct (Z.eqb_spec m0 (Minutes_Record.ctime r)); [|done].
  repeat case_bool_decide; try done. destruct Hr. split; [lia|done].
Qed.

Lemma dict_set_not_nil {V} (d : list (Z * V)) k v : dict_set d k v <> [].
Proof. destruct d as [|[k' v'] d]; cbn; [done|]. by destruct (k' =? k). Qed.

Lemma hr_db_nil (recs : list Hours_Record.t) :
  (len (fold_left (fun hr_db r => dict_set hr_db (Hours_Record.ctime r) r)
          recs []) =? 0) = bool_decide (recs = []).
Proof.
  rewrite len_zero. destruct recs as [|r recs]; [done|].
  transitivity false; [|symmetry; by apply bool_decide_eq_false].
  apply bool_decide_eq_false.
  cbn [fold_left]. generalize (dict_set_not_nil [] (Hours_Record.ctime r) r).
  generalize (dict_set [] (Hours_Record.ctime r) r).
  induction recs as [|r' recs IH]; intros acc Hacc; [done|].
  cbn [fold_left]. apply IH, dict_set_not_nil.
Qed.

(** The minutes part, when no message has a caller. *)
Lemma save_minutes_idle now monitor band data d :
  Forall (fun m => Monitor_Message.caller m = None) data ->
  let m0 := now - now mod 60 in
  save_minutes now monitor band data d =
    (if bool_decide (fetch_in_minutes d monitor band m0 m0 = [])
     then db_upsert_minute (idle_minute monitor band m0) d else d,
     Ok ([], m0)).
Proof.
  intros Hall m0. unfold save_minutes, group_messages.
  rewrite group_no_caller by done. change (len [] =? 0) with true.
  cbv iota beta. fold m0.
  unfold mbind, M_bind, read_minutes. rewrite len_zero.
  by case_bool_decide.
Qed.

(** The hours part, when there was no minute group. *)
Lemma save_hours_idle monitor band m d :
  let h := m - m mod 3600 in
  save_hours monitor band [] m d =
    (if bool_decide (fetch_in_hours d monitor band h h = [])
     then db_upsert_hour (idle_hour monitor band h) d else d,
     Ok tt).
Proof.
  intros h. unfold save_hours. fold h.
  unfold mbind, M_bind, read_hours, lift. cbn [fill_hours].
  change (len [] =? 0) with true. cbv iota beta.
  rewrite hr_db_nil. by case_bool_decide.
Qed.



(** C2.  One message of 02:00:10 is ingested, then a batch with a
    message of 01:59:50 and another of 02:00:11.  The minute bucket
    of 02:00 now counts 2 messages; the hour bucket of 02:00, read
    for the first hour of the batch only, was taken to be missing and
    written anew with total 1. *)
Theorem hour_total_lags_minutes :
  let d := ingest 7300 [heard 7190 (-5) "KA1ABC"; heard 7211 3 "WB9XYZ"]
             (ingest 7230 [heard 7210 (-5) "KA1ABC"] empty_db) in
  minutes_total_in_hour d (lit "ft8mon") (lit "50.313") 7200 = 2 /\
  hour_total d (lit "ft8mon") (lit "50.313") 7200 = Some 1 /\
  minutes_total_in_hour d (lit "ft8mon") (lit "50.313") 3600 = 1 /\
  hour_total d (lit "ft8mon") (lit "50.313") 3600 = Some 1.
Proof. vm_compute. repeat split; reflexivity. Qed.
End AggregationFacts.

(** ** More on the codec: elements, header checks, constructor *)

Module CodecExtras.
Import Struct Codec CodecFacts RoundTrip.

Lemma be_decode_bound bs : (be_decode bs < 256 ^ N.of_nat (length bs))%N.
Proof.
  induction bs as [|b bs IH]; [cbn; lia|].
  cbn [be_decode length]. rewrite Nat2N.inj_succ, N.pow_succ_r'.
  pose proof (Byte.to_N_bounded b). nia.
Qed.

Lemma be_encode_high k : forall a m,
  be_encode k (a * 256 ^ N.of_nat k + m)%N = be_encode k m.
Proof.
  induction k as [|k IH]; intros a m; [done|].
  cbn [be_encode]. f_equal.
  - unfold byte_of_N. do 2 f_equal.
    rewrite Nat2N.inj_succ, N.pow_succ_r'.
    replace (a * (256 * 256 ^ N.of_nat k) + m)%N
      with (m + (a * 256) * 256 ^ N.of_nat k)%N by lia.
    rewrite N.div_add by (apply N.pow_nonzero; lia).
    by rewrite N.Div0.mod_add.
  - rewrite Nat2N.inj_succ, N.pow_succ_r'.
    replace (a * (256 * 256 ^ N.of_nat k))%N
      with ((a * 256) * 256 ^ N.of_nat k)%N by lia.
    apply IH.
Qed.

Lemma be_encode_decode bs : be_encode (length bs) (be_decode bs) = bs.
Proof.
  induction bs as [|b bs IH]; [done|].
  cbn [length be_encode be_decode]. f_equal.
  - pose proof (be_decode_bound bs).
    rewrite N.div_add_l by (apply N.pow_nonzero; lia).
    rewrite N.div_small, N.add_0_r by done.
    apply Utf8Facts.byte_of_to_N.
  - by rewrite be_encode_high.
Qed.

Lemma modulus_pow f : modulus f = Z.of_N (256 ^ N.of_nat (calcsize f)).
Proof. by destruct f. Qed.

(** [pack] gives back the bytes that [unpack] has read. *)
Lemma pack_unpack_int f b z : unpack_int f b = Ok z -> pack_int f z = Ok b.
Proof.
  intros [L ->]%unpack_int_ok. unfold pack_int, int_in_range, int_of_bytes.
  pose proof (be_decode_bound b) as Hb. rewrite L in Hb.
  pose proof (modulus_pow f) as HM.
  set (u := Z.of_N (be_decode b)) in *.
  assert (0 <= u < modulus f) as Hu by (unfold u; lia).
  assert (Z.to_N ((if is_signed f && (modulus f <=? 2 * u)
                   then u - modulus f else u) mod modulus f)
          = be_decode b) as Hmod.
  { destruct (is_signed f && (modulus f <=? 2 * u)).
    - replace (u - modulus f) with (u + (-1) * modulus f) by lia.
      rewrite Z.mod_add, Z.mod_small by lia. unfold u. lia.
    - rewrite Z.mod_small by lia. unfold u. lia. }
  unfold bytes_of_int. rewrite Hmod, <- L, be_encode_decode.
  destruct (is_signed f); cbn [andb].
  - destruct (Z.leb_spec (modulus f) (2 * u)).
    + replace ((- modulus f <=? 2 * (u - modulus f))
               && (2 * (u - modulus f) <? modulus f)) with true; [done|].
      symmetry. apply andb_true_intro. split; [apply Z.leb_le|apply Z.ltb_lt]; lia.
    + replace ((- modulus f <=? 2 * u) && (2 * u <? modulus f)) with true;
        [done|].
      symmetry. apply andb_true_intro. split; [apply Z.leb_le|apply Z.ltb_lt]; lia.
  - replace ((0 <=? u) && (u <? modulus f)) with true; [done|].
    symmetry. apply andb_true_intro. split; [apply Z.leb_le|apply Z.ltb_lt]; lia.
Qed.

Lemma in_range_unsigned f z :
  is_signed f = false -> 0 <= z < modulus f -> int_in_range f z = true.
Proof.
  unfold int_in_range. intros -> Hz. apply andb_true_intro.
  split; [apply Z.leb_le|apply Z.ltb_lt]; lia.
Qed.

Lemma in_range_B z : 0 <= z < 256 -> int_in_range fmt_B z = true.
Proof. intros Hz. by apply (in_range_unsigned fmt_B). Qed.
Lemma in_range_H z : 0 <= z < 65536 -> int_in_range fmt_H z = true.
Proof. intros Hz. by apply (in_range_unsigned fmt_H). Qed.
Lemma in_range_L z : 0 <= z < 4294967296 -> int_in_range fmt_L z = true.
Proof. intros Hz. by apply (in_range_unsigned fmt_L). Qed.

Lemma pack_int_ok f z :
  int_in_range f z = true -> exists b, pack_int f z = Ok b.
Proof. unfold pack_int. intros ->. eauto. Qed.


(** X2.  An ASCII string shorter than the null sentinel is written as
    its length and its characters, [4 + len] bytes, and read back from
    them whatever follows; [serialization_size] is the number of bytes
    written. *)
Theorem utf8_string_ascii_roundtrip (s : pystr) (rest : bytes) :
  ascii s -> len s < 0xFFFFFFFF ->
  exists b,
    UTF8_String.serialize (Some s) = Ok b /\
    length b = (4 + length s)%nat /\
    UTF8_String.deserialize (b ++ rest) = Ok (Some s) /\
    UTF8_String.serialization_size (Some s) = Ok (length b).
Proof.
  intros Ha Hl.
  destruct (pack_int_ok fmt_L (len s)) as [hd Hhd].
  { apply in_range_L. unfold len in *. lia. }
  assert (UTF8_String.serialize (Some s)
          = Ok (hd ++ pack_s (Z.to_nat (len s)) (byte_of_N <$> s))) as Hb.
  { unfold UTF8_String.serialize. rewrite (encode_ascii s Ha).
    cbn [mbind result_bind]. by rewrite Hhd. }
  eexists. split; [exact Hb|].
  destruct (utf8_string_roundtrip s _ rest Ha Hl Hb) as (_ & Hd & Hs).
  split; [|done].
  apply unpack_pack_int in Hhd as [L _]. cbn [calcsize] in L.
  unfold pack_s, len. rewrite Nat2Z.id, length_app, length_app, L.
  rewrite length_take, length_fmap, repeat_length. lia.
Qed.

Lemma utf8_string_ascii_roundtrip_witness :
  ascii (lit "FT8") /\ len (lit "FT8") < 0xFFFFFFFF /\
  exists b,
    UTF8_String.serialize (Some (lit "FT8")) = Ok b /\
    length b = (4 + length (lit "FT8"))%nat /\
    UTF8_String.deserialize (b ++ [x00]) = Ok (Some (lit "FT8")) /\
    UTF8_String.serialization_size (Some (lit "FT8")) = Ok (length b).
Proof.
  assert (ascii (lit "FT8")) as Ha by (repeat constructor).
  assert (len (lit "FT8") < 0xFFFFFFFF) as Hl by reflexivity.
  split; [exact Ha|]. split; [exact Hl|].
  exact (utf8_string_ascii_roundtrip (lit "FT8") [x00] Ha Hl).
Defined.

(** X3.  A colour whose [spec] fits a byte and whose components fit
    16 bits is written as 11 bytes and read back from them, whatever
    follows. *)
Theorem qcolor_roundtrip_in_range (c : QColor.t) (rest : bytes) :
  0 <= QColor.spec c < 256 ->
  0 <= QColor.alpha c < 65536 -> 0 <= QColor.red c < 65536 ->
  0 <= QColor.green c < 65536 -> 0 <= QColor.blue c < 65536 ->
  exists b,
    QColor.serialize c = Ok b /\ length b = 11%nat /\
    QColor.deserialize (b ++ rest) = Ok c.
Proof.
  intros Hs Ha Hr Hg Hb.
  assert (forall z, 0 <= z < 65536 -> exists b, pack_int fmt_H z = Ok b) as H16.
  { intros z Hz. by apply pack_int_ok, in_range_H. }
  destruct (pack_int_ok fmt_B (QColor.spec c)) as [sb Hsb];
    [by apply in_range_B|].
  destruct (H16 _ Ha) as [ab Hab], (H16 _ Hr) as [rb Hrb],
    (H16 _ Hg) as [gb Hgb], (H16 _ Hb) as [bb Hbb].
  destruct (H16 0) as [zb Hzb]; [lia|].
  assert (QColor.serialize c = Ok (sb ++ ab ++ rb ++ gb ++ bb ++ zb)) as Hser.
  { unfold QColor.serialize. rewrite Hsb. cbn [mbind result_bind].
    rewrite Hab. cbn [mbind result_bind]. rewrite Hrb.
    cbn [mbind result_bind]. rewrite Hgb. cbn [mbind result_bind].
    rewrite Hbb. cbn [mbind result_bind]. by rewrite Hzb. }
  eexists. split; [exact Hser|]. exact (qcolor_roundtrip c _ rest Hser).
Qed.

Lemma qcolor_roundtrip_in_range_witness :
  exists b,
    QColor.serialize QColor.color_red = Ok b /\ length b = 11%nat /\
    QColor.deserialize (b ++ [x01]) = Ok QColor.color_red.
Proof.
  apply (qcolor_roundtrip_in_range QColor.color_red [x01]);
    vm_compute; split; congruence.
Defined.

(** X4.  [QColor.deserialize] raises [struct.error] on fewer than 11
    bytes.  On 11 bytes or more it reads the first 11 and returns a
    colour; written again, that colour gives the first 9 bytes back,
    followed by two null bytes in place of the last field, which is
    not kept. *)
Theorem qcolor_deserialize_then_serialize (b : bytes) :
  ((length b < 11)%nat -> QColor.deserialize b = Raise StructError) /\
  ((11 <= length b)%nat ->
   exists c, QColor.deserialize b = Ok c /\
     QColor.serialize c = Ok (take 9 b ++ [x00; x00])).
Proof.
  unfold QColor.deserialize, QColor.unpack_BHHHHH, slice_to,
    QColor.serialization_size.
  change firstn with (@take byte). change skipn with (@drop byte).
  split; intros Hl.
  - rewrite length_take.
    replace (11 `min` length b =? 11)%nat with false; [reflexivity|].
    symmetry. apply Nat.eqb_neq. lia.
  - assert (length (take 11 b) = 11%nat) as L by (rewrite length_take; lia).
    rewrite L. cbn [Nat.eqb mbind result_bind]. eexists. split; [done|].
    assert (take 9 b = take 9 (take 11 b)) as ->
      by (rewrite take_take; f_equal; lia).
    generalize dependent (take 11 b). intros l L. explode.
    cbn [take drop app]. unfold QColor.serialize. cbn [QColor.spec QColor.alpha QColor.red QColor.green QColor.blue].
    repeat match goal with
    | |- context [pack_int ?f (int_of_bytes ?f ?l)] =>
        rewrite (pack_unpack_int f l _ eq_refl); cbn [mbind result_bind]
    end.
    reflexivity.
Qed.

Lemma qcolor_deserialize_then_serialize_witness :
  ((length [x01; x02] < 11)%nat ->
   QColor.deserialize [x01; x02] = Raise StructError) /\
  ((11 <= length (repeat x07 12))%nat ->
   exists c, QColor.deserialize (repeat x07 12) = Ok c /\
     QColor.serialize c = Ok (take 9 (repeat x07 12) ++ [x00; x00])).
Proof.
  split.
  - exact (proj1 (qcolor_deserialize_then_serialize [x01; x02])).
  - exact (proj2 (qcolor_deserialize_then_serialize (repeat x07 12))).
Defined.


Lemma formats_calcsize n f :
  Optional_Quint.formats n = Ok f -> calcsize f = n.
Proof.
  destruct n as [|[|[|[|[|[|[|[|[|n]]]]]]]]]; cbn; intros [=]; subst; done.
Qed.

(** X5.  What [Optional_Quint.deserialize] returns is written back as
    the bytes it was read from: nothing for a null value, the [length]
    bytes otherwise; [serialization_size] is their number. *)
Theorem optional_quint_reserializes (dbytes : bytes) (n : nat)
    (o : Optional_Quint.t) :
  Optional_Quint.deserialize dbytes n = Ok o ->
  Optional_Quint.serialize o = Ok dbytes /\
  Optional_Quint.serialization_size o = Ok (length dbytes).
Proof.
  unfold Optional_Quint.deserialize.
  destruct (len dbytes =? 0) eqn:E.
  - apply len_nil_iff in E as ->. intros [= <-]. done.
  - intros (v & Hv & [= <-])%bind_ok.
    apply bind_ok in Hv as (f & Hf & Hv).
    apply bind_ok in Hv as (z & Hz & [= <-]).
    unfold Optional_Quint.serialize, Optional_Quint.serialization_size.
    cbn [Optional_Quint.value Optional_Quint.size]. rewrite Hf.
    cbn [mbind result_bind]. rewrite (pack_unpack_int _ _ _ Hz).
    apply unpack_int_length in Hz. apply formats_calcsize in Hf.
    split; [done|]. congruence.
Qed.

Lemma optional_quint_reserializes_witness :
  Optional_Quint.deserialize [x01] 1
    = Ok {| Optional_Quint.value := Some 1;
            Optional_Quint.size := Some 1%nat |} /\
  Optional_Quint.serialize
    {| Optional_Quint.value := Some 1; Optional_Quint.size := Some 1%nat |}
    = Ok [x01] /\
  Optional_Quint.serialization_size
    {| Optional_Quint.value := Some 1; Optional_Quint.size := Some 1%nat |}
    = Ok (length [x01]).
Proof.
  split; [reflexivity|].
  exact (optional_quint_reserializes [x01] 1 _ eq_refl).
Defined.

(** [Optional_Quint.deserialize] returns exactly when the buffer
    is empty, or has [length] bytes with [length] one of 1, 4 and 8:
    it unpacks the whole buffer it is given, not its first [length]
    bytes. *)
Theorem optional_quint_accepts (dbytes : bytes) (n : nat) :
  is_ok (Optional_Quint.deserialize dbytes n)
  = bool_decide (dbytes = [] \/
                 (length dbytes = n /\ (n = 1 \/ n = 4 \/ n = 8)%nat)).
Proof.
  unfold Optional_Quint.deserialize.
  destruct dbytes as [|b bs].
  - symmetry. rewrite bool_decide_eq_true_2 by (by left). reflexivity.
  - change (len (b :: bs) =? 0) with false.
    unfold unpack_int.
    destruct (Optional_Quint.formats n) as [f|e] eqn:Hf.
    + pose proof (formats_calcsize _ _ Hf) as Hc. cbn [mbind result_bind].
      destruct (Nat.eqb_spec (length (b :: bs)) (calcsize f)) as [E|E];
        cbn [mbind result_bind is_ok]; symmetry.
      * apply bool_decide_eq_true_2. right. split; [congruence|].
        destruct f; cbn in Hc; try lia;
          destruct n as [|[|[|[|[|[|[|[|[|n]]]]]]]]]; done.
      * apply bool_decide_eq_false_2. intros [?|[? _]]; [done|]. congruence.
    + cbn [mbind result_bind is_ok]. symmetry.
      apply bool_decide_eq_false_2. intros [?|[_ Hn]]; [done|].
      destruct Hn as [->|[->| ->]]; done.
Qed.

(** X6.  Whatever [QDateTime.deserialize] returns has no offset and a
    [timespec] other than 2, was read from the first 13 bytes, and is
    written back as those 13 bytes. *)
Theorem qdatetime_decodes_without_offset (dbytes : bytes) (q : QDateTime.t) :
  QDateTime.deserialize dbytes = Ok q ->
  QDateTime.timespec q <> 2 /\ QDateTime.offset q = None /\
  QDateTime.serialization_size q = 13%nat /\
  (13 <= length dbytes)%nat /\
  QDateTime.serialize q = Ok (take 13 dbytes).
Proof.
  intros Hd. destruct (qdatetime_never_timezone _ _ Hd) as [Hts Ho].
  split; [done|]. split; [done|].
  unfold QDateTime.serialization_size. rewrite Ho. split; [done|].
  unfold QDateTime.deserialize in Hd.
  apply bind_ok in Hd as ([[dt tm] ts] & Hu & Hq).
  unfold QDateTime.unpack_qLB, slice_to in Hu.
  change firstn with (@take byte) in Hu. change skipn with (@drop byte) in Hu.
  destruct (Nat.eqb_spec (length (take 13 dbytes)) 13) as [L|]; [|done].
  injection Hu as <- <- <-.
  split; [rewrite length_take in L; lia|].
  apply bind_ok in Hq as (off & Hoff & Hq).
  unfold QDateTime.init in Hq. apply bind_ok in Hq as ([] & _ & Hq).
  destruct (_ && _) in Hq; [done|]. injection Hq as <-.
  unfold QDateTime.serialize.
  cbn [QDateTime.date QDateTime.time QDateTime.timespec QDateTime.offset] in *.
  subst off. generalize dependent (take 13 dbytes). intros l _ _ L. explode.
  cbn [take drop].
  repeat match goal with
  | |- context [pack_int ?f (int_of_bytes ?f ?l)] =>
      rewrite (pack_unpack_int f l _ eq_refl); cbn [mbind result_bind]
  end.
  reflexivity.
Qed.

Lemma qdatetime_decodes_without_offset_witness :
  let q := {| QDateTime.date := 2460165; QDateTime.time := 0;
              QDateTime.timespec := 1; QDateTime.offset := None |} in
  QDateTime.deserialize datetime_utc = Ok q /\
  QDateTime.serialize q = Ok (take 13 datetime_utc).
Proof.
  cbv zeta. split; [reflexivity|].
  exact (proj2 (proj2 (proj2 (proj2
    (qdatetime_decodes_without_offset datetime_utc _ eq_refl))))).
Defined.


Lemma in_range_q z :
  - 2 ^ 63 <= z < 2 ^ 63 -> int_in_range fmt_q z = true.
Proof.
  intros Hz. unfold int_in_range. cbn [is_signed].
  change (modulus fmt_q) with (2 * 2 ^ 63).
  apply andb_true_intro. split; [apply Z.leb_le|apply Z.ltb_lt]; lia.
Qed.

(** X7.  A date-time without offset whose [timespec] is not 2, with a
    date of 64 bits, a time of 32 bits and a [timespec] of one byte,
    is written as 13 bytes and read back from them, whatever
    follows. *)
Theorem qdatetime_roundtrip_in_range (q : QDateTime.t) (rest : bytes) :
  QDateTime.offset q = None -> QDateTime.timespec q <> 2 ->
  - 2 ^ 63 <= QDateTime.date q < 2 ^ 63 ->
  0 <= QDateTime.time q < 2 ^ 32 ->
  0 <= QDateTime.timespec q < 256 ->
  exists b,
    QDateTime.serialize q = Ok b /\ length b = 13%nat /\
    QDateTime.deserialize (b ++ rest) = Ok q.
Proof.
  intros Ho Hts Hd Ht Hs.
  destruct (pack_int_ok fmt_q (QDateTime.date q)) as [db Hdb];
    [by apply in_range_q|].
  destruct (pack_int_ok fmt_L (QDateTime.time q)) as [tb Htb];
    [by apply in_range_L|].
  destruct (pack_int_ok fmt_B (QDateTime.timespec q)) as [sb Hsb];
    [by apply in_range_B|].
  assert (QDateTime.serialize q = Ok (db ++ tb ++ sb)) as Hser.
  { unfold QDateTime.serialize. rewrite Hdb. cbn [mbind result_bind].
    rewrite Htb. cbn [mbind result_bind]. rewrite Hsb.
    cbn [mbind result_bind]. by rewrite Ho. }
  eexists. split; [exact Hser|].
  exact (qdatetime_roundtrip q _ rest Ho Hts Hser).
Qed.

Lemma qdatetime_roundtrip_in_range_witness :
  let q := {| QDateTime.date := 2460165; QDateTime.time := 43200000;
              QDateTime.timespec := 1; QDateTime.offset := None |} in
  exists b,
    QDateTime.serialize q = Ok b /\ length b = 13%nat /\
    QDateTime.deserialize (b ++ [x2a]) = Ok q.
Proof.
  cbv zeta.
  apply (qdatetime_roundtrip_in_range
           {| QDateTime.date := 2460165; QDateTime.time := 43200000;
              QDateTime.timespec := 1; QDateTime.offset := None |} [x2a]);
    cbn; (reflexivity || lia).
Defined.

Lemma eq_int_true x z : eq_int x z = Ok true -> x = Some (VInt z).
Proof.
  destruct x as [[]|]; cbn; try done. intros [= ->%Z.eqb_eq]. done.
Qed.

Lemma int_ge_true z x :
  int_ge z x = Ok true -> exists y, x = Some (VInt y) /\ y <= z.
Proof.
  destruct x as [[]|]; cbn; try done. intros [= ?%Z.leb_le]. eauto.
Qed.

Lemma check_header_ok c v1 v2 v3 :
  check_header c v1 v2 v3 = Ok tt ->
  v1 = Some (VInt magic) /\
  (exists y, v2 = Some (VInt y) /\ y <= schema_version_number) /\
  (forall ty, class_type c = Some ty -> v3 = Some (VInt ty)).
Proof.
  unfold check_header. intros (m & Hm & H)%bind_ok.
  apply bind_ok in H as ([] & Ham & H). apply bind_ok in H as (v & Hv & H).
  apply bind_ok in H as ([] & Hav & H).
  destruct m; [|done]. destruct v; [|done].
  split; [by apply eq_int_true|]. split; [by apply int_ge_true|].
  intros ty Hty. rewrite Hty in H.
  apply bind_ok in H as ([] & He & Ha); [|done]. by apply eq_int_true.
Qed.

Lemma deserialize_fmt_inv name f l F b name' v kw :
  deserialize ((name, (Fmt f, l)) :: F) b = Ok ((name', Some v) :: kw) ->
  b <> [] /\ unpack f (take l b) = Ok v /\ deserialize F (drop l b) = Ok kw.
Proof.
  destruct b as [|b0 b].
  - rewrite deserialize_nil. cbn. intros [=].
  - rewrite deserialize_fmt by done.
    intros (w & Hw & H)%bind_ok.
    apply bind_ok in H as (kw' & Hkw & [= <- <- <-]). done.
Qed.

(** X8.  A buffer that [from_bytes] accepts starts with the four bytes
    [ad bc cb da]; the telegram carries the magic number and a schema
    version from 0 to 3. *)
Theorem from_bytes_checks_header (B : bytes) (tel : telegram) :
  from_bytes B = Ok tel ->
  take 4 B = bytes_of_N_list [0xad; 0xbc; 0xcb; 0xda]%N /\
  dict_get (tel_attrs tel) "magic" = Some (Some (VInt magic)) /\
  exists v,
    dict_get (tel_attrs tel) "version_number" = Some (Some (VInt v)) /\
    0 <= v <= schema_version_number.
Proof.
  intros (v1 & v2 & v3 & v4 & kw' & Ha & Hd & Hc0 & _ & _)%from_bytes_ok.
  apply check_header_ok in Hc0 as (-> & (y & -> & Hy) & _).
  apply deserialize_base in Hd. rewrite Ha in Hd. cbn [take header] in Hd.
  rewrite Ha. cbn [dict_get header String.eqb Ascii.eqb Bool.eqb].
  change (format WSJTX_Telegram)
    with (("magic"%string, (Fmt fmt_L, 4%nat))
          :: ("version_number"%string, (Fmt fmt_L, 4%nat))
          :: [("type"%string, quint32); ("id"%string, qutf8)]) in Hd.
  apply deserialize_fmt_inv in Hd as (Hne & Hw1 & Hd).
  apply deserialize_fmt_inv in Hd as (_ & Hw2 & _).
  cbn [unpack] in Hw1, Hw2.
  apply bind_ok in Hw1 as (z1 & Hz1 & [= Hz1']).
  apply bind_ok in Hw2 as (z2 & Hz2 & [= Hz2']).
  apply unpack_int_ok in Hz1 as [L Hz1]. apply unpack_int_ok in Hz2 as [_ Hz2].
  subst z1 z2. unfold int_of_bytes in *. cbn [is_signed andb] in *.
  split; [|split; [done|]].
  - rewrite <- (be_encode_decode (take 4 B)), L.
    replace (be_decode (take 4 B)) with (Z.to_N magic) by lia.
    reflexivity.
  - exists y. split; [done|]. lia.
Qed.

Lemma from_bytes_checks_header_witness :
  is_ok (from_bytes clearmsg) = true /\
  take 4 clearmsg = bytes_of_N_list [0xad; 0xbc; 0xcb; 0xda]%N.
Proof.
  split; [reflexivity|].
  destruct (from_bytes clearmsg) as [tel|] eqn:E; [|discriminate].
  exact (proj1 (from_bytes_checks_header clearmsg tel E)).
Defined.

(** X9.  A telegram that [from_bytes] returns has one attribute for
    each field of its class's format, in order, and its class is the
    one registered for its type tag; with a tag that is null or not
    registered it is a plain [WSJTX_Telegram]. *)
Theorem from_bytes_dispatch (B : bytes) (tel : telegram) :
  from_bytes B = Ok tel ->
  (tel_attrs tel).*1 = (format (tel_class tel)).*1 /\
  exists ty,
    dict_get (tel_attrs tel) "type" = Some ty /\
    match type_registry ty with
    | Some c => tel_class tel = c /\ ty = (VInt <$> class_type c)
    | None => tel_class tel = WSJTX_Telegram
    end.
Proof.
  intros (v1 & v2 & v3 & v4 & kw' & Ha & Hd & _ & Hc & Hr)%from_bytes_ok.
  split; [by eapply deserialize_names|].
  exists v3. rewrite Ha. split; [reflexivity|].
  destruct Hr as [Hr|[Hr ->]]; rewrite Hr; [|done]. split; [done|].
  apply check_header_ok in Hc as (_ & _ & Hty).
  destruct (class_type (tel_class tel)) as [ty|] eqn:E.
  - by rewrite (Hty ty).
  - exfalso. destruct (tel_class tel); try done. clear -Hr.
    destruct v3 as [[[|p|p]| | | |]|]; try done;
      repeat (destruct p as [p|p|]; cbn in Hr; try discriminate).
Qed.

Lemma from_bytes_dispatch_witness :
  is_ok (from_bytes statusmsg) = true /\
  forall tel, from_bytes statusmsg = Ok tel -> tel_class tel = WSJTX_Status.
Proof.
  split; [reflexivity|]. intros tel Htel.
  destruct (from_bytes_dispatch statusmsg tel Htel) as (_ & ty & Hty & Hc).
  rewrite doctest_statusmsg in Htel. injection Htel as <-.
  cbn in Hty. injection Hty as <-. cbn in Hc. tauto.
Defined.


Lemma dict_get_app {V} (a b : list (string * V)) n :
  dict_get (a ++ b) n =
    match dict_get a n with Some v => Some v | None => dict_get b n end.
Proof.
  induction a as [|[n' v'] a IH]; [done|]. cbn.
  by destruct (String.eqb n' n).
Qed.

Lemma collect_missing params F name :
  name ∈ F.*1 -> dict_get params name = None ->
  collect params F = Raise KeyError.
Proof.
  induction F as [|[n s] F IH]; intros Hin Hn; [by apply elem_of_nil in Hin|].
  cbn [collect]. destruct (dict_get params n) eqn:E; [|done].
  cbn in Hin. apply elem_of_cons in Hin as [Heq|Hin]; [congruence|].
  by rewrite IH.
Qed.

Lemma defaults_header c :
  dict_get (defaults c) "magic" = Some (Some (VInt magic)) /\
  dict_get (defaults c) "version_number" = Some (Some (VInt 3)).
Proof. by destruct c. Qed.

(** X10.  The constructor raises [AssertionError] when it is given a
    magic number other than [0xadbccbda], and when it is given a
    schema version above 3. *)
Theorem init_checks_header (c : tclass) (kw : list (string * option value)) :
  (forall z, dict_get kw "magic" = Some (Some (VInt z)) -> z <> magic ->
     init c kw = Raise AssertionError) /\
  (forall v, dict_get kw "magic" = None ->
     dict_get kw "version_number" = Some (Some (VInt v)) ->
     schema_version_number < v ->
     init c kw = Raise AssertionError).
Proof.
  destruct (defaults_header c) as [Hm Hv].
  split.
  - intros z Hz Hne. unfold init. cbv zeta.
    assert (forall tl, dict_get ((kw ++ defaults c) ++ tl) "magic"
                       = Some (Some (VInt z))) as Hg.
    { intros tl. by rewrite !dict_get_app, Hz. }
    assert (dict_get (kw ++ defaults c) "magic" = Some (Some (VInt z))) as Hg0
      by (by rewrite dict_get_app, Hz).
    destruct (dict_get (kw ++ defaults c) "type");
      rewrite ?Hg, ?Hg0; cbn [eq_int mbind result_bind];
      replace (z =? magic) with false
        by (symmetry; by apply Z.eqb_neq); done.
  - intros v Hz Hver Hlt. unfold init. cbv zeta.
    assert (forall tl, dict_get ((kw ++ defaults c) ++ tl) "magic"
                       = Some (Some (VInt magic))) as Hg.
    { intros tl. by rewrite !dict_get_app, Hz, Hm. }
    assert (dict_get (kw ++ defaults c) "magic" = Some (Some (VInt magic)))
      as Hg0 by (by rewrite dict_get_app, Hz, Hm).
    assert (forall tl, dict_get ((kw ++ defaults c) ++ tl) "version_number"
                       = Some (Some (VInt v))) as Hw.
    { intros tl. by rewrite !dict_get_app, Hver. }
    assert (dict_get (kw ++ defaults c) "version_number"
            = Some (Some (VInt v))) as Hw0 by (by rewrite dict_get_app, Hver).
    destruct (dict_get (kw ++ defaults c) "type");
      rewrite ?Hg, ?Hg0, ?Hw, ?Hw0;
      cbn [eq_int int_ge mbind result_bind];
      rewrite Z.eqb_refl; cbn [assert mbind result_bind];
      replace (v <=? schema_version_number) with false
        by (symmetry; apply Z.leb_gt; lia); done.
Qed.

Lemma init_checks_header_witness :
  init WSJTX_Close [("magic"%string, Some (VInt 1))] = Raise AssertionError /\
  init WSJTX_Close [("version_number"%string, Some (VInt 4))]
    = Raise AssertionError.
Proof.
  split.
  - apply (proj1 (init_checks_header WSJTX_Close
                    [("magic"%string, Some (VInt 1))]) 1);
      [reflexivity|discriminate].
  - apply (proj2 (init_checks_header WSJTX_Close
                    [("version_number"%string, Some (VInt 4))]) 4);
      reflexivity.
Defined.

(** X11.  The constructor raises [KeyError] when a field of the
    class's format, other than the type, is given neither as a keyword
    argument nor by the class's defaults (the header being left to the
    defaults). *)
Theorem init_requires_fields (c : tclass)
    (kw : list (string * option value)) (name : string) :
  dict_get kw "magic" = None -> dict_get kw "version_number" = None ->
  name ∈ (format c).*1 -> name <> "type"%string ->
  dict_get kw name = None -> dict_get (defaults c) name = None ->
  init c kw = Raise KeyError.
Proof.
  intros Hz Hver Hin Hty Hkw Hdef.
  destruct (defaults_header c) as [Hm Hv].
  unfold init. cbv zeta.
  set (params := match dict_get (kw ++ defaults c) "type" with
                 | Some _ => kw ++ defaults c
                 | None => (kw ++ defaults c)
                           ++ [("type"%string, VInt <$> class_type c)]
                 end).
  assert (dict_get params "magic" = Some (Some (VInt magic))) as ->.
  { unfold params. destruct (dict_get (kw ++ defaults c) "type");
      by rewrite !dict_get_app, Hz, Hm. }
  assert (dict_get params "version_number" = Some (Some (VInt 3))) as ->.
  { unfold params. destruct (dict_get (kw ++ defaults c) "type");
      by rewrite !dict_get_app, Hver, Hv. }
  assert (dict_get params name = None) as Hnone.
  { unfold params. destruct (dict_get (kw ++ defaults c) "type");
      rewrite !dict_get_app, Hkw, Hdef; [done|].
    cbn [dict_get]. destruct (String.eqb_spec "type" name);
      [congruence|reflexivity]. }
  cbn [eq_int int_ge mbind result_bind]. rewrite Z.eqb_refl.
  cbn [assert mbind result_bind].
  change (3 <=? schema_version_number) with true.
  cbn [assert mbind result_bind].
  by rewrite (collect_missing params (format c) name).
Qed.

Lemma init_requires_fields_witness :
  init WSJTX_Status [] = Raise KeyError.
Proof.
  apply (init_requires_fields WSJTX_Status [] "dial_frq");
    try reflexivity; [|discriminate].
  apply (bool_decide_unpack _). vm_compute. exact I.
Defined.

(** The telegram that [heartbeat] sends. *)
Lemma heartbeat_built :
  init WSJTX_Heartbeat UDP_Connector.heartbeat_kw
    = Ok UDP_Connector.heartbeat_telegram /\
  as_bytes UDP_Connector.heartbeat_telegram
    = Ok UDP_Connector.heartbeat_bytes.
Proof. split; vm_compute; reflexivity. Qed.

Lemma constructed_roundtrip_witness :
  WSJTX_Heartbeat <> WSJTX_Telegram /\
  init WSJTX_Heartbeat UDP_Connector.heartbeat_kw
    = Ok UDP_Connector.heartbeat_telegram /\
  Forall2 plain_field (format WSJTX_Heartbeat)
    (tel_attrs UDP_Connector.heartbeat_telegram) /\
  as_bytes UDP_Connector.heartbeat_telegram
    = Ok UDP_Connector.heartbeat_bytes /\
  from_bytes UDP_Connector.heartbeat_bytes
    = Ok UDP_Connector.heartbeat_telegram.
Proof.
  assert (Forall2 plain_field (format WSJTX_Heartbeat)
            (tel_attrs UDP_Connector.heartbeat_telegram)) as Hp.
  { repeat (apply Forall2_cons; split); try apply Forall2_nil;
      cbn; try exact I; split; try (repeat constructor); reflexivity. }
  split; [discriminate|]. split; [apply heartbeat_built|].
  split; [exact Hp|]. split; [apply heartbeat_built|].
  apply (constructed_roundtrip WSJTX_Heartbeat UDP_Connector.heartbeat_kw
           UDP_Connector.heartbeat_telegram UDP_Connector.heartbeat_bytes);
    [discriminate|apply heartbeat_built|exact Hp|apply heartbeat_built].
Defined.

End CodecExtras.

(** ** More on the callsign tables *)

Module CTYExtras.
Import Re CTY CTYFacts.
Section WithUnicode.
Context `{UnicodeDB}.

Lemma add_alias_keeps country c_data self pfx self' :
  add_alias country c_data self pfx = Ok self' ->
  (forall k e, prefix self !! k = Some e -> prefix self' !! k = Some e) /\
  (forall k e, exact_callsign self !! k = Some e ->
               exact_callsign self' !! k = Some e) /\
  (prf_max self <= prf_max self')%nat /\
  countries self' = countries self.
Proof.
  unfold add_alias.
  destruct (re_callsign_match pfx) as [[[[full cs] g_cq] g_itu]|]; [|done].
  assert (prf_max self
          <= (if (prf_max self <? length cs)%nat then length cs
              else prf_max self))%nat as Hmax.
  { destruct (Nat.ltb_spec (prf_max self) (length cs)); lia. }
  destruct full; intros [= <-]; cbn [prefix exact_callsign prf_max countries];
    (split; [|split; [|done]]); try done; intros k e Hk.
  - destruct (exact_callsign self !! cs) eqn:E; [done|].
    destruct (decide (cs = k)) as [->|]; [congruence|].
    by rewrite lookup_insert_ne.
  - destruct (prefix self !! cs) eqn:E; [done|].
    destruct (decide (cs = k)) as [->|]; [congruence|].
    by rewrite lookup_insert_ne.
Qed.

Lemma add_aliases_keeps country c_data pfxs : forall self self',
  add_aliases country c_data self pfxs = Ok self' ->
  (forall k e, prefix self !! k = Some e -> prefix self' !! k = Some e) /\
  (forall k e, exact_callsign self !! k = Some e ->
               exact_callsign self' !! k = Some e) /\
  (prf_max self <= prf_max self')%nat /\
  countries self' = countries self.
Proof.
  induction pfxs as [|pfx pfxs IH]; intros self self' Hs.
  - injection Hs as <-. done.
  - cbn [add_aliases] in Hs.
    apply CodecFacts.bind_ok in Hs as (s1 & H1 & Hs).
    destruct (add_alias_keeps _ _ _ _ _ H1) as (Hp & He & Hm & Hc).
    destruct (IH _ _ Hs) as (Hp' & He' & Hm' & Hc').
    repeat split; [eauto..|lia|congruence].
Qed.

(** X12.  Loading never overwrites: an alias keeps the entry it had
    when it was first listed, whatever later lines and countries say,
    and [prf_max] only grows. *)
Theorem load_keeps_entries (blocks : list (pystr * Country.t * pystr)) :
  forall self self', load self blocks = Ok self' ->
  (forall k e, prefix self !! k = Some e -> prefix self' !! k = Some e) /\
  (forall k e, exact_callsign self !! k = Some e ->
               exact_callsign self' !! k = Some e) /\
  (prf_max self <= prf_max self')%nat.
Proof.
  induction blocks as [|[[country c_data] alias_lines] blocks IH];
    intros self self' Hs.
  - injection Hs as <-. done.
  - cbn [load] in Hs. apply CodecFacts.bind_ok in Hs as (s1 & H1 & Hs).
    unfold parse_alias_line in H1.
    destruct (countries (add_country self country c_data) !! country);
      [|done].
    apply add_aliases_keeps in H1 as (Hp & He & Hm & _).
    cbn [add_country prefix exact_callsign prf_max] in *.
    destruct (IH _ _ Hs) as (Hp' & He' & Hm').
    repeat split; [eauto..|lia].
Qed.

Lemma span_app p (a : pystr) c r :
  Forall (fun x => p x = true) a -> p c = false ->
  span p (a ++ c :: r) = (a, c :: r).
Proof.
  intros Ha Hc. induction Ha as [|x a Hx _ IH]; cbn [app span].
  - by rewrite Hc.
  - by rewrite Hx, IH.
Qed.

Lemma span_all p (a : pystr) :
  Forall (fun x => p x = true) a -> span p a = (a, []).
Proof.
  induction 1 as [|x a Hx _ IH]; [done|]. cbn [span]. by rewrite Hx, IH.
Qed.

Lemma call_char_not_special c :
  call_char c = true -> c <> 61%N /\ c <> 40%N.
Proof.
  unfold call_char. cbn [mem]. intros Hc. split; intros ->; done.
Qed.

Lemma scan_self self cs e n :
  cs <> [] -> (length cs <= n)%nat -> prefix self !! cs = Some e ->
  scan_prefixes self cs n = Some e.
Proof.
  intros Hne Hn He. destruct n as [|n]; [destruct cs; [done|cbn in Hn; lia]|].
  cbn [scan_prefixes]. unfold slice_to.
  change firstn with (@take N). rewrite take_ge by lia. by rewrite He.
Qed.

(** X13.  Listing and resolving.  When a country's alias line lists
    the prefix [cs], not yet in the tables, plainly or with a CQ-zone
    override [cs(ds)], then [cs] resolves to that country's data, with
    the override in place of the country's CQ zone. *)
Theorem alias_then_lookup (country : pystr) (c_data : Country.t) (self : t)
    (cs : pystr) (override : option pystr) :
  digits_extend_ascii ->
  cs <> [] -> Forall (fun c => call_char c = true) cs ->
  match override with
  | Some ds => ds <> [] /\ Forall (fun c => unicode_digit c = true) ds
  | None => True
  end ->
  exact_callsign self !! cs = None -> prefix self !! cs = None ->
  exists self',
    add_alias country c_data self
      (cs ++ match override with
             | Some ds => [40%N] ++ ds ++ [41%N]
             | None => []
             end) = Ok self' /\
    callsign_lookup self' cs =
      Some {| Info.country := country;
              Info.cq := default (Country.cq c_data) override;
              Info.itu := Country.itu c_data;
              Info.continent := Country.continent c_data;
              Info.lat := Country.lat c_data;
              Info.lon := Country.lon c_data;
              Info.gmtoff := Country.gmtoff c_data |}.
Proof.
  intros Hascii Hne Hcs Hov Hex Hpf.
  set (tl := match override with
             | Some ds => [40%N] ++ ds ++ [41%N]
             | None => []
             end).
  assert (re_callsign_match (cs ++ tl)
          = Some (None, cs,
                  (fun ds => [40%N] ++ ds ++ [41%N]) <$> override, None))
    as Hm.
  { unfold re_callsign_match.
    match goal with
    | |- context [let '(_, _) := ?m in _] =>
        assert (m = (None, cs ++ tl)) as ->
    end.
    { destruct cs as [|c cs']; [done|].
      apply Forall_cons in Hcs as [Hc _].
      apply call_char_not_special in Hc as [Hc _].
      cbn [app]. destruct c as [|p]; [done|].
      repeat (destruct p as [p|p|]; try done). }
    unfold tl. destruct override as [ds|].
    - destruct Hov as [Hds Hd].
      change ([40%N] ++ ds ++ [41%N]) with (40%N :: ds ++ [41%N]).
      rewrite span_app by done.
      destruct cs as [|c cs']; [done|].
      assert (unicode_digit 41 = false) as H41
        by (rewrite Hascii; [done|lia]).
      unfold bracketed at 1. cbn [app N.eqb Pos.eqb].
      rewrite span_app by done.
      destruct ds as [|d ds']; [done|]. cbn [N.eqb Pos.eqb]. done.
    - rewrite app_nil_r, span_all by done.
      destruct cs as [|c cs']; done. }
  unfold add_alias. rewrite Hm, Hpf. eexists. split; [reflexivity|].
  unfold callsign_lookup. cbn [exact_callsign prefix prf_max]. rewrite Hex.
  erewrite scan_self; [|done| |apply lookup_insert_eq].
  - f_equal. unfold entry. f_equal.
    destruct override as [ds|]; [|done]. cbn [fmap option_fmap option_map].
    unfold inner. cbn [app tail default]. by rewrite removelast_last.
  - cbn [prf_max]. destruct (Nat.ltb_spec (prf_max self) (length cs)); lia.
Qed.

(** X14.  An alias that [re_callsign] does not match, such as the
    empty one that a doubled or trailing comma leaves, makes
    [parse_alias_line] raise [AssertionError]; a country that is not
    in [countries] makes it raise [KeyError]. *)
Theorem parse_alias_line_rejects (self : t) (country line_text : pystr) :
  (countries self !! country = None ->
   parse_alias_line self country line_text = Raise KeyError) /\
  (forall pfx, countries self !! country <> None ->
     pfx ∈ split_on 44 line_text -> re_callsign_match pfx = None ->
     parse_alias_line self country line_text = Raise AssertionError) /\
  re_callsign_match [] = None.
Proof.
  unfold parse_alias_line. split; [by intros ->|]. split; [|done].
  intros pfx Hc Hin Hm. destruct (countries self !! country) as [c_data|];
    [clear Hc|done].
  generalize dependent self.
  induction (split_on 44 line_text) as [|p ps IH]; intros self;
    [by apply elem_of_nil in Hin|].
  cbn [add_aliases].
  destruct (add_alias country c_data self p) as [s1|e] eqn:E.
  - cbn [mbind result_bind]. apply elem_of_cons in Hin as [->|Hin].
    + unfold add_alias in E. by rewrite Hm in E.
    + by apply IH.
  - unfold add_alias in E.
    destruct (re_callsign_match p) as [[[[[] ?] ?] ?]|]; by simplify_eq.
Qed.

End WithUnicode.

Lemma load_keeps_entries_witness :
  @load ascii_db empty sample_blocks = Ok (@sample_table ascii_db) /\
  (prf_max empty <= prf_max (@sample_table ascii_db))%nat.
Proof.
  split; [vm_compute; reflexivity|].
  apply (@load_keeps_entries ascii_db sample_blocks empty
           (@sample_table ascii_db)).
  vm_compute. reflexivity.
Defined.

Lemma alias_then_lookup_witness :
  exists self',
    @add_alias ascii_db (lit "Hawaii") (sample_country "31" "61" "OC" "KH6")
      empty (lit "KH6(27)") = Ok self' /\
    callsign_lookup self' (lit "KH6") =
      Some {| Info.country := lit "Hawaii"; Info.cq := lit "27";
              Info.itu := lit "61"; Info.continent := lit "OC";
              Info.lat := 0%N; Info.lon := 0%N; Info.gmtoff := 0%N |}.
Proof.
  apply (@alias_then_lookup ascii_db (lit "Hawaii")
           (sample_country "31" "61" "OC" "KH6") empty (lit "KH6")
           (Some (lit "27"))).
  - apply ReFacts.ascii_db_extends.
  - discriminate.
  - repeat constructor.
  - split; [discriminate|repeat constructor].
  - reflexivity.
  - reflexivity.
Defined.

Lemma parse_alias_line_rejects_witness :
  @parse_alias_line ascii_db
    (add_country empty (lit "Hawaii") (sample_country "31" "61" "OC" "KH6"))
    (lit "Hawaii") (lit "KH6,,KH7") = Raise AssertionError.
Proof.
  apply (proj1 (proj2 (@parse_alias_line_rejects ascii_db
           (add_country empty (lit "Hawaii")
              (sample_country "31" "61" "OC" "KH6"))
           (lit "Hawaii") (lit "KH6,,KH7"))) []).
  - vm_compute. discriminate.
  - vm_compute. apply list_elem_of_further, list_elem_of_here.
  - reflexivity.
Defined.

End CTYExtras.

(** ** The words of the patterns *)

Module ReSound.
Import Re.
Ltac invert H := inversion H; subst; clear H.

Ltac inv_lang :=
  repeat match goal with
  | H : lang Empty _ |- _ => inversion H
  | H : lang Eps _ |- _ => invert H
  | H : lang (Chr _) _ |- _ => invert H
  | H : lang (Seq _ _) _ |- _ => invert H
  | H : lang (Alt _ _) _ |- _ => invert H
  end.

Section WithUnicode.
Context `{UnicodeDB}.

Lemma lang_seq r1 r2 s : lang (seq r1 r2) s -> lang (Seq r1 r2) s.
Proof.
  destruct r1, r2; cbn; intros Hl; try done; try (by invert Hl);
    by apply (lang_Seq Eps _ [] s); [constructor|].
Qed.

Lemma lang_alt r1 r2 s : lang (alt r1 r2) s -> lang (Alt r1 r2) s.
Proof.
  destruct r1, r2; cbn; intros Hl; try done; try (by invert Hl);
    first [by apply lang_Alt_r | by apply lang_Alt_l].
Qed.

Lemma nullable_lang r : nullable r = true -> lang r [].
Proof.
  induction r as [| |cs|r1 IH1 r2 IH2|r1 IH1 r2 IH2|r1 IH1];
    cbn; intros Hn; try done.
  - constructor.
  - apply andb_prop in Hn as [H1 H2].
    apply (lang_Seq _ _ [] []); auto.
  - apply orb_prop in Hn as [H1|H2];
      [apply lang_Alt_l|apply lang_Alt_r]; auto.
  - constructor.
Qed.

Lemma deriv_sound c r : forall s, lang (deriv c r) s -> lang r (c :: s).
Proof.
  induction r as [| |cs|r1 IH1 r2 IH2|r1 IH1 r2 IH2|r1 IH1];
    cbn [deriv]; intros s Hl.
  - inv_lang.
  - inv_lang.
  - destruct (mem cs c) eqn:E; inv_lang. by constructor.
  - apply lang_alt in Hl. invert Hl.
    + match goal with H : lang (seq _ _) _ |- _ => apply lang_seq in H; invert H end.
      apply (lang_Seq _ _ (c :: _) _); auto.
    + destruct (nullable r1) eqn:E; [|inv_lang].
      apply (lang_Seq _ _ [] (c :: s)); auto using nullable_lang.
  - apply lang_alt in Hl. invert Hl;
      [apply lang_Alt_l|apply lang_Alt_r]; auto.
  - apply lang_seq in Hl. invert Hl.
    apply (lang_Star_cons _ (c :: _) _); auto.
Qed.

(** What the matcher accepts is a word of the pattern. *)
Lemma matches_sound s : forall r, matches r s = true -> lang r s.
Proof.
  induction s as [|c s IH]; intros r Hm.
  - by apply nullable_lang.
  - by apply deriv_sound, IH.
Qed.

Lemma lang_Chr_inv cs s :
  lang (Chr cs) s -> exists c, s = [c] /\ mem cs c = true.
Proof. intros Hl. invert Hl. eauto. Qed.

Lemma lang_Seq_inv r1 r2 s :
  lang (Seq r1 r2) s ->
  exists s1 s2, s = s1 ++ s2 /\ lang r1 s1 /\ lang r2 s2.
Proof. intros Hl. invert Hl. eauto. Qed.

Lemma lang_rep_chars cs n : forall s,
  lang (rep n (Chr cs)) s -> Forall (fun c => mem cs c = true) s.
Proof.
  induction n as [|n IH]; intros s Hl; cbn [rep] in Hl; inv_lang; [done|].
  cbn. constructor; auto.
Qed.

Lemma lang_upto_chars cs n : forall s,
  lang (upto n (Chr cs)) s -> Forall (fun c => mem cs c = true) s.
Proof.
  induction n as [|n IH]; intros s Hl; cbn [upto] in Hl.
  - by inv_lang.
  - unfold opt in Hl. inv_lang; [|done]. cbn. constructor; auto.
Qed.

Lemma strip_newline_app s s' :
  strip_newline s = Some s' -> s = s' ++ [10%N].
Proof.
  revert s'. induction s as [|c s IH]; intros s' Hs; [done|].
  cbn [strip_newline] in Hs. destruct s as [|c' s].
  - destruct (N.eqb_spec c 10); [|done]. by simplify_eq.
  - destruct (strip_newline (c' :: s)) as [t|]; [|done].
    injection Hs as <-. cbn. f_equal. by apply IH.
Qed.

End WithUnicode.
End ReSound.

(** ** More on the classifier *)

Module ClassifierExtras.
Import Re CTY ReFacts ReSound ClassifierFacts.
Section WithUnicode.
Context `{UnicodeDB}.

(** A word of the callsign pattern has a digit of [0-9] and a letter
    of [A-Z]. *)
Lemma callsign_word s :
  lang re_full_callsign s ->
  (exists d, d ∈ s /\ (48 <= d <= 57)%N) /\
  (exists u, u ∈ s /\ (65 <= u <= 90)%N).
Proof.
  unfold re_full_callsign. intros Hl.
  apply lang_Seq_inv in Hl as (s0 & s1 & -> & _ & Hl).
  apply lang_Seq_inv in Hl as (score & stail & -> & Hl & _).
  apply lang_Seq_inv in Hl as (sa & sx & -> & _ & Hl).
  apply lang_Seq_inv in Hl as (sd & sy & -> & Hd & Hl).
  apply lang_Seq_inv in Hl as (sb & su & -> & _ & Hu).
  apply lang_Chr_inv in Hd as (d & -> & Hd).
  apply lang_Chr_inv in Hu as (u & -> & Hu).
  cbn [mem] in *.
  split; [exists d|exists u];
    (split; [rewrite !elem_of_app, ?list_elem_of_singleton; tauto|lia]).
Qed.


Lemma indicator_word s :
  lang re_indicator s ->
  Forall (fun c => unicode_digit c = true) s \/
  Forall (fun c => (65 <= c <= 90)%N) s.
Proof.
  unfold re_indicator, rep_range. intros Hl. invert Hl.
  - left. match goal with H : lang _ s |- _ =>
      apply (lang_rep_chars Digit 3) in H; exact H end.
  - right. match goal with H : lang _ s |- _ =>
      apply lang_Seq_inv in H as (s1 & s2 & -> & H1 & H2) end.
    apply (lang_rep_chars (Range 65 90) 1) in H1.
    apply (lang_upto_chars (Range 65 90) 3) in H2.
    apply Forall_app. split; eapply Forall_impl; eauto; cbn; lia.
Qed.

Hypothesis Hascii : digits_extend_ascii.

(** No token is both a callsign and a [CQ] indicator. *)
Lemma callsign_not_indicator c :
  match_anchored re_full_callsign c = true ->
  match_anchored re_indicator c = false.
Proof.
  assert (forall s t, matches re_full_callsign s = true ->
            matches re_indicator t = true ->
            (forall x, x ∈ s -> x <> 10%N -> x ∈ t) -> False) as Hno.
  { intros s t [(d & Hd & Hd') (u & Hu & Hu')]%matches_sound%callsign_word
      Ht%matches_sound%indicator_word Hin.
    apply Hin in Hd; [|lia]. apply Hin in Hu; [|lia].
    destruct Ht as [Ht|Ht]; rewrite Forall_forall in Ht.
    - apply Ht in Hu. rewrite Hascii in Hu by lia.
      unfold ascii_digit in Hu. lia.
    - apply Ht in Hd. lia. }
  intros Hm. destruct (match_anchored re_indicator c) eqn:Hi; [|done].
  exfalso. unfold match_anchored in *.
  destruct (strip_newline c) as [c'|] eqn:Hs.
  - apply strip_newline_app in Hs as ->.
    apply orb_prop in Hm as [Hm|Hm], Hi as [Hi|Hi];
      eapply Hno; eauto; intros x Hx Hne;
      first [ done | apply elem_of_app; by left
            | apply elem_of_app in Hx as [?|?%list_elem_of_singleton]; done ].
  - rewrite orb_false_r in Hm, Hi. eapply Hno; eauto.
Qed.

Lemma after_caller_facts self reply l0 l pm :
  no_identity pm ->
  let r := after_caller self reply (l0 :: l) pm in
  caller r = Some l0 /\ info_of r = callsign_lookup self l0 /\
  raw_message r = raw_message pm /\ ERROR r = ERROR pm /\
  (forall p, peer r = Some p ->
     match_anchored re_full_callsign p = true /\
     mtype r = if reply then lit "REPLAY" else mtype pm) /\
  (peer r = None -> mtype r = mtype pm) /\
  (forall g, grid r = Some g ->
     match_anchored re_grid g = true /\
     (reply = true -> peer r <> None -> g <> lit "RR73")).
Proof.
  intros Hni. destruct pm. unfold no_identity in Hni. cbn in Hni.
  destruct Hni as (-> & -> & -> & -> & -> & -> & -> & -> & -> & ->).
  unfold after_caller.
  destruct (callsign_lookup self l0) as [[]|]; destruct l as [|l1 l'];
    cbn; try (repeat split; intros; by simplify_eq).
  all: destruct (match_anchored re_full_callsign l1) eqn:E1;
    [destruct l' as [|l2 l'']|];
    try destruct (match_anchored re_grid _) eqn:E2;
    destruct reply; cbn;
    try destruct (str_eqb _ _) eqn:E3; cbn;
    repeat split; intros; simplify_eq; try done;
    by apply bool_decide_eq_false in E3.
Qed.


Lemma keyword_cases l0 :
  str_eqb l0 (lit "CQ") || str_eqb l0 (lit "QRZ") || str_eqb l0 (lit "DE")
    = true ->
  l0 ∈ keywords.
Proof.
  unfold str_eqb, keywords.
  intros [[?%bool_decide_eq_true|?%bool_decide_eq_true]%orb_prop
         |?%bool_decide_eq_true]%orb_prop; subst;
    repeat first [apply list_elem_of_here | apply list_elem_of_further].
Qed.

(** The four ways [parse_wsjtx_decode_msg] ends. *)
Lemma parse_cases self msg :
  let pm := parse_wsjtx_decode_msg self msg in
  (exists e, pm = set_ERROR e (blank msg) \/
     exists k, k ∈ keywords /\ pm = set_ERROR e (set_mtype k (blank msg))) \/
  pm = blank msg \/
  (exists k c l, k ∈ keywords /\ match_anchored re_full_callsign c = true /\
     pm = after_caller self false (c :: l) (set_mtype k (blank msg))) \/
  (exists l0 l1 l', match_anchored re_full_callsign l0 = true /\
     pm = after_caller self true (l0 :: l1 :: l') (blank msg)).
Proof.
  unfold parse_wsjtx_decode_msg. fold (blank msg).
  repeat case_match; subst;
    try (left; eexists; left; reflexivity);
    try (left; eexists; right; eexists; split;
         [by apply keyword_cases|reflexivity]);
    try (right; left; reflexivity).
  all: try (right; right; left; eexists _, _, _; split;
            [by apply keyword_cases|split; [eassumption|reflexivity]]).
  all: match goal with
       | Hc : _ && _ = true |- _ => apply andb_prop in Hc as [Hlen Hc]
       end.
  all: match goal with
       | |- context [after_caller _ true (_ :: ?l) _] =>
           destruct l as [|? ?]; [done|]
       end.
  all: right; right; right; eexists _, _, _; split; [eassumption|reflexivity].
Qed.

Lemma blank_no_identity msg : no_identity (blank msg).
Proof. by repeat split. Qed.

Lemma set_mtype_no_identity k msg : no_identity (set_mtype k (blank msg)).
Proof. by repeat split. Qed.

(** On every input the result carries the input as
    [raw_message] and one of the five types [CQ], [QRZ], [DE],
    [REPLAY], [UNKNOWN]. *)
Theorem parse_keeps_message_and_labels (self : t) (msg : option pystr) :
  raw_message (parse_wsjtx_decode_msg self msg) = msg /\
  mtype (parse_wsjtx_decode_msg self msg) ∈ labels.
Proof.
  assert (forall k, k ∈ keywords -> k ∈ labels) as Hk.
  { unfold keywords, labels. intros k Hk.
    repeat (apply elem_of_cons in Hk as [->|Hk]);
      [..|by apply elem_of_nil in Hk];
      repeat first [apply list_elem_of_here | apply list_elem_of_further]. }
  assert (lit "UNKNOWN" ∈ labels) as Hu
    by (repeat first [apply list_elem_of_here | apply list_elem_of_further]).
  assert (lit "REPLAY" ∈ labels) as Hr
    by (repeat first [apply list_elem_of_here | apply list_elem_of_further]).
  destruct (parse_cases self msg)
    as [(e & [->|(k & Hkw & ->)])|[->|[(k & c & l & Hkw & Hc & ->)
                                    |(l0 & l1 & l' & Hc & ->)]]];
    cbn [raw_message mtype set_ERROR set_mtype blank]; auto.
  - destruct (after_caller_facts self false c l _
                (set_mtype_no_identity k msg)) as (_ & _ & Hraw & _ & Hp & Hn & _).
    split; [exact Hraw|].
    destruct (peer (after_caller self false (c :: l) _)) as [p|] eqn:E.
    + destruct (Hp p eq_refl) as [_ ->]. cbn. auto.
    + rewrite Hn by done. cbn. auto.
  - destruct (after_caller_facts self true l0 (l1 :: l') _
                (blank_no_identity msg)) as (_ & _ & Hraw & _ & Hp & Hn & _).
    split; [exact Hraw|].
    destruct (peer (after_caller self true (l0 :: l1 :: l') _)) as [p|] eqn:E.
    + by destruct (Hp p eq_refl) as [_ ->].
    + by rewrite Hn.
Qed.


(** X16.  Whenever the result names a peer, the peer matches the
    full-callsign pattern, a caller is named too, and the type is not
    [UNKNOWN]; the type is [REPLAY] exactly when a peer is named and
    the message does not open with [CQ], [QRZ] or [DE]. *)
Theorem peer_is_callsign (self : t) (msg : option pystr) :
  let pm := parse_wsjtx_decode_msg self msg in
  (forall p, peer pm = Some p ->
     match_anchored re_full_callsign p = true /\ caller pm <> None /\
     mtype pm <> lit "UNKNOWN") /\
  (mtype pm = lit "REPLAY" -> peer pm <> None /\ caller pm <> None) /\
  (mtype pm = lit "UNKNOWN" -> peer pm = None).
Proof.
  assert (forall k, k ∈ keywords -> k <> lit "UNKNOWN" /\ k <> lit "REPLAY")
    as Hk.
  { unfold keywords. intros k Hk.
    repeat (apply elem_of_cons in Hk as [->|Hk]);
      [..|by apply elem_of_nil in Hk]; done. }
  cbv zeta.
  destruct (parse_cases self msg)
    as [(e & [->|(k & Hkw & ->)])|[->|[(k & c & l & Hkw & Hc & ->)
                                    |(l0 & l1 & l' & Hc & ->)]]];
    cbn [peer caller mtype set_ERROR set_mtype blank]; try done.
  - destruct (Hk _ Hkw). done.
  - destruct (Hk _ Hkw) as [Hk1 Hk2].
    destruct (after_caller_facts self false c l _
                (set_mtype_no_identity k msg))
      as (Hcl & _ & _ & _ & Hp & Hn & _).
    rewrite Hcl. cbn [mtype set_mtype blank] in *.
    destruct (peer (after_caller self false (c :: l) _)) as [p|] eqn:E.
    + destruct (Hp p eq_refl) as [Hm ->].
      repeat split; intros; simplify_eq; done.
    + rewrite Hn by done. repeat split; intros; simplify_eq; done.
  - destruct (after_caller_facts self true l0 (l1 :: l') _
                (blank_no_identity msg))
      as (Hcl & _ & _ & _ & Hp & Hn & _).
    rewrite Hcl. cbn [mtype blank] in *.
    destruct (peer (after_caller self true (l0 :: l1 :: l') _)) as [p|] eqn:E.
    + destruct (Hp p eq_refl) as [Hm ->].
      repeat split; intros; simplify_eq; done.
    + rewrite Hn by done. repeat split; intros; simplify_eq; done.
Qed.

(** X17.  Whenever the result carries a grid, the grid matches the
    locator pattern and a caller is named; in a result of type
    [REPLAY] the grid is not [RR73].  Without a peer the third check
    is not made: "KA1ABC RR73" gives the caller KA1ABC the grid
    RR73. *)
Theorem grid_is_locator (self : t) (msg : option pystr) (g : pystr) :
  grid (parse_wsjtx_decode_msg self msg) = Some g ->
  match_anchored re_grid g = true /\
  caller (parse_wsjtx_decode_msg self msg) <> None /\
  (mtype (parse_wsjtx_decode_msg self msg) = lit "REPLAY" ->
   g <> lit "RR73").
Proof.
  assert (forall k, k ∈ keywords -> k <> lit "REPLAY") as Hk.
  { unfold keywords. intros k Hk.
    repeat (apply elem_of_cons in Hk as [->|Hk]);
      [..|by apply elem_of_nil in Hk]; done. }
  destruct (parse_cases self msg)
    as [(e & [->|(k & Hkw & ->)])|[->|[(k & c & l & Hkw & Hc & ->)
                                    |(l0 & l1 & l' & Hc & ->)]]];
    try done.
  - destruct (after_caller_facts self false c l _
                (set_mtype_no_identity k msg))
      as (Hcl & _ & _ & _ & Hp & Hn & Hg).
    intros [Hm _]%Hg. rewrite Hcl. split; [done|]. split; [done|].
    cbn [mtype set_mtype blank] in *.
    destruct (peer (after_caller self false (c :: l) _)) as [p|] eqn:E.
    + destruct (Hp p eq_refl) as [_ ->]. intros ?. by destruct (Hk k).
    + rewrite Hn by done. intros ?. by destruct (Hk k).
  - destruct (after_caller_facts self true l0 (l1 :: l') _
                (blank_no_identity msg))
      as (Hcl & _ & _ & _ & Hp & Hn & Hg).
    intros [Hm Hr]%Hg. rewrite Hcl. split; [done|]. split; [done|].
    cbn [mtype blank] in *.
    destruct (peer (after_caller self true (l0 :: l1 :: l') _)) as [p|] eqn:E.
    + intros _. by apply Hr.
    + rewrite Hn by done. done.
Qed.

Lemma strip_marginal_cons a l :
  l <> [] -> strip_marginal (a :: l) = a :: strip_marginal l.
Proof.
  intros Hl. unfold strip_marginal. destruct l as [|b l]; [done|].
  change (last (a :: b :: l)) with (last (b :: l)).
  destruct (last (b :: l)); [|done]. by destruct (_ || _).
Qed.

Lemma keyword_true k :
  k ∈ keywords ->
  str_eqb k (lit "CQ") || str_eqb k (lit "QRZ") || str_eqb k (lit "DE") = true.
Proof.
  unfold keywords. intros Hk.
  repeat (apply elem_of_cons in Hk as [->|Hk]);
    [..|by apply elem_of_nil in Hk]; done.
Qed.


(** X19.  Free text is not an error.  A text without a semicolon
    whose first token, the marginal-decode marker being stripped, is
    not [CQ], [QRZ] or [DE], and which has one token only or a first
    token that is not a callsign, comes back with type [UNKNOWN], no
    error and no other field set. *)
Theorem free_text_is_unknown (self : t) (msg l0 : pystr) (rest : list pystr) :
  existsb (N.eqb 59) msg = false ->
  strip_marginal (split msg) = l0 :: rest ->
  l0 ∉ keywords ->
  (rest = [] \/ match_anchored re_full_callsign l0 = false) ->
  parse_wsjtx_decode_msg self (Some msg) = blank (Some msg).
Proof.
  intros Hsemi Hstrip Hk Hfree.
  unfold parse_wsjtx_decode_msg. fold (blank (Some msg)).
  destruct msg as [|c0 msg0]; [done|]. rewrite Hsemi.
  destruct (split (c0 :: msg0)) as [|t ts] eqn:Hs; [done|].
  cbn [length Nat.ltb Nat.leb]. rewrite Hstrip.
  assert (str_eqb l0 (lit "CQ") || str_eqb l0 (lit "QRZ")
          || str_eqb l0 (lit "DE") = false) as ->.
  { destruct (_ || _) eqn:E; [|done]. by apply keyword_cases in E. }
  destruct Hfree as [-> | ->]; [done|]. by rewrite andb_false_r.
Qed.

End WithUnicode.

(** The rows of the table in the docstring of
    [parse_wsjtx_decode_msg], as type, caller, peer and grid. *)
Lemma docstring_rows :
  let row msg :=
    let pm := @parse_wsjtx_decode_msg ascii_db empty (Some msg) in
    (mtype pm, caller pm, peer pm, grid pm, ERROR pm) in
  row (lit "CQ WB9XYZ EN34")
    = (lit "CQ", Some (lit "WB9XYZ"), None, Some (lit "EN34"), None) /\
  row (lit "CQ DX WB9XYZ EN34")
    = (lit "CQ", Some (lit "WB9XYZ"), None, Some (lit "EN34"), None) /\
  row (lit "QRZ WB9XYZ EN34")
    = (lit "QRZ", Some (lit "WB9XYZ"), None, Some (lit "EN34"), None) /\
  row (lit "KA1ABC WB9XYZ EN34")
    = (lit "REPLAY", Some (lit "KA1ABC"), Some (lit "WB9XYZ"),
       Some (lit "EN34"), None) /\
  row (lit "KA1ABC WB9XYZ R-19")
    = (lit "REPLAY", Some (lit "KA1ABC"), Some (lit "WB9XYZ"), None, None) /\
  row (lit "CQ 000 WB9XYZ EN34")
    = (lit "CQ", Some (lit "WB9XYZ"), None, Some (lit "EN34"), None) /\
  row (lit "ZL/KA1ABC WB9XYZ")
    = (lit "REPLAY", Some (lit "ZL/KA1ABC"), Some (lit "WB9XYZ"), None,
       None) /\
  row (lit "DE ZL4/KA1ABC")
    = (lit "DE", Some (lit "ZL4/KA1ABC"), None, None, None) /\
  row (lit "CQ WB9XYZ/VE4")
    = (lit "CQ", Some (lit "WB9XYZ/VE4"), None, None, None) /\
  row (lit "HELLO WORLD") = (lit "UNKNOWN", None, None, None, None) /\
  row (lit "ZL4/KA1ABC 73")
    = (lit "UNKNOWN", Some (lit "ZL4/KA1ABC"), None, None, None) /\
  row (lit "73") = (lit "UNKNOWN", None, None, None, None).
Proof. vm_compute. repeat split; reflexivity. Qed.


Lemma free_text_is_unknown_witness :
  @parse_wsjtx_decode_msg ascii_db empty (Some (lit "HELLO WORLD a3"))
    = blank (Some (lit "HELLO WORLD a3")).
Proof.
  apply (@free_text_is_unknown ascii_db empty (lit "HELLO WORLD a3")
           (lit "HELLO") [lit "WORLD"]).
  - vm_compute. reflexivity.
  - vm_compute. reflexivity.
  - unfold keywords. intros Hin.
    repeat (apply elem_of_cons in Hin as [Hin|Hin]; [discriminate Hin|]).
    by apply elem_of_nil in Hin.
  - right. vm_compute. reflexivity.
Defined.


Lemma grid_is_locator_witness :
  let pm := @parse_wsjtx_decode_msg ascii_db empty
              (Some (lit "KA1ABC RR73")) in
  grid pm = Some (lit "RR73") /\ mtype pm = lit "UNKNOWN" /\
  caller pm = Some (lit "KA1ABC") /\
  @match_anchored ascii_db (@re_grid) (lit "RR73") = true.
Proof.
  cbv zeta. split; [vm_compute; reflexivity|].
  split; [vm_compute; reflexivity|]. split; [vm_compute; reflexivity|].
  destruct (@grid_is_locator ascii_db empty (Some (lit "KA1ABC RR73"))
              (lit "RR73")) as (Hg & _); [vm_compute; reflexivity|exact Hg].
Defined.

End ClassifierExtras.

(** ** The types of decoded attributes *)

Module CodecTyping.
Import Struct Codec CodecFacts RoundTrip CodecExtras.

Lemma unpack_int_in_range f b z :
  unpack_int f b = Ok z -> int_in_range f z = true.
Proof.
  intros Hp%pack_unpack_int. unfold pack_int in Hp.
  by destruct (int_in_range f z).
Qed.

Lemma unpack_typed f b v : unpack f b = Ok v -> has_type (Fmt f) (Some v).
Proof.
  destruct f; cbn [unpack]; intros (z & Hz & [= <-])%bind_ok; cbn;
    try (by apply unpack_int_in_range in Hz).
  unfold unpack_double in Hz.
  destruct (Nat.eqb_spec (length b) 8) as [L|]; [|done].
  injection Hz as <-. pose proof (be_decode_bound b) as Hb.
  rewrite L in Hb. exact Hb.
Qed.

Lemma element_typed d b l v n :
  element_deserialize d b l = Ok (v, n) -> has_type d v.
Proof.
  destruct d; cbn [element_deserialize]; [done|..].
  - intros (s & _ & H)%bind_ok. apply bind_ok in H as (? & _ & [= <- _]).
    by destruct s.
  - intros (o & Ho & H)%bind_ok. apply bind_ok in H as (? & _ & [= <- _]).
    unfold Optional_Quint.deserialize in Ho.
    destruct (len b =? 0).
    + injection Ho as <-. done.
    + apply bind_ok in Ho as (w & Hw & [= <-]).
      apply bind_ok in Hw as (f & Hf & Hw).
      apply bind_ok in Hw as (z & Hz & [= <-]).
      apply unpack_int_ok in Hz as [_ ->]. cbn.
      unfold int_of_bytes.
      assert (is_signed f = false) as ->; [|cbn; lia].
      destruct l as [|[|[|[|[|[|[|[|[|?]]]]]]]]]; cbn in Hf; by simplify_eq.
  - intros (q & _ & [= <- _])%bind_ok. done.
  - intros (c & _ & [= <- _])%bind_ok. done.
Qed.

Lemma nulls_typed F : Forall2 typed_field F (nulls F).
Proof.
  induction F as [|[name [d l]] F IH]; [constructor|].
  change (nulls ((name, (d, l)) :: F)) with ((name, None) :: nulls F).
  constructor; [|done]. split; [done|]. cbn. by destruct d as [[]| | | |].
Qed.

Lemma deserialize_typed F : forall b kw,
  deserialize F b = Ok kw -> Forall2 typed_field F kw.
Proof.
  induction F as [|[name [d l]] F IH]; intros b kw Hd.
  - injection Hd as <-. constructor.
  - destruct b as [|b0 b].
    { rewrite deserialize_nil in Hd. injection Hd as <-. apply nulls_typed. }
    destruct d as [f| | | |].
    + rewrite deserialize_fmt in Hd by done.
      apply bind_ok in Hd as (v & Hv & Hd).
      apply bind_ok in Hd as (kw' & Hkw & [= <-]).
      constructor; [|by eapply IH]. split; [done|]. by eapply unpack_typed.
    + rewrite deserialize_elem in Hd by done.
      apply bind_ok in Hd as ([v n] & Hv & Hd).
      apply bind_ok in Hd as (kw' & Hkw & [= <-]).
      constructor; [|by eapply IH]. split; [done|]. by eapply element_typed.
    + rewrite deserialize_elem in Hd by done.
      apply bind_ok in Hd as ([v n] & Hv & Hd).
      apply bind_ok in Hd as (kw' & Hkw & [= <-]).
      constructor; [|by eapply IH]. split; [done|]. by eapply element_typed.
    + rewrite deserialize_elem in Hd by done.
      apply bind_ok in Hd as ([v n] & Hv & Hd).
      apply bind_ok in Hd as (kw' & Hkw & [= <-]).
      constructor; [|by eapply IH]. split; [done|]. by eapply element_typed.
    + rewrite deserialize_elem in Hd by done.
      apply bind_ok in Hd as ([v n] & Hv & Hd).
      apply bind_ok in Hd as (kw' & Hkw & [= <-]).
      constructor; [|by eapply IH]. split; [done|]. by eapply element_typed.
Qed.

(** X20.  The attributes of a telegram that [from_bytes] returns are
    those of its class's format, name by name, each with the type of
    its field: an [int] within the range of the format string, a
    64-bit [float], a [str], a [QDateTime] or a [QColor], or [None]
    (where the buffer ended, or for a null string or optional
    integer). *)
Theorem from_bytes_typed (B : bytes) (tel : telegram) :
  from_bytes B = Ok tel ->
  Forall2 typed_field (format (tel_class tel)) (tel_attrs tel).
Proof.
  intros (v1 & v2 & v3 & v4 & kw' & _ & Hd & _)%from_bytes_ok.
  by eapply deserialize_typed.
Qed.

Lemma from_bytes_typed_witness :
  from_bytes UDP_Connector.heartbeat_bytes
    = Ok UDP_Connector.heartbeat_telegram /\
  Forall2 typed_field (format WSJTX_Heartbeat)
    (tel_attrs UDP_Connector.heartbeat_telegram).
Proof.
  assert (from_bytes UDP_Connector.heartbeat_bytes
          = Ok UDP_Connector.heartbeat_telegram) as Hb
    by (vm_compute; reflexivity).
  split; [exact Hb|].
  exact (from_bytes_typed UDP_Connector.heartbeat_bytes
           UDP_Connector.heartbeat_telegram Hb).
Defined.

End CodecTyping.

(** ** The UDP server *)

Module UDPExtras.
Import Codec Re CTY UDP_Connector CodecFacts CodecExtras CodecTyping.
Section WithUnicode.
Context `{unicode : UnicodeDB}.

Lemma heartbeat_sends self a :
  adr self = Some a ->
  heartbeat self = ([Sendto heartbeat_bytes a], inr tt).
Proof.
  intros Ha. unfold heartbeat.
  rewrite (proj1 heartbeat_built). cbn [lift mbind H_bind].
  rewrite (proj2 heartbeat_built). cbn [lift]. by rewrite Ha.
Qed.

(** The id of a decoded telegram is [None] or a [str]. *)
Lemma from_bytes_id B tel :
  from_bytes B = Ok tel ->
  exists k, (id ← getattr tel "id"; key_of id) = Ok k.
Proof.
  intros Hb.
  assert (Forall2 typed_field (format (tel_class tel)) (tel_attrs tel)) as Ht.
  { destruct (proj1 (from_bytes_ok _ _) Hb) as (? & ? & ? & ? & ? & _ & Hd & _).
    by eapply deserialize_typed. }
  apply from_bytes_ok in Hb as (v1 & v2 & v3 & v4 & kw' & Ha & _).
  unfold getattr. rewrite Ha in *. cbn [header dict_get String.eqb Ascii.eqb Bool.eqb].
  unfold format, base_format in Ht. cbn [app header] in Ht.
  do 3 apply Forall2_cons in Ht as [_ Ht].
  apply Forall2_cons in Ht as [[_ Ht] _]. cbn in Ht.
  destruct v4 as [[]|]; try done; cbn; eauto.
Qed.


Lemma receive_raised self now dbytes address e :
  from_bytes dbytes = Raise e ->
  receive self now dbytes address = (self, ([], inl (Raised e))).
Proof. unfold receive. by intros ->. Qed.

Lemma receive_decoded self now dbytes address tel :
  from_bytes dbytes = Ok tel ->
  exists k,
    let self' :=
      {| cty_parser := cty_parser self;
         peer := match peer_get (peer self) k with
                 | None => peer self ++ [(k, address)]
                 | Some _ => peer self
                 end;
         adr := match adr self with
                | None => Some address
                | Some a => Some a
                end;
         heartbeat_seen := heartbeat_seen self |} in
    receive self now dbytes address =
      (self',
       _ ← (if bool_decide (adr self' = Some address)
            then handle self' now tel else mret tt);
       mret tel).
Proof.
  intros Hb. destruct (from_bytes_id _ _ Hb) as [k Hk].
  exists k. unfold receive. rewrite Hb. cbn [mbind result_bind].
  apply bind_ok in Hk as (id & Hid & Hk). rewrite Hid.
  cbn [mbind result_bind]. by rewrite Hk.
Qed.

Lemma peer_get_app d k a k' a' :
  peer_get d k = Some a -> peer_get (d ++ [(k', a')]) k = Some a.
Proof.
  induction d as [|[k0 a0] d IH]; [done|]. cbn.
  by destruct (bool_decide (k0 = k)).
Qed.

Lemma receive_keeps_first self now dbytes address :
  let self' := (receive self now dbytes address).1 in
  cty_parser self' = cty_parser self /\
  heartbeat_seen self' = heartbeat_seen self /\
  (forall a, adr self = Some a -> adr self' = Some a) /\
  (forall k a, peer_get (peer self) k = Some a ->
               peer_get (peer self') k = Some a).
Proof.
  destruct (from_bytes dbytes) as [tel|e] eqn:Hb.
  - destruct (receive_decoded self now dbytes address tel Hb) as [k ->].
    cbn. repeat split; try done.
    + by intros a ->.
    + intros k' a Hk. destruct (peer_get (peer self) k); [done|].
      by apply peer_get_app.
  - rewrite (receive_raised _ _ _ _ _ Hb). done.
Qed.

(** X21.  While the server runs, the address it answers to is fixed
    once set, the address first seen for an id stays the one recorded
    for it, and [heartbeat_seen] and the callsign tables do not
    change. *)
Theorem serve_keeps_first (datagrams : list (Z * bytes * address)) :
  forall self,
  let self' := (serve self datagrams).1.1 in
  cty_parser self' = cty_parser self /\
  heartbeat_seen self' = heartbeat_seen self /\
  (forall a, adr self = Some a -> adr self' = Some a) /\
  (forall k a, peer_get (peer self) k = Some a ->
               peer_get (peer self') k = Some a).
Proof.
  induction datagrams as [|[[now dbytes] address] datagrams IH];
    intros self; [done|].
  cbn [serve].
  pose proof (receive_keeps_first self now dbytes address)
    as (Hc & Hs & Ha & Hp).
  destruct (receive self now dbytes address) as [s1 [es [st|tel]]];
    cbn [fst snd] in *; [done|].
  specialize (IH s1). destruct (serve s1 datagrams) as [[s2 es'] st].
  cbn [fst snd] in *. destruct IH as (Hc' & Hs' & Ha' & Hp').
  repeat split; [congruence|congruence|auto|auto].
Qed.

(** X22.  Once the server answers to one address, a datagram from
    another address causes no output: the telegram is decoded and
    returned (or the decoding error raised), nothing is sent, logged
    or queued, and the server does not exit. *)
Theorem foreign_datagram_is_ignored (self : t) (now : Z) (dbytes : bytes)
    (address a : address) :
  adr self = Some a -> address <> a ->
  (receive self now dbytes address).2 =
    match from_bytes dbytes with
    | Ok tel => ([], inr tel)
    | Raise e => ([], inl (Raised e))
    end.
Proof.
  intros Ha Hne. destruct (from_bytes dbytes) as [tel|e] eqn:Hb.
  - destruct (receive_decoded self now dbytes address tel Hb) as [k ->].
    cbn [snd adr]. rewrite Ha.
    rewrite bool_decide_eq_false_2 by congruence. done.
  - by rewrite (receive_raised _ _ _ _ _ Hb).
Qed.

(** X23.  [heartbeat_seen] is never set, so every telegram that the
    server handles, of whatever class, is answered first with a
    heartbeat telegram sent to the sender. *)
Theorem every_telegram_is_answered (self : t) (now : Z) (dbytes : bytes)
    (address : address) (tel : telegram) :
  heartbeat_seen self = false ->
  from_bytes dbytes = Ok tel ->
  (adr self = None \/ adr self = Some address) ->
  exists es r,
    (receive self now dbytes address).2
      = (Sendto heartbeat_bytes address :: es, r).
Proof.
  intros Hs Hb Ha.
  destruct (receive_decoded self now dbytes address tel Hb) as [k ->].
  cbn [snd adr].
  assert (match adr self with
          | Some a => Some a
          | None => Some address
          end = Some address) as -> by (by destruct Ha as [-> | ->]).
  rewrite bool_decide_eq_true_2 by done.
  unfold handle. cbn [heartbeat_seen]. rewrite Hs. cbn [negb orb].
  rewrite (heartbeat_sends _ address) by done.
  cbn [mbind H_bind].
  repeat match goal with
  | |- context [let '(_, _) := ?x in _] => destruct x as [? [?|?]]
  end; cbn [app]; eauto.
Qed.


(** X24.  What [handle_decode] puts on the queue.  It queues at most
    one message, and only for a telegram that is not off air and is
    new, whose text is a non-empty string that the classifier accepts
    without error; the queued message is the classifier's result for
    that text, with the time of the call.  An empty or null text is
    logged as an error and dropped. *)
Theorem handle_decode_forwards (self : t) (now : Z) (tel : telegram)
    (m : message) :
  Put m ∈ (handle_decode self now tel).1 ->
  handle_decode self now tel = ([Put m], inr tt) /\
  msg_time m = now /\ ERROR (msg_parsed m) = None /\
  exists off_air is_new text,
    getattr tel "off_air" = Ok off_air /\ truthy off_air = false /\
    getattr tel "is_new" = Ok is_new /\ truthy is_new = true /\
    getattr tel "message" = Ok (Some (VStr text)) /\ text <> [] /\
    msg_parsed m = parse_wsjtx_decode_msg (cty_parser self) (Some text).
Proof.
  unfold handle_decode.
  destruct (getattr tel "off_air") as [off_air|] eqn:Hoff;
    cbn [lift mbind H_bind fst]; [|by intros ?%elem_of_nil].
  destruct (truthy off_air) eqn:Toff;
    cbn [mret H_ret mbind H_bind app fst]; [by intros ?%elem_of_nil|].
  destruct (getattr tel "is_new") as [is_new|] eqn:Hnew;
    cbn [lift mret H_ret mbind H_bind app fst]; [|by intros ?%elem_of_nil].
  destruct (truthy is_new) eqn:Tnew;
    cbn [negb mret H_ret mbind H_bind app fst]; [|by intros ?%elem_of_nil].
  destruct (getattr tel "message") as [message|] eqn:Hmsg;
    cbn [lift mbind H_bind app fst]; [|by intros ?%elem_of_nil].
  assert (forall text,
            (if truthy message then message else Some (VStr []))
            = Some (VStr text) ->
            text <> [] -> message = Some (VStr text)) as Htext.
  { intros text Ht Hne. destruct (truthy message); congruence. }
  destruct (if truthy message then message else Some (VStr []))
    as [[| |text| |]|] eqn:Harg;
    cbn [lift mbind H_bind app fst]; try (by intros ?%elem_of_nil).
  destruct (ERROR (parse_wsjtx_decode_msg (cty_parser self) (Some text)))
    as [e|] eqn:He.
  { cbn. intros [=]%list_elem_of_singleton. }
  assert (text <> []) as Hne.
  { intros ->. unfold parse_wsjtx_decode_msg in He. discriminate He. }
  destruct (getattr tel "snr") as [snr|];
    cbn [lift mbind H_bind app fst]; [|by intros ?%elem_of_nil].
  destruct (getattr tel "delta_t") as [delta_t|];
    cbn [lift mbind H_bind app fst]; [|by intros ?%elem_of_nil].
  destruct (getattr tel "delta_f") as [delta_f|];
    cbn [lift mbind H_bind app fst]; [|by intros ?%elem_of_nil].
  destruct (getattr tel "low_confidence") as [lf|];
    cbn [lift mbind H_bind app fst emit]; [|by intros ?%elem_of_nil].
  intros [= ->]%list_elem_of_singleton.
  split; [done|]. split; [done|]. split; [done|].
  exists off_air, is_new, text. rewrite (Htext text) by done. done.
Qed.

(** X25.  A [Close] telegram is answered with a heartbeat; then the
    server exits with status 0 if the address recorded for the
    telegram's id is the one the server answers to, and raises
    [AssertionError] if it is another, or [KeyError] if none is
    recorded. *)
Theorem close_ends_the_server (self : t) (now : Z) (tel : telegram)
    (a : address) (id : option value) (k : option pystr) :
  tel_class tel = WSJTX_Close -> heartbeat_seen self = false ->
  adr self = Some a ->
  getattr tel "id" = Ok id -> key_of id = Ok k ->
  handle self now tel =
    match peer_get (peer self) k with
    | None => ([Sendto heartbeat_bytes a], inl (Raised KeyError))
    | Some a' =>
        if bool_decide (a' = a)
        then ([Sendto heartbeat_bytes a;
               Log (lit "wsjt_srv udp server exit.")], inl (SystemExit 0))
        else ([Sendto heartbeat_bytes a], inl (Raised AssertionError))
    end.
Proof.
  intros Hc Hs Ha Hid Hk. unfold handle. rewrite Hs, Hc.
  cbn [negb orb]. rewrite (heartbeat_sends _ a) by done.
  change (bool_decide (WSJTX_Close = WSJTX_Decode)) with false.
  change (bool_decide (WSJTX_Close = WSJTX_Close)) with true.
  cbn [mbind H_bind mret H_ret app].
  unfold handle_close. rewrite Hid. cbn [lift mbind H_bind mret H_ret].
  rewrite Hk. cbn [lift mbind H_bind mret H_ret].
  destruct (peer_get (peer self) k) as [a'|];
    cbn [lift mbind H_bind mret H_ret app]; [|done].
  rewrite Ha.
  destruct (decide (a' = a)) as [->|Hne].
  - rewrite !bool_decide_eq_true_2 by done. reflexivity.
  - rewrite !bool_decide_eq_false_2 by congruence. reflexivity.
Qed.

Lemma match_prefix_Empty s : match_prefix Empty s = false.
Proof. induction s as [|c s IH]; [done|]. cbn. exact IH. Qed.

Lemma match_prefix_nullable r s : nullable r = true -> match_prefix r s = true.
Proof. intros Hn. destruct s; cbn; by rewrite Hn. Qed.

(** X26.  [is_locator], [is_report] and [is_stdcall] look at the
    beginning of the string only: at two letters and two digits; at a
    sign and two digits, after an optional [R]; at a prefix of one
    letter, a letter and a letter or digit, or a digit and a letter,
    followed by a digit and a letter.  What follows is not looked
    at. *)
Theorem prefix_tests (s : pystr) :
  let up c := ((65 <=? c) && (c <=? 90))%N in
  let dg c := ((48 <=? c) && (c <=? 57))%N in
  let sign c := ((c =? 45) || (c =? 43))%N in
  is_locator s =
    match s with
    | a :: b :: c :: d :: _ => up a && up b && dg c && dg d
    | _ => false
    end /\
  is_report s =
    match s with
    | x :: y :: z :: tl =>
        (sign x && dg y && dg z)
        || ((x =? 82)%N && sign y && dg z
            && match tl with w :: _ => dg w | [] => false end)
    | _ => false
    end /\
  is_stdcall s =
    match s with
    | a :: b :: c :: tl =>
        (up a && dg b && up c)
        || (((up a && (up b || dg b)) || (dg a && up b)) && dg c
            && match tl with d :: _ => up d | [] => false end)
    | _ => false
    end.
Proof.
  cbv zeta. unfold is_locator, is_report, is_stdcall, re_loc, re_report, re_call.
  split; [|split].
  - destruct s as [|a [|b [|c [|d tl]]]]; cbn;
      repeat first [ case_match | progress cbn
                   | rewrite match_prefix_Empty
                   | rewrite match_prefix_nullable by done ];
      first [done | lia].
  - destruct s as [|x [|y [|z [|w tl]]]]; cbn;
      repeat first [ case_match | progress cbn
                   | rewrite match_prefix_Empty
                   | rewrite match_prefix_nullable by done ];
      first [done | lia].
  - destruct s as [|a [|b [|c [|d tl]]]]; cbn;
      repeat first [ case_match | progress cbn
                   | rewrite match_prefix_Empty
                   | rewrite match_prefix_nullable by done ];
      first [done | lia].
Qed.

End WithUnicode.

Lemma foreign_datagram_is_ignored_witness :
  let a1 : address := (lit "127.0.0.1", 50000) in
  let a2 : address := (lit "127.0.0.1", 50001) in
  let self := {| cty_parser := CTY.empty; peer := []; adr := Some a1;
                 heartbeat_seen := false |} in
  (@receive ascii_db self 0 clearmsg a2).2 =
    match from_bytes clearmsg with
    | Ok tel => ([], inr tel)
    | Raise e => ([], inl (Raised e))
    end.
Proof.
  cbv zeta.
  apply (@foreign_datagram_is_ignored ascii_db _ 0 clearmsg
           (lit "127.0.0.1", 50001) (lit "127.0.0.1", 50000));
    [reflexivity|discriminate].
Defined.

Lemma every_telegram_is_answered_witness :
  let a : address := (lit "127.0.0.1", 50000) in
  exists es r,
    (@receive ascii_db (UDP_Connector.init CTY.empty) 0 clearmsg a).2
      = (Sendto heartbeat_bytes a :: es, r).
Proof.
  cbv zeta.
  apply (@every_telegram_is_answered ascii_db (UDP_Connector.init CTY.empty)
           0 clearmsg (lit "127.0.0.1", 50000) _ eq_refl doctest_clearmsg).
  by left.
Defined.

Lemma handle_decode_forwards_witness :
  let tel :=
    {| tel_class := WSJTX_Decode;
       tel_attrs :=
         header (Some (VInt magic)) (Some (VInt 2)) (Some (VInt 2))
           (Some (VStr (lit "WSJT-X")))
           [ ("is_new", Some (VInt 1)); ("time", Some (VInt 43200000))
           ; ("snr", Some (VInt (-12))); ("delta_t", Some (VFloat 0%N))
           ; ("delta_f", Some (VInt 1520)); ("mode", Some (VStr (lit "~")))
           ; ("message", Some (VStr (lit "CQ KA1ABC FN42")))
           ; ("low_confidence", Some (VInt 0))
           ; ("off_air", Some (VInt 0)) ]%string |} in
  let m :=
    {| msg_parsed := @parse_wsjtx_decode_msg ascii_db CTY.empty
                       (Some (lit "CQ KA1ABC FN42"));
       msg_time := 1700000000; msg_snr := Some (VInt (-12));
       msg_delta_t := Some (VFloat 0%N); msg_delta_f := Some (VInt 1520);
       msg_lf := Some (VInt 0) |} in
  @handle_decode ascii_db (UDP_Connector.init CTY.empty) 1700000000 tel
    = ([Put m], inr tt) /\
  CTY.caller (msg_parsed m) = Some (lit "KA1ABC").
Proof.
  cbv zeta. split; [|vm_compute; reflexivity].
  refine (proj1 (@handle_decode_forwards ascii_db
                   (UDP_Connector.init CTY.empty) 1700000000 _ _ _)).
  match goal with
  | |- Put ?m ∈ (handle_decode ?s ?n ?t).1 =>
      assert (handle_decode s n t = ([Put m], inr tt)) as ->
        by (vm_compute; reflexivity)
  end.
  apply list_elem_of_here.
Defined.

Lemma close_ends_the_server_witness :
  let a : address := (lit "127.0.0.1", 50000) in
  let tel :=
    {| tel_class := WSJTX_Close;
       tel_attrs :=
         header (Some (VInt magic)) (Some (VInt 2)) (Some (VInt 6))
           (Some (VStr (lit "WSJT-X"))) [] |} in
  let self := {| cty_parser := CTY.empty;
                 peer := [(Some (lit "WSJT-X"), a)]; adr := Some a;
                 heartbeat_seen := false |} in
  @handle ascii_db self 0 tel =
    ([Sendto heartbeat_bytes a; Log (lit "wsjt_srv udp server exit.")],
     inl (SystemExit 0)).
Proof.
  cbv zeta.
  rewrite (@close_ends_the_server ascii_db _ 0 _ (lit "127.0.0.1", 50000)
             (Some (VStr (lit "WSJT-X"))) (Some (lit "WSJT-X")))
    by reflexivity.
  reflexivity.
Defined.

End UDPExtras.


(** ** More on the aggregation engine *)

Module AggregationExtras.
Import Data_Server AggregationFacts.

Lemma group_filter data : forall st,
  fold_left add_message (List.filter has_caller data) st
  = fold_left add_message data st.
Proof.
  induction data as [|m data IH]; intros st; [done|].
  cbn [List.filter fold_left]. unfold has_caller at 1.
  destruct (Monitor_Message.caller m) eqn:E.
  - cbn [fold_left]. apply IH.
  - rewrite IH. f_equal. unfold add_message.
    destruct st as [[minutes b] e]. by rewrite E.
Qed.

(** X27.  Messages without a caller are skipped: saving a batch does
    to the store, and returns, what saving the batch without them
    does. *)
Theorem callerless_messages_are_skipped (now : Z) (monitor band : pystr)
    (data : list Monitor_Message.t) (d : db) :
  save_monitor_data now monitor band data d
  = save_monitor_data now monitor band (List.filter has_caller data) d.
Proof.
  unfold save_monitor_data, save_minutes, group_messages.
  by rewrite group_filter.
Qed.

Lemma idle_hour_fresh d monitor band h :
  fetch_in_hours d monitor band h h = [] -> h mod 3600 = 0 ->
  existsb (same_hour (idle_hour monitor band h)) (tb_hours d) = false.
Proof.
  unfold fetch_in_hours, db_read_hours. intros Hf Hm. rewrite Hm in Hf.
  cbn in Hf. induction (tb_hours d) as [|r tb IH]; [done|].
  cbn. rewrite filter_cons in Hf. case_decide as Hr; [done|].
  rewrite IH by done. rewrite orb_false_r.
  unfold same_hour. cbn.
  destruct (Z.eqb_spec h (Hours_Record.ctime r)); [|done].
  repeat case_bool_decide; try done. destruct Hr. split; [lia|done].
Qed.

Lemma hour_of_minute t : minute_start t - minute_start t mod 3600 = hour_start t.
Proof.
  unfold minute_start, hour_start. Z.to_euclidean_division_equations. lia.
Qed.





(** The window of a fetch.  [fetch_in_minutes] returns the
    stored minute buckets of (monitor, band) from the start of the
    minute of [begin] to the start of the minute of [end], both
    included; a bucket whose minute starts before [begin] is returned
    when [begin] falls in that minute.  [fetch_in_hours] does the same
    with hours. *)
Theorem fetch_window (d : db) (monitor band : pystr) (b e : Z) :
  (forall r, r ∈ fetch_in_minutes d monitor band b e <->
     r ∈ tb_minutes d /\ Minutes_Record.monitor r = monitor /\
     Minutes_Record.band r = band /\
     minute_start b <= Minutes_Record.ctime r <= minute_start e) /\
  (forall r, r ∈ fetch_in_hours d monitor band b e <->
     r ∈ tb_hours d /\ Hours_Record.monitor r = monitor /\
     Hours_Record.band r = band /\
     hour_start b <= Hours_Record.ctime r <= hour_start e).
Proof.
  assert (forall n t, (if t mod n =? 0 then t else t - t mod n) = t - t mod n)
    as Hr.
  { intros n t. destruct (Z.eqb_spec (t mod n) 0); lia. }
  unfold fetch_in_minutes, fetch_in_hours, db_read_minutes, db_read_hours,
    minute_start, hour_start.
  rewrite !Hr.
  split; intros r; rewrite list_elem_of_filter; tauto.
Qed.


Lemma dict_get_Forall {V} (Q : V -> Prop) (d : list (Z * V)) k v :
  Forall (fun kv => Q kv.2) d -> dict_get d k = Some v -> Q v.
Proof.
  induction 1 as [|[k' v'] d Hv _ IH]; [done|]. cbn.
  destruct (k' =? k); [by intros [= <-]|done].
Qed.

Lemma dict_set_Forall {V} (Q : V -> Prop) (d : list (Z * V)) k v :
  Forall (fun kv => Q kv.2) d -> Q v ->
  Forall (fun kv => Q kv.2) (dict_set d k v).
Proof.
  intros Hd Hv. induction Hd as [|[k' v'] d Hv' Hd IH]; cbn.
  - by constructor.
  - destruct (k' =? k); by constructor.
Qed.

Lemma upsert_Forall {A} (Q : A -> Prop) (same : A -> A -> bool) data tb :
  Forall Q tb -> Q data -> Forall Q (upsert same data tb).
Proof.
  intros Htb Hd. unfold upsert. destruct (existsb (same data) tb).
  - induction Htb as [|r tb Hr _ IH]; cbn; [done|].
    constructor; [by destruct (same data r)|done].
  - apply Forall_app. split; [done|by constructor].
Qed.

Lemma round_div_ok a b : b <> 0 -> exists m, round_div a b = Ok m.
Proof. intros Hb. destruct (round_div_nearest a b Hb) as (m & Hm & _). eauto. Qed.

(** Every minute group counts at least one message. *)
Lemma group_totals data : forall st,
  Forall (fun kv => 1 <= Group.total kv.2) st.1.1 ->
  Forall (fun kv => 1 <= Group.total kv.2)
    (fold_left add_message data st).1.1.
Proof.
  induction data as [|m data IH]; intros st Hst; [done|].
  cbn [fold_left]. apply IH. destruct st as [[minutes b] e].
  unfold add_message. destruct (Monitor_Message.caller m); [|done].
  cbn [fst]. apply (dict_set_Forall (fun g => 1 <= Group.total g)); [done|].
  destruct (dict_get minutes _) as [g|] eqn:E; cbn [Group.total]; [|lia].
  apply (dict_get_Forall (fun g => 1 <= Group.total g)) in E; [lia|done].
Qed.

Lemma fetch_in_minutes_stored d monitor band b e :
  Forall (fun r => 0 <= Minutes_Record.total r) (tb_minutes d) ->
  Forall (fun r => 0 <= Minutes_Record.total r)
    (fetch_in_minutes d monitor band b e).
Proof.
  intros Hd. unfold fetch_in_minutes, db_read_minutes.
  rewrite Forall_forall in *. intros r [_ Hr]%list_elem_of_filter. auto.
Qed.

Lemma fetch_in_hours_stored d monitor band b e :
  Forall (fun r => 0 <= Hours_Record.total r) (tb_hours d) ->
  Forall (fun r => 0 <= Hours_Record.total r)
    (fetch_in_hours d monitor band b e).
Proof.
  intros Hd. unfold fetch_in_hours, db_read_hours.
  rewrite Forall_forall in *. intros r [_ Hr]%list_elem_of_filter. auto.
Qed.

Lemma minutes_loop_ok monitor band items : forall d,
  Forall (fun kv => 1 <= Group.total kv.2) items ->
  Forall (fun r => 0 <= Minutes_Record.total r) (tb_minutes d) ->
  exists d' items',
    minutes_loop monitor band items d = (d', Ok items') /\
    Forall (fun r => 0 <= Minutes_Record.total r) (tb_minutes d') /\
    tb_hours d' = tb_hours d /\
    Forall (fun kv => 1 <= Group.total kv.2) items'.
Proof.
  induction items as [|[mt r] items IH]; intros d Hi Hd.
  - exists d, []. done.
  - apply Forall_cons in Hi as [Hr Hi]. cbn [snd] in Hr.
    cbn [minutes_loop].
    unfold mbind, M_bind, result_bind, lift, set_mean, read_minutes,
      upsert_minute, merge_minute.
    destruct (round_div_ok (Group.snr r) (Group.total r)) as [snr ->]; [lia|].
    unfold mbind, result_bind; cbv beta iota.
    pose proof (fetch_in_minutes_stored d monitor band mt mt Hd) as Hrecs.
    destruct (fetch_in_minutes d monitor band mt mt) as [|dbrec recs].
    + match goal with
      | |- context [minutes_loop monitor band items ?d1] =>
          destruct (IH d1 Hi) as (d' & items' & -> & Hd' & Hh' & Hi')
      end.
      { cbn [db_upsert_minute tb_minutes]. apply upsert_Forall; [done|].
        cbn. lia. }
      eexists _, _. split; [reflexivity|]. split; [done|]. split; [done|].
      by constructor.
    + apply Forall_cons in Hrecs as [Hdb _]. cbn [Group.snr Group.total].
      destruct (round_div_ok
                  (Minutes_Record.snr dbrec * Minutes_Record.total dbrec
                   + snr * Group.total r)
                  (Minutes_Record.total dbrec + Group.total r))
        as [m ->]; [lia|].
      unfold mbind, result_bind; cbv beta iota.
      match goal with
      | |- context [minutes_loop monitor band items ?d1] =>
          destruct (IH d1 Hi) as (d' & items' & -> & Hd' & Hh' & Hi')
      end.
      { cbn [db_upsert_minute tb_minutes]. apply upsert_Forall; [done|].
        cbn. lia. }
      eexists _, _. split; [reflexivity|]. split; [done|]. split; [done|].
      by constructor.
Qed.

Lemma fill_hours_ok monitor band items : forall hr_nm,
  Forall (fun kv => 1 <= Group.total kv.2) items ->
  Forall (fun kv => 1 <= Hours_Record.total kv.2) hr_nm ->
  exists hr', fill_hours monitor band hr_nm items = Ok hr' /\
    Forall (fun kv => 1 <= Hours_Record.total kv.2) hr'.
Proof.
  induction items as [|[mt r] items IH]; intros hr_nm Hi Hh.
  - exists hr_nm. done.
  - apply Forall_cons in Hi as [Hr Hi]. cbn [snd] in Hr.
    cbn [fill_hours]. unfold add_to_hour.
    set (h := match dict_get hr_nm (mt - mt mod 3600) with
              | Some h => h
              | None => idle_hour monitor band (mt - mt mod 3600)
              end).
    assert (0 <= Hours_Record.total h) as Hh0.
    { unfold h. destruct (dict_get hr_nm _) as [h0|] eqn:E; [|done].
      apply (dict_get_Forall (fun h => 1 <= Hours_Record.total h)) in E;
        [lia|done]. }
    destruct (round_div_ok
                (Hours_Record.snr h * (Hours_Record.total h + Group.total r)
                 + Group.snr r * Group.total r)
                (Hours_Record.total h + Group.total r + Group.total r))
      as [m ->]; [lia|].
    cbn [mbind result_bind]. apply IH; [done|].
    apply (dict_set_Forall (fun h => 1 <= Hours_Record.total h)); [done|].
    cbn. lia.
Qed.

Lemma hours_loop_ok hr_db items : forall d,
  Forall (fun kv => 1 <= Hours_Record.total kv.2) items ->
  Forall (fun kv => 0 <= Hours_Record.total kv.2) hr_db ->
  Forall (fun r => 0 <= Hours_Record.total r) (tb_hours d) ->
  exists d', hours_loop hr_db items d = (d', Ok tt) /\
    Forall (fun r => 0 <= Hours_Record.total r) (tb_hours d') /\
    tb_minutes d' = tb_minutes d.
Proof.
  induction items as [|[r_hour c] items IH]; intros d Hi Hdb Hd.
  - exists d. done.
  - apply Forall_cons in Hi as [Hc Hi]. cbn [snd] in Hc.
    cbn [hours_loop].
    unfold mbind, M_bind, result_bind, lift, upsert_hour, merge_hour.
    destruct (dict_get hr_db r_hour) as [rec|] eqn:E.
    + apply (dict_get_Forall (fun h => 0 <= Hours_Record.total h)) in E;
        [|done].
      destruct (round_div_ok
                  (Hours_Record.snr rec * Hours_Record.total rec
                   + Hours_Record.snr c * Hours_Record.total c)
                  (Hours_Record.total rec + Hours_Record.total c))
        as [m ->]; [lia|].
      unfold mbind, result_bind; cbv beta iota.
      match goal with
      | |- context [hours_loop hr_db items ?d1] =>
          destruct (IH d1 Hi Hdb) as (d' & -> & Hd' & Hm')
      end.
      { cbn [db_upsert_hour tb_hours]. apply upsert_Forall; [done|].
        cbn. lia. }
      exists d'. done.
    + match goal with
      | |- context [hours_loop hr_db items ?d1] =>
          destruct (IH d1 Hi Hdb) as (d' & -> & Hd' & Hm')
      end.
      { cbn [db_upsert_hour tb_hours]. apply upsert_Forall; [done|]. lia. }
      exists d'. done.
Qed.

Lemma hr_db_Forall (recs : list Hours_Record.t) :
  Forall (fun r => 0 <= Hours_Record.total r) recs ->
  Forall (fun kv => 0 <= Hours_Record.total kv.2)
    (fold_left (fun hr_db r => dict_set hr_db (Hours_Record.ctime r) r)
       recs []).
Proof.
  assert (forall acc,
    Forall (fun kv : Z * Hours_Record.t => 0 <= Hours_Record.total kv.2) acc ->
    Forall (fun r => 0 <= Hours_Record.total r) recs ->
    Forall (fun kv => 0 <= Hours_Record.total kv.2)
      (fold_left (fun hr_db r => dict_set hr_db (Hours_Record.ctime r) r)
         recs acc)) as Hgen.
  { induction recs as [|r recs IH]; intros acc Hacc Hrecs; [done|].
    apply Forall_cons in Hrecs as [Hr Hrecs]. cbn [fold_left].
    apply IH; [|done].
    by apply (dict_set_Forall (fun h => 0 <= Hours_Record.total h)). }
  by apply Hgen.
Qed.



End AggregationExtras.
